(** * Audit and reconciliation engine of the Tally MCP server

    A shallow embedding of the algorithmic core of the TypeScript sources
    ([tools/config-audit.ts], [tools/bank-reconciliation.ts] and
    [tools/financial.ts]): the configuration audit with its scores and its
    name-similarity utility, the two-phase bank statement matcher, and the
    receivables / payables aging; followed by the properties proved of them.

    Conventions of the embedding.
    - A JavaScript string is a sequence of code units.  The similarity
      utility is generic in the code-unit type; the audit works on
      [string], whose characters stand for the code units of ASCII text.
    - A JavaScript number holding money or a number of days is a rational
      [Q] and arithmetic on it is exact; counters and lengths are [nat],
      scores are [Z].
    - A [Date] is its [getTime()] value: [Some ms], or [None] for an
      invalid date, whose [getTime()] is NaN.
    - A JavaScript object compared by identity is a value paired with the
      address it was allocated at.
    - [await connection.executeRequest(..)] never throws (it catches every
      error and answers [{success: false}]); its answer is an input of the
      function that awaits it.                                            *)

From Stdlib Require Import QArith Qround Qabs DecimalString Ascii.
From stdpp Require Import gmap strings list fin_maps.

(** ** JavaScript helpers *)

(** [for (let k = start; k < start + len; k++) a = f a k]. *)
Definition forRange {A} (start len : nat) (f : A → nat → A) (a : A) : A :=
  foldl f a (seq start len).

(** [x <= y], [x < y], [x > y] and [x === y] on numbers. *)
Definition Qleb (x y : Q) : bool := Qle_bool x y.
Definition Qltb (x y : Q) : bool := negb (Qle_bool y x).
Definition Qgtb (x y : Q) : bool := negb (Qle_bool x y).
Definition Qeqb (x y : Q) : bool := Qeq_bool x y.

(** [a || b] on numbers: [a] unless it is zero. *)
Definition numOr (a b : Q) : Q := if Qeqb a 0 then b else a.

(** [String(n)] for a natural number and for an integer. *)
Definition natToString (n : nat) : string := NilZero.string_of_uint (Nat.to_uint n).
Definition intToString (n : Z) : string := NilZero.string_of_int (Z.to_int n).

Module Js.

(** Code units of a string. *)
Definition units (s : string) : list ascii := String.list_ascii_of_string s.
Definition ofUnits (l : list ascii) : string := String.string_of_list_ascii l.

Definition inRange (lo hi : N) (c : ascii) : bool :=
  (lo <=? N_of_ascii c)%N && (N_of_ascii c <=? hi)%N.

Definition isUpper : ascii → bool := inRange 65 90.
Definition isLower : ascii → bool := inRange 97 122.
Definition isDigit : ascii → bool := inRange 48 57.

Definition lowerUnit (c : ascii) : ascii :=
  if isUpper c then ascii_of_N (N_of_ascii c + 32) else c.
Definition upperUnit (c : ascii) : ascii :=
  if isLower c then ascii_of_N (N_of_ascii c - 32) else c.

(** [s.toLowerCase()] and [s.toUpperCase()]. *)
Definition toLowerCase (s : string) : string := ofUnits (lowerUnit <$> units s).
Definition toUpperCase (s : string) : string := ofUnits (upperUnit <$> units s).

(** [s.replace(/[^a-z0-9]/g, '')]. *)
Definition stripNonAlnum (s : string) : string :=
  ofUnits (List.filter (λ c, isLower c || isDigit c) (units s)).

(** [digits.padStart(w, '0')] on a digit string. *)
Definition padZeros (w : nat) (digits : list ascii) : list ascii :=
  replicate (w - length digits) "0"%char ++ digits.

(** [x.toFixed(2)]: the sign, then the integer nearest to [100 |x|] (the
    larger one on a tie) written with two decimals.  Values of [1e21] and
    above, which JavaScript prints in exponent form, are not distinguished. *)
Definition toFixed2 (x : Q) : string :=
  let n := Qfloor (Qabs x * 100 + (1 # 2)) in
  let digits := padZeros 3 (units (intToString n)) in
  let k := (length digits - 2)%nat in
  (if Qltb x 0 then "-" else "")
    +:+ ofUnits (take k digits) +:+ "." +:+ ofUnits (drop k digits).

(** [new Date("YYYY-MM-DD").getTime() / 86400000]: the day number of a
    calendar date, counted from 1970-01-01. *)
Definition daysFromCivil (y m d : Z) : Z :=
  let y' := if (m <=? 2)%Z then (y - 1)%Z else y in
  let era := (y' / 400)%Z in
  let yoe := (y' - era * 400)%Z in
  let mp := if (2 <? m)%Z then (m - 3)%Z else (m + 9)%Z in
  let doy := ((153 * mp + 2) / 5 + d - 1)%Z in
  let doe := (yoe * 365 + yoe / 4 - yoe / 100 + doy)%Z in
  (era * 146097 + doe - 719468)%Z.

(** A [Date] as its [getTime()]: milliseconds, or [None] when invalid. *)
Definition Date := option Z.

Definition msPerDay : Z := (1000 * 60 * 60 * 24)%Z.

(** [new Date("YYYY-MM-DD")], midnight UTC of that day. *)
Definition dateOf (y m d : Z) : Date := Some (daysFromCivil y m d * msPerDay)%Z.

End Js.

(** ** Shared types *)

(** [TallyResponse<T>]: [{success: true, data}] or [{success: false, error}]. *)
Inductive TallyResponse (T : Type) :=
| Success (data : T)
| Failure (error : string).
Arguments Success {T} data.
Arguments Failure {T} error.

(** An object with identity: [addr] tells two objects of equal contents
    apart, as [===] and [indexOf] do. *)
Record Obj (A : Type) := mkObj { addr : nat; val : A }.
Arguments mkObj {A} addr val.
Arguments addr {A} o.
Arguments val {A} o.

(** The objects of a freshly built array, allocated one per position. *)
Definition allocate {A} (xs : list A) : list (Obj A) := imap mkObj xs.

(** ** NameSimilarity: [isSimilarName] and [levenshteinDistance] *)

Section NameSimilarity.
Context {C : Type} `{EqDecision C}.
Implicit Types s t : list C.

(** [s.startsWith(t)], the test [includes] runs at every position. *)
Fixpoint startsWith s t : bool :=
  match t, s with
  | [], _ => true
  | _ :: _, [] => false
  | y :: t', x :: s' => bool_decide (x = y) && startsWith s' t'
  end.

(** [s.includes(t)]: [t] occurs in [s] as a contiguous run. *)
Fixpoint includes s t : bool :=
  startsWith s t ||
  match s with
  | [] => false
  | _ :: s' => includes s' t
  end.

(** The table [dp] of [levenshteinDistance], an array of rows. *)
Definition dpGet (dp : list (list nat)) (i j : nat) : nat :=
  default 0 (dp !! i ≫= (.!! j)).

Definition dpSet (dp : list (list nat)) (i j v : nat) : list (list nat) :=
  alter (λ row, <[j:=v]> row) i dp.

(** The body of the inner loop: the assignment to [dp[i][j]]. *)
Definition fillCell s1 s2 (i : nat) (dp : list (list nat)) (j : nat)
  : list (list nat) :=
  if bool_decide (s1 !! (i - 1) = s2 !! (j - 1))
  then dpSet dp i j (dpGet dp (i - 1) (j - 1))
  else dpSet dp i j
         (1 + Nat.min (Nat.min (dpGet dp (i - 1) j) (dpGet dp i (j - 1)))
                      (dpGet dp (i - 1) (j - 1))).

Definition levenshteinDistance s1 s2 : nat :=
  let m := length s1 in
  let n := length s2 in
  let dp := replicate (m + 1) (replicate (n + 1) 0) in
  let dp := forRange 0 (m + 1) (λ dp i, dpSet dp i 0 i) dp in
  let dp := forRange 0 (n + 1) (λ dp j, dpSet dp 0 j j) dp in
  let dp := forRange 1 m (λ dp i, forRange 1 n (fillCell s1 s2 i) dp) dp in
  dpGet dp m n.

(** [1 - distance / maxLen], the similarity ratio, as a rational.  Its
    comparison with [0.8] below is the comparison of [maxLen] with
    [5 * distance]; on doubles it has the same outcome, the two sides being
    either equal ([1 - 0.2] rounds to the double [0.8]) or at least
    [1 / (5 * maxLen)] apart. *)
Definition similarity (distance maxLen : nat) : Q :=
  1 - inject_Z (Z.of_nat distance) / inject_Z (Z.of_nat maxLen).

Definition isSimilarName (name1 name2 : list C) : bool :=
  if bool_decide (name1 = name2) then false
  else if includes name1 name2 || includes name2 name1
  then bool_decide (3 < length name1) && bool_decide (3 < length name2)
  else
    let distance := levenshteinDistance name1 name2 in
    let maxLen := Nat.max (length name1) (length name2) in
    Qgtb (similarity distance maxLen) (8 # 10) && bool_decide (5 < maxLen).

End NameSimilarity.

(** ** ConfigAuditTools: the configuration audit *)

Module ConfigAudit.

(** A field of a parsed Tally XML object: absent, a string, a number
    (the parser turns numeric text into numbers; integers are modelled),
    an object carrying ['#text'], or any other object. *)
Inductive TallyValue :=
| VUndefined
| VString (s : string)
| VNumber (n : Z)
| VText (t : string)
| VObject.

#[global] Instance TallyValue_eq_dec : EqDecision TallyValue.
Proof. solve_decision. Defined.

(** [!!v]. *)
Definition truthy (v : TallyValue) : bool :=
  match v with
  | VUndefined => false
  | VString s => negb (String.eqb s "")
  | VNumber n => negb (n =? 0)%Z
  | VText _ | VObject => true
  end.

(** [`${v}`]: the string a template literal inserts. *)
Definition toStr (v : TallyValue) : string :=
  match v with
  | VUndefined => "undefined"
  | VString s => s
  | VNumber n => intToString n
  | VText _ | VObject => "[object Object]"
  end.

(** [v || '']. *)
Definition orEmpty (v : TallyValue) : TallyValue :=
  if truthy v then v else VString "".

Definition extractString (value : TallyValue) : string :=
  if negb (truthy value) then ""
  else match value with
       | VString s => s
       | VNumber n => intToString n
       | VText t => t
       | VUndefined | VObject => ""
       end.

(** A ledger of [extractLedgers(response.data)], with the fields the audit
    reads.  [CLOSINGBALANCE] is the number [connection.parseAmount] makes
    of the field. *)
Record Ledger := {
  NAME : TallyValue;
  PARENT : TallyValue;
  CLOSINGBALANCE : Q;
  GSTAPPLICABLE : TallyValue;
  ISTAXABLE : TallyValue;
  ISTDSAPPLICABLE : TallyValue;
  INCOMETAXNUMBER : TallyValue;
  TDSDEDUCTEETYPE : TallyValue;
  PARTYGSTIN : TallyValue;
  GSTREGISTRATIONTYPE : TallyValue;
  LEDGERSTATENAME : TallyValue
}.

(** A stock item of [extractStockItems(response.data)]. *)
Record StockItem := {
  itemNAME : TallyValue;
  HSNCODE : TallyValue;
  GSTRATE : TallyValue;
  BASEUNITS : TallyValue
}.

(** [TallyCompany], with the fields [auditCompanyInfo] reads. *)
Record TallyCompany := {
  name : string;
  gstNumber : string;
  panNumber : string;
  tanNumber : string;
  state : string
}.

Inductive Category :=
| GST | TDS | LedgerClassification | PartyMaster | StockItemCategory
| VoucherType | CompanyInfo.

Inductive Severity := Critical | High | Medium | Low.

#[global] Instance Severity_eq_dec : EqDecision Severity.
Proof. solve_decision. Defined.
#[global] Instance Category_eq_dec : EqDecision Category.
Proof. solve_decision. Defined.

Inductive FixActionType :=
| rename_ledger | regroup_ledger | update_gst_details | update_tds_details
| create_ledger | update_party | update_stock_item | update_company.

(** A value of [FixAction.changes]. *)
Inductive ChangeValue := CString (s : string) | CBool (b : bool).

Record FixAction := {
  type : FixActionType;
  targetName : TallyValue;
  changes : list (string * ChangeValue)
}.

(** [AuditIssue].  The display texts [description], [currentValue] and
    [suggestedValue] are not carried. *)
Record AuditIssue := {
  id : string;
  category : Category;
  severity : Severity;
  title : string;
  affectedItems : option (list TallyValue);
  autoFixable : bool;
  fixAction : option FixAction
}.

Inductive Status := Good | NeedsAttention | StatusCritical.

Record CategoryAudit := {
  score : Z;
  status : Status;
  issueCount : nat;
  summary : string
}.

Record Categories := {
  gst : CategoryAudit;
  tds : CategoryAudit;
  ledgerClassification : CategoryAudit;
  partyMaster : CategoryAudit;
  stockItems : CategoryAudit;
  companyInfo : CategoryAudit
}.

(** [AuditReport], without [auditDate] (the clock) and the
    [recommendations] texts. *)
Record AuditReport := {
  companyName : string;
  overallScore : Z;
  totalIssues : nat;
  criticalIssues : nat;
  highIssues : nat;
  mediumIssues : nat;
  lowIssues : nat;
  categories : Categories;
  issues : list AuditIssue
}.

(** What the connection answers during one [runFullAudit]: the selected
    company and, in the order the six checks send them, the reply to each
    request. *)
Record Connection := {
  getCompanyName : option string;
  getCompanyList : TallyResponse (list TallyCompany);
  gstLedgers : TallyResponse (list Ledger);
  tdsLedgers : TallyResponse (list Ledger);
  classificationLedgers : TallyResponse (list Ledger);
  partyLedgers : TallyResponse (list Ledger);
  stockItemsReply : TallyResponse (list StockItem)
}.

(** *** Rule tables *)

Definition GST_OUTPUT_IGST := ["output igst"; "igst payable"; "igst output"; "igst on sales"].
Definition GST_OUTPUT_CGST := ["output cgst"; "cgst payable"; "cgst output"; "cgst on sales"].
Definition GST_OUTPUT_SGST :=
  ["output sgst"; "sgst payable"; "sgst output"; "sgst on sales"; "utgst payable"].
Definition GST_INPUT_IGST := ["input igst"; "igst receivable"; "igst input"; "igst on purchase"].
Definition GST_INPUT_CGST := ["input cgst"; "cgst receivable"; "cgst input"; "cgst on purchase"].
Definition GST_INPUT_SGST :=
  ["input sgst"; "sgst receivable"; "sgst input"; "sgst on purchase"; "utgst receivable"].

Definition TDS_194C := ["tds 194c"; "tds on contractor"; "tds contractor"; "tds - contractor"].
Definition TDS_194J :=
  ["tds 194j"; "tds on professional"; "tds professional"; "tds - professional"; "tds technical"].
Definition TDS_194H :=
  ["tds 194h"; "tds on commission"; "tds commission"; "tds - commission"; "tds brokerage"].
Definition TDS_194I := ["tds 194i"; "tds on rent"; "tds rent"; "tds - rent"].
Definition TDS_194A := ["tds 194a"; "tds on interest"; "tds interest"; "tds - interest"].

(** [Object.entries(TDS_APPLICABLE_EXPENSES)], in insertion order. *)
Definition TDS_APPLICABLE_EXPENSES : list (string * list string) :=
  [ ("194C", ["contractor"; "labour"; "job work"; "works contract"; "sub-contract";
              "transportation"; "freight"; "cartage"; "loading"; "unloading";
              "catering"; "housekeeping"; "security"]);
    ("194J", ["professional"; "consultancy"; "legal"; "audit"; "accounting";
              "technical"; "architect"; "interior"; "doctor"; "medical";
              "engineering"; "ca fees"; "advocate"]);
    ("194H", ["commission"; "brokerage"; "agency"]);
    ("194I", ["rent"; "lease"; "hire"]);
    ("194A", ["interest"]) ].

(** *** Helpers *)

(** [s.includes(t)] on strings. *)
Definition strIncludes (s t : string) : bool := includes (Js.units s) (Js.units t).

Definition nameLower (l : Ledger) : string := Js.toLowerCase (extractString (NAME l)).
Definition parentLower (l : Ledger) : string := Js.toLowerCase (extractString (PARENT l)).

(** [patterns.some(p => name.includes(p))]. *)
Definition matchesAny (patterns : list string) (name : string) : bool :=
  existsb (strIncludes name) patterns.

(** One position of a regular expression: a class of code units. *)
Definition classMatches (classes : list (ascii → bool)) (s : string) : bool :=
  bool_decide (length classes = String.length s) &&
  forallb (λ p, p.1 p.2) (zip classes (Js.units s)).

Definition upperOrDigit (c : ascii) : bool := Js.isDigit c || Js.isUpper c.

(** [/^[0-9]{2}[A-Z]{5}[0-9]{4}[A-Z]{1}[1-9A-Z]{1}Z[0-9A-Z]{1}$/]. *)
Definition gstinRegex : list (ascii → bool) :=
  replicate 2 Js.isDigit ++ replicate 5 Js.isUpper ++ replicate 4 Js.isDigit ++
  [Js.isUpper; (λ c, Js.inRange 49 57 c || Js.isUpper c);
   (λ c, bool_decide (c = "Z"%char)); upperOrDigit].

(** [/^[A-Z]{5}[0-9]{4}[A-Z]{1}$/]. *)
Definition panRegex : list (ascii → bool) :=
  replicate 5 Js.isUpper ++ replicate 4 Js.isDigit ++ [Js.isUpper].

(** [isValidGSTIN(gstin)]; a value that is not a string has no [length]
    of 15. *)
Definition isValidGSTIN (gstin : TallyValue) : bool :=
  match gstin with
  | VString s =>
      if negb (truthy gstin) || negb (bool_decide (String.length s = 15%nat)) then false
      else classMatches gstinRegex (Js.toUpperCase s)
  | _ => false
  end.

Definition isValidPAN (pan : string) : bool :=
  if String.eqb pan "" || negb (bool_decide (String.length pan = 10%nat)) then false
  else classMatches panRegex (Js.toUpperCase pan).

(** [issues.filter(i => i.severity === sev).length]. *)
Definition countSeverity (sev : Severity) (issues : list AuditIssue) : nat :=
  length (List.filter (λ i, bool_decide (severity i = sev)) issues).

(** *** The six checks *)

Definition mkIssue (i : string) (c : Category) (s : Severity) (t : string)
  (items : option (list TallyValue)) (fixable : bool) (fix_ : option FixAction)
  : AuditIssue :=
  {| id := i; category := c; severity := s; title := t;
     affectedItems := items; autoFixable := fixable; fixAction := fix_ |}.

(** The checks of [auditCompanyInfo] on the selected company. *)
Definition companyIssues (company : TallyCompany) : list AuditIssue :=
  (if String.eqb (gstNumber company) ""
   then [mkIssue "COMP_001" CompanyInfo Critical "GSTIN Not Configured" None false None]
   else if negb (isValidGSTIN (VString (gstNumber company)))
   then [mkIssue "COMP_002" CompanyInfo High "Invalid GSTIN Format" None false None]
   else []) ++
  (if String.eqb (panNumber company) ""
   then [mkIssue "COMP_003" CompanyInfo Critical "PAN Not Configured" None false None]
   else if negb (isValidPAN (panNumber company))
   then [mkIssue "COMP_004" CompanyInfo High "Invalid PAN Format" None false None]
   else []) ++
  (if String.eqb (tanNumber company) ""
   then [mkIssue "COMP_005" CompanyInfo High "TAN Not Configured" None false None]
   else []) ++
  (if String.eqb (state company) ""
   then [mkIssue "COMP_006" CompanyInfo High "State Not Configured" None false None]
   else []).

Definition auditCompanyInfo (conn : Connection) : list AuditIssue :=
  match getCompanyList conn with
  | Failure _ => []
  | Success data =>
      match List.find (λ c, bool_decide (Some (name c) = getCompanyName conn)) data with
      | None => []
      | Some company => companyIssues company
      end
  end.

Record RequiredLedger := {
  reqType : string;
  reqName : string;
  patterns : list string
}.

Definition requiredGSTLedgers : list RequiredLedger :=
  [ {| reqType := "OUTPUT_IGST"; reqName := "Output IGST"; patterns := GST_OUTPUT_IGST |};
    {| reqType := "OUTPUT_CGST"; reqName := "Output CGST"; patterns := GST_OUTPUT_CGST |};
    {| reqType := "OUTPUT_SGST"; reqName := "Output SGST"; patterns := GST_OUTPUT_SGST |};
    {| reqType := "INPUT_IGST"; reqName := "Input IGST"; patterns := GST_INPUT_IGST |};
    {| reqType := "INPUT_CGST"; reqName := "Input CGST"; patterns := GST_INPUT_CGST |};
    {| reqType := "INPUT_SGST"; reqName := "Input SGST"; patterns := GST_INPUT_SGST |} ].

(** [ledgers.filter(l => parent includes 'duties' || parent includes 'taxes')]. *)
Definition dutiesLedgersOf (ledgers : list Ledger) : list Ledger :=
  List.filter (λ l, strIncludes (parentLower l) "duties" ||
                    strIncludes (parentLower l) "taxes") ledgers.

(** [dutiesLedgers.find(l => required.patterns.some(p => name.includes(p)))]. *)
Definition findRequired (patterns_ : list string) (dutiesLedgers : list Ledger)
  : option Ledger :=
  List.find (λ l, matchesAny patterns_ (nameLower l)) dutiesLedgers.

Definition gstMissingIssue (required : RequiredLedger) : AuditIssue :=
  mkIssue ("GST_" +:+ reqType required +:+ "_MISSING") GST Critical
    (reqName required +:+ " Ledger Missing") None true
    (Some {| type := create_ledger;
             targetName := VString (reqName required);
             changes :=
               [ ("parent", CString "Duties & Taxes");
                 ("typeOfDuty", CString "GST");
                 ("gstDutyHead",
                  CString (if strIncludes (reqType required) "OUTPUT"
                           then "Output" else "Input")) ] |}).

(** The two naming checks on one ledger of [dutiesLedgers]. *)
Definition gstNamingIssues (ledger : Ledger) : list AuditIssue :=
  let name_ := nameLower ledger in
  (if strIncludes name_ "gst" && negb (strIncludes name_ "igst") &&
      negb (strIncludes name_ "cgst") && negb (strIncludes name_ "sgst") &&
      negb (strIncludes name_ "cess")
   then [mkIssue ("GST_AMBIGUOUS_" +:+ toStr (NAME ledger)) GST High
           "Ambiguous GST Ledger Name" (Some [NAME ledger]) false None]
   else []) ++
  (if (strIncludes name_ "igst" || strIncludes name_ "cgst" || strIncludes name_ "sgst") &&
      negb (strIncludes (parentLower ledger) "duties")
   then [mkIssue ("GST_WRONG_GROUP_" +:+ toStr (NAME ledger)) GST High
           "GST Ledger Under Wrong Group" (Some [NAME ledger]) true
           (Some {| type := regroup_ledger; targetName := NAME ledger;
                    changes := [("parent", CString "Duties & Taxes")] |})]
   else []).

(** A sales or purchase ledger without GST applicability. *)
Definition gstUnconfiguredIssue (prefix title_ : string) (ledger : Ledger)
  : list AuditIssue :=
  if negb (truthy (GSTAPPLICABLE ledger)) && negb (truthy (ISTAXABLE ledger))
  then [mkIssue (prefix +:+ toStr (NAME ledger)) GST Medium title_
          (Some [NAME ledger]) false None]
  else [].

Definition auditGSTConfiguration (response : TallyResponse (list Ledger))
  : list AuditIssue :=
  match response with
  | Failure _ => []
  | Success ledgers =>
      let dutiesLedgers := dutiesLedgersOf ledgers in
      let salesLedgers :=
        List.filter (λ l, strIncludes (parentLower l) "sales") ledgers in
      let purchaseLedgers :=
        List.filter (λ l, strIncludes (parentLower l) "purchase") ledgers in
      flat_map (λ required,
                  match findRequired (patterns required) dutiesLedgers with
                  | Some _ => []
                  | None => [gstMissingIssue required]
                  end) requiredGSTLedgers ++
      flat_map gstNamingIssues dutiesLedgers ++
      flat_map (gstUnconfiguredIssue "GST_SALES_"
                  "Sales Ledger Without GST Configuration") salesLedgers ++
      flat_map (gstUnconfiguredIssue "GST_PURCHASE_"
                  "Purchase Ledger Without GST Configuration") purchaseLedgers
  end.

Definition requiredTDSSections : list RequiredLedger :=
  [ {| reqType := "194C"; reqName := "TDS on Contractor (194C)"; patterns := TDS_194C |};
    {| reqType := "194J"; reqName := "TDS on Professional (194J)"; patterns := TDS_194J |};
    {| reqType := "194H"; reqName := "TDS on Commission (194H)"; patterns := TDS_194H |};
    {| reqType := "194I"; reqName := "TDS on Rent (194I)"; patterns := TDS_194I |};
    {| reqType := "194A"; reqName := "TDS on Interest (194A)"; patterns := TDS_194A |} ].

Definition tdsMissingIssue (required : RequiredLedger) : AuditIssue :=
  mkIssue ("TDS_" +:+ reqType required +:+ "_MISSING") TDS High
    (reqName required +:+ " Ledger Missing") None true
    (Some {| type := create_ledger;
             targetName := VString (reqName required);
             changes :=
               [ ("parent", CString "Duties & Taxes");
                 ("typeOfDuty", CString "TDS");
                 ("tdsSection", CString (reqType required)) ] |}).

(** The loop over [Object.entries(TDS_APPLICABLE_EXPENSES)] for one expense
    ledger: it stops ([break]) at the first section one of whose keywords
    occurs in the name. *)
Definition tdsExpenseIssues (ledger : Ledger) : list AuditIssue :=
  let name_ := nameLower ledger in
  match List.find (λ entry, existsb (strIncludes name_) entry.2)
                  TDS_APPLICABLE_EXPENSES with
  | None => []
  | Some (section, _) =>
      if negb (truthy (ISTDSAPPLICABLE ledger)) ||
         bool_decide (ISTDSAPPLICABLE ledger = VString "No")
      then [mkIssue ("TDS_EXPENSE_" +:+ toStr (NAME ledger) +:+ "_" +:+ section)
              TDS High "TDS Not Enabled on Expense Ledger"
              (Some [NAME ledger]) true
              (Some {| type := update_tds_details; targetName := NAME ledger;
                       changes := [ ("isTDSApplicable", CBool true);
                                    ("tdsSection", CString section) ] |})]
      else []
  end.

(** An issue raised once for a non-empty list of offending names, of which
    the first [shown] are kept in [affectedItems]. *)
Definition listIssue (i : string) (c : Category) (s : Severity) (t : string)
  (shown : nat) (names : list TallyValue) : list AuditIssue :=
  if bool_decide (0 < length names)%nat
  then [mkIssue i c s t (Some (take shown names)) false None]
  else [].

Definition auditTDSConfiguration (response : TallyResponse (list Ledger))
  : list AuditIssue :=
  match response with
  | Failure _ => []
  | Success ledgers =>
      let dutiesLedgers := dutiesLedgersOf ledgers in
      let expenseLedgers :=
        List.filter (λ l, strIncludes (parentLower l) "expense") ledgers in
      let creditorLedgers :=
        List.filter (λ l, strIncludes (parentLower l) "sundry creditor") ledgers in
      let significant :=
        List.filter (λ l, Qgtb (Qabs (CLOSINGBALANCE l)) 30000) creditorLedgers in
      let creditorsWithoutPAN :=
        NAME <$> List.filter (λ l, negb (truthy (INCOMETAXNUMBER l))) significant in
      let creditorsWithoutTDSType :=
        NAME <$> List.filter (λ l, negb (truthy (TDSDEDUCTEETYPE l))) significant in
      flat_map (λ required,
                  match findRequired (patterns required) dutiesLedgers with
                  | Some _ => []
                  | None => [tdsMissingIssue required]
                  end) requiredTDSSections ++
      flat_map tdsExpenseIssues expenseLedgers ++
      listIssue "TDS_CREDITORS_NO_PAN" TDS High "Creditors Without PAN"
        10 creditorsWithoutPAN ++
      listIssue "TDS_CREDITORS_NO_TYPE" TDS Medium
        "Creditors Without TDS Deductee Type" 10 creditorsWithoutTDSType
  end.

Record MisclassificationRule := {
  keywords : list string;
  shouldBeUnder : string;
  currentlyUnder : list string
}.

Definition misclassificationRules : list MisclassificationRule :=
  [ {| keywords := ["rent received"; "rent income"];
       shouldBeUnder := "Indirect Incomes";
       currentlyUnder := ["direct incomes"; "sales"] |};
    {| keywords := ["interest received"; "interest income"; "bank interest"];
       shouldBeUnder := "Indirect Incomes";
       currentlyUnder := ["direct incomes"; "sales"] |};
    {| keywords := ["discount received"];
       shouldBeUnder := "Indirect Incomes";
       currentlyUnder := ["direct incomes"; "sales"] |};
    {| keywords := ["salary"; "wages"; "staff welfare"];
       shouldBeUnder := "Indirect Expenses";
       currentlyUnder := ["direct expenses"] |};
    {| keywords := ["depreciation"];
       shouldBeUnder := "Indirect Expenses";
       currentlyUnder := ["direct expenses"] |};
    {| keywords := ["bank charges"; "bank commission"];
       shouldBeUnder := "Indirect Expenses";
       currentlyUnder := ["direct expenses"] |};
    {| keywords := ["electricity"; "power"; "telephone"; "mobile"];
       shouldBeUnder := "Indirect Expenses";
       currentlyUnder := ["direct expenses"] |};
    {| keywords := ["audit fee"; "professional fee"; "legal fee"];
       shouldBeUnder := "Indirect Expenses";
       currentlyUnder := ["direct expenses"] |};
    {| keywords := ["fixed deposit"; "fd"; "term deposit"];
       shouldBeUnder := "Investments";
       currentlyUnder := ["bank accounts"; "current assets"] |};
    {| keywords := ["security deposit"; "earnest money"; "emd"];
       shouldBeUnder := "Deposits (Asset)";
       currentlyUnder := ["current assets"; "loans"] |} ].

(** A ledger under Suspense with a balance. *)
Definition suspenseIssues (ledger : Ledger) : list AuditIssue :=
  if negb (Qeqb (CLOSINGBALANCE ledger) 0)
  then [mkIssue ("LEDGER_SUSPENSE_" +:+ toStr (NAME ledger)) LedgerClassification
          Critical "Ledger Under Suspense with Balance"
          (Some [NAME ledger]) false None]
  else [].

(** The inner loop over [misclassificationRules] for one ledger. *)
Definition misclassIssues (ledger : Ledger) : list AuditIssue :=
  flat_map (λ rule,
              if existsb (strIncludes (nameLower ledger)) (keywords rule) &&
                 existsb (strIncludes (parentLower ledger)) (currentlyUnder rule)
              then [mkIssue ("LEDGER_MISCLASS_" +:+ toStr (NAME ledger))
                      LedgerClassification Medium "Potential Misclassification"
                      (Some [NAME ledger]) true
                      (Some {| type := regroup_ledger; targetName := NAME ledger;
                               changes :=
                                 [("parent", CString (shouldBeUnder rule))] |})]
              else [])
           misclassificationRules.

(** An element of [ledgerNames]. *)
Record LedgerName := {
  lname : TallyValue;
  normalized : string
}.

Definition ledgerNamesOf (ledgers : list Ledger) : list LedgerName :=
  (λ l, {| lname := orEmpty (NAME l);
           normalized :=
             Js.stripNonAlnum (Js.toLowerCase (extractString (NAME l))) |})
    <$> ledgers.

(** [ledgerNames.filter((l, j) => j !== i && isSimilarName(at_i, l.normalized))]. *)
Definition similarTo (ledgerNames : list LedgerName) (i : nat) (at_i : string)
  : list LedgerName :=
  snd <$> List.filter
            (λ jl, negb (jl.1 =? i)%nat &&
                   isSimilarName (Js.units at_i) (Js.units (normalized jl.2)))
            (imap (λ j l, (j, l)) ledgerNames).

(** One turn of the loop that collects [duplicateGroups], with the set
    [checked]. *)
Definition duplicateStep (ledgerNames : list LedgerName)
  (acc : list (list TallyValue) * gset string) (i : nat)
  : list (list TallyValue) * gset string :=
  match ledgerNames !! i with
  | None => acc
  | Some li =>
      if bool_decide (normalized li ∈ acc.2) then acc
      else
        let similar := similarTo ledgerNames i (normalized li) in
        if bool_decide (0 < length similar)%nat
        then (acc.1 ++ [lname li :: (lname <$> similar)],
              acc.2 ∪ {[normalized li]} ∪ list_to_set (normalized <$> similar))
        else acc
  end.

Definition duplicateGroupsOf (ledgers : list Ledger) : list (list TallyValue) :=
  let ledgerNames := ledgerNamesOf ledgers in
  (forRange 0 (length ledgerNames) (duplicateStep ledgerNames) ([], ∅)).1.

Definition duplicateIssue (group : list TallyValue) : AuditIssue :=
  mkIssue ("LEDGER_DUPLICATE_" +:+ toStr (default VUndefined (head group)))
    LedgerClassification Medium "Potential Duplicate Ledgers"
    (Some group) false None.

Definition auditLedgerClassification (response : TallyResponse (list Ledger))
  : list AuditIssue :=
  match response with
  | Failure _ => []
  | Success ledgers =>
      let suspenseLedgers :=
        List.filter (λ l, strIncludes (parentLower l) "suspense") ledgers in
      flat_map suspenseIssues suspenseLedgers ++
      flat_map misclassIssues ledgers ++
      (duplicateIssue <$> duplicateGroupsOf ledgers)
  end.

Definition auditPartyMasters (response : TallyResponse (list Ledger))
  : list AuditIssue :=
  match response with
  | Failure _ => []
  | Success ledgers =>
      let withBalance :=
        List.filter (λ l, Qgtb (Qabs (CLOSINGBALANCE l)) 0) in
      let debtors :=
        withBalance
          (List.filter (λ l, strIncludes (parentLower l) "sundry debtor") ledgers) in
      let creditors :=
        withBalance
          (List.filter (λ l, strIncludes (parentLower l) "sundry creditor") ledgers) in
      let noGSTIN l :=
        negb (truthy (PARTYGSTIN l)) && negb (truthy (GSTREGISTRATIONTYPE l)) in
      let debtorsWithoutGSTIN := NAME <$> List.filter noGSTIN debtors in
      let debtorsWithoutState :=
        NAME <$> List.filter (λ l, negb (truthy (LEDGERSTATENAME l))) debtors in
      let creditorsWithoutGSTIN := NAME <$> List.filter noGSTIN creditors in
      let creditorsWithInvalidGSTIN :=
        (λ l, VString (toStr (NAME l) +:+ " (" +:+ toStr (PARTYGSTIN l) +:+ ")"))
          <$> List.filter (λ l, negb (noGSTIN l) && truthy (PARTYGSTIN l) &&
                                negb (isValidGSTIN (PARTYGSTIN l))) creditors in
      listIssue "PARTY_DEBTORS_NO_GSTIN" PartyMaster High
        "Debtors Without GSTIN/Registration Type" 15 debtorsWithoutGSTIN ++
      listIssue "PARTY_DEBTORS_NO_STATE" PartyMaster Medium
        "Debtors Without State" 15 debtorsWithoutState ++
      listIssue "PARTY_CREDITORS_NO_GSTIN" PartyMaster High
        "Creditors Without GSTIN/Registration Type" 15 creditorsWithoutGSTIN ++
      listIssue "PARTY_CREDITORS_INVALID_GSTIN" PartyMaster Critical
        "Creditors With Invalid GSTIN" 15 creditorsWithInvalidGSTIN
  end.

Definition auditStockItems (response : TallyResponse (list StockItem))
  : list AuditIssue :=
  match response with
  | Failure _ => []
  | Success items =>
      let itemsWithoutHSN :=
        itemNAME <$> List.filter (λ i, negb (truthy (HSNCODE i))) items in
      let itemsWithoutGSTRate :=
        itemNAME <$> List.filter
                       (λ i, negb (truthy (GSTRATE i)) &&
                             negb (bool_decide (GSTRATE i = VNumber 0))) items in
      let itemsWithoutUnit :=
        itemNAME <$> List.filter (λ i, negb (truthy (BASEUNITS i))) items in
      listIssue "STOCK_NO_HSN" StockItemCategory High
        "Stock Items Without HSN Code" 20 itemsWithoutHSN ++
      listIssue "STOCK_NO_GST_RATE" StockItemCategory High
        "Stock Items Without GST Rate" 20 itemsWithoutGSTRate ++
      listIssue "STOCK_NO_UNIT" StockItemCategory Medium
        "Stock Items Without Unit of Measure" 20 itemsWithoutUnit
  end.

(** *** Scores and the report *)

Definition calculateCategoryScore (issues_ : list AuditIssue) (categoryName : string)
  : CategoryAudit :=
  let critical := countSeverity Critical issues_ in
  let high := countSeverity High issues_ in
  let medium := countSeverity Medium issues_ in
  let low := countSeverity Low issues_ in
  let score0 := (100 - Z.of_nat critical * 20 - Z.of_nat high * 10
                 - Z.of_nat medium * 5 - Z.of_nat low * 2)%Z in
  let score_ := Z.max 0 score0 in
  {| score := score_;
     status := if (80 <=? score_)%Z then Good
               else if (50 <=? score_)%Z then NeedsAttention
               else StatusCritical;
     issueCount := length issues_;
     summary :=
       if bool_decide (length issues_ = 0%nat)
       then categoryName +:+ " configuration looks good!"
       else "Found " +:+ natToString (length issues_) +:+ " issue(s): " +:+
            natToString critical +:+ " critical, " +:+
            natToString high +:+ " high, " +:+
            natToString medium +:+ " medium, " +:+
            natToString low +:+ " low" |}.

(** The overall score of [runFullAudit]. *)
Definition overallScoreOf (issues_ : list AuditIssue) : Z :=
  let score0 := 100%Z in
  let score1 := (score0 - Z.of_nat (countSeverity Critical issues_) * 15)%Z in
  let score2 := (score1 - Z.of_nat (countSeverity High issues_) * 8)%Z in
  let score3 := (score2 - Z.of_nat (countSeverity Medium issues_) * 3)%Z in
  let score4 := (score3 - Z.of_nat (countSeverity Low issues_) * 1)%Z in
  Z.max 0 score4.

Definition runFullAudit (conn : Connection) : TallyResponse AuditReport :=
  match getCompanyName conn with
  | None | Some "" =>
      Failure "No company selected. Please select a company first."
  | Some companyName_ =>
      let companyIssues_ := auditCompanyInfo conn in
      let gstIssues := auditGSTConfiguration (gstLedgers conn) in
      let tdsIssues := auditTDSConfiguration (tdsLedgers conn) in
      let ledgerIssues := auditLedgerClassification (classificationLedgers conn) in
      let partyIssues := auditPartyMasters (partyLedgers conn) in
      let stockIssues := auditStockItems (stockItemsReply conn) in
      let issues_ := companyIssues_ ++ gstIssues ++ tdsIssues ++ ledgerIssues ++
                     partyIssues ++ stockIssues in
      Success
        {| companyName := companyName_;
           overallScore := overallScoreOf issues_;
           totalIssues := length issues_;
           criticalIssues := countSeverity Critical issues_;
           highIssues := countSeverity High issues_;
           mediumIssues := countSeverity Medium issues_;
           lowIssues := countSeverity Low issues_;
           categories :=
             {| gst := calculateCategoryScore gstIssues "GST";
                tds := calculateCategoryScore tdsIssues "TDS";
                ledgerClassification :=
                  calculateCategoryScore ledgerIssues "Ledger Classification";
                partyMaster := calculateCategoryScore partyIssues "Party Master";
                stockItems := calculateCategoryScore stockIssues "Stock Items";
                companyInfo := calculateCategoryScore companyIssues_ "Company Info" |};
           issues := issues_ |}
  end.

(** *** Recommendations *)

(** The texts are kept as the source has them; a character outside ASCII
    is the sequence of its UTF-8 bytes. *)
Definition generateRecommendations (issues_ : list AuditIssue) : list string :=
  let criticalIssues_ := List.filter (λ i, bool_decide (severity i = Critical)) issues_ in
  let gstIssues := List.filter (λ i, bool_decide (category i = GST)) issues_ in
  let tdsIssues := List.filter (λ i, bool_decide (category i = TDS)) issues_ in
  let partyIssues := List.filter (λ i, bool_decide (category i = PartyMaster)) issues_ in
  let stockIssues :=
    List.filter (λ i, bool_decide (category i = StockItemCategory)) issues_ in
  let autoFixable_ := List.filter autoFixable issues_ in
  let recommendations :=
    (if bool_decide (0 < length criticalIssues_)%nat
     then ["⚠️ Address " +:+ natToString (length criticalIssues_) +:+
           " CRITICAL issues immediately before proceeding with compliance work."]
     else []) ++
    (if bool_decide (0 < length gstIssues)%nat
     then ["📋 Review and configure all GST ledgers with proper tax type (IGST/CGST/SGST) under Duties & Taxes group."]
     else []) ++
    (if bool_decide (0 < length tdsIssues)%nat
     then ["📋 Enable TDS on expense ledgers where applicable and create section-wise TDS payable ledgers."]
     else []) ++
    (if bool_decide (0 < length partyIssues)%nat
     then ["📋 Update party masters with GSTIN, PAN, and State information for accurate compliance reporting."]
     else []) ++
    (if bool_decide (0 < length stockIssues)%nat
     then ["📋 Configure HSN codes and GST rates for all stock items for GSTR-1 HSN summary."]
     else []) ++
    (if bool_decide (0 < length autoFixable_)%nat
     then ["🔧 " +:+ natToString (length autoFixable_) +:+
           " issues can be auto-fixed. Use the fix tools to apply corrections."]
     else []) in
  if bool_decide (length recommendations = 0%nat)
  then ["✅ Great! Your Tally configuration looks good for compliance reporting."]
  else recommendations.

(** *** Queries on the report *)

(** The string a category is in the source. *)
Definition categoryString (c : Category) : string :=
  match c with
  | GST => "GST"
  | TDS => "TDS"
  | LedgerClassification => "Ledger Classification"
  | PartyMaster => "Party Master"
  | StockItemCategory => "Stock Item"
  | VoucherType => "Voucher Type"
  | CompanyInfo => "Company Info"
  end.

Definition getIssuesByCategory (conn : Connection) (category_ : string)
  : TallyResponse (list AuditIssue) :=
  match runFullAudit conn with
  | Failure error => Failure error
  | Success data =>
      Success (List.filter
                 (λ i, String.eqb (Js.toLowerCase (categoryString (category i)))
                                  (Js.toLowerCase category_))
                 (issues data))
  end.

Definition getAutoFixableIssues (conn : Connection) : TallyResponse (list AuditIssue) :=
  match runFullAudit conn with
  | Failure error => Failure error
  | Success data => Success (List.filter autoFixable (issues data))
  end.

(** *** Fixes *)

(** The double quote. *)
Definition dquote : string := String (ascii_of_nat 34) EmptyString.

(** [action.changes.<key>]. *)
Definition changeOf (key : string) (changes_ : list (string * ChangeValue))
  : option ChangeValue :=
  snd <$> List.find (λ kv, String.eqb kv.1 key) changes_.

(** The request a fix sends: the private method that builds the XML and
    passes it to [connection.executeRequest], with its arguments. *)
Inductive FixRequest :=
| createLedger (name_ : TallyValue) (details : list (string * ChangeValue))
    (companyName_ : option string)
| regroupLedger (ledgerName : TallyValue) (newParent : option ChangeValue)
    (companyName_ : option string)
| renameLedger (oldName : TallyValue) (newName : option ChangeValue)
    (companyName_ : option string)
| updateLedgerGST (ledgerName : TallyValue) (gstDetails : list (string * ChangeValue))
    (companyName_ : option string)
| updateLedgerTDS (ledgerName : TallyValue) (tdsDetails : list (string * ChangeValue))
    (companyName_ : option string).

(** The [type] of a fix action as a string. *)
Definition fixActionTypeString (t : FixActionType) : string :=
  match t with
  | rename_ledger => "rename_ledger"
  | regroup_ledger => "regroup_ledger"
  | update_gst_details => "update_gst_details"
  | update_tds_details => "update_tds_details"
  | create_ledger => "create_ledger"
  | update_party => "update_party"
  | update_stock_item => "update_stock_item"
  | update_company => "update_company"
  end.

(** [executeFixAction]: the request it sends, or the message of the error
    it throws. *)
Definition executeFixAction (companyName_ : option string) (action_ : FixAction)
  : FixRequest + string :=
  match type action_ with
  | create_ledger =>
      inl (createLedger (targetName action_) (changes action_) companyName_)
  | regroup_ledger =>
      inl (regroupLedger (targetName action_) (changeOf "parent" (changes action_))
             companyName_)
  | rename_ledger =>
      inl (renameLedger (targetName action_) (changeOf "newName" (changes action_))
             companyName_)
  | update_gst_details =>
      inl (updateLedgerGST (targetName action_) (changes action_) companyName_)
  | update_tds_details =>
      inl (updateLedgerTDS (targetName action_) (changes action_) companyName_)
  | t => inr ("Unknown fix action type: " +:+ fixActionTypeString t)
  end.

(** The [preview] of [previewFix]. *)
Record Preview := {
  action : FixActionType;
  target : TallyValue;
  previewChanges : list (string * ChangeValue);
  warning : string
}.

Record FixPreview := {
  issue : AuditIssue;
  preview : Preview
}.

Definition previewFix (conn : Connection) (issueId : string) : TallyResponse FixPreview :=
  match runFullAudit conn with
  | Failure error => Failure error
  | Success data =>
      match List.find (λ i, String.eqb (id i) issueId) (issues data) with
      | None => Failure ("Issue with ID " +:+ dquote +:+ issueId +:+ dquote +:+ " not found")
      | Some issue_ =>
          match fixAction issue_ with
          | Some fixAction_ =>
              if negb (autoFixable issue_)
              then Failure ("Issue " +:+ dquote +:+ issueId +:+ dquote +:+
                            " is not auto-fixable")
              else Success
                     {| issue := issue_;
                        preview :=
                          {| action := type fixAction_;
                             target := targetName fixAction_;
                             previewChanges := changes fixAction_;
                             warning :=
                               "This is a preview. No changes have been made yet." |} |}
          | None =>
              Failure ("Issue " +:+ dquote +:+ issueId +:+ dquote +:+
                       " is not auto-fixable")
          end
      end
  end.

(** The [data] of a successful [applyFix]; [result] is what Tally answered
    to the request of the fix. *)
Record FixResult (R : Type) := {
  issueId_ : string;
  appliedFix : FixAction;
  result : R;
  message : string
}.
Arguments issueId_ {R} f.
Arguments appliedFix {R} f.
Arguments result {R} f.
Arguments message {R} f.

(** [applyFix], given the replies of the audit it runs first and the reply
    [tally] gives to the request of the fix. *)
Definition applyFix {R} (conn : Connection) (tally : FixRequest → R) (issueId : string)
  : TallyResponse (FixResult R) :=
  match runFullAudit conn with
  | Failure error => Failure error
  | Success data =>
      match List.find (λ i, String.eqb (id i) issueId) (issues data) with
      | None => Failure ("Issue with ID " +:+ dquote +:+ issueId +:+ dquote +:+ " not found")
      | Some issue_ =>
          match fixAction issue_ with
          | Some fixAction_ =>
              if negb (autoFixable issue_)
              then Failure ("Issue " +:+ dquote +:+ issueId +:+ dquote +:+
                            " is not auto-fixable")
              else match executeFixAction (getCompanyName conn) fixAction_ with
                   | inl request =>
                       Success
                         {| issueId_ := issueId;
                            appliedFix := fixAction_;
                            result := tally request;
                            message :=
                              "Successfully applied fix for: " +:+ title issue_ |}
                   | inr errorMessage =>
                       Failure ("Failed to apply fix: " +:+ errorMessage)
                   end
          | None =>
              Failure ("Issue " +:+ dquote +:+ issueId +:+ dquote +:+
                       " is not auto-fixable")
          end
      end
  end.

(** An element of [errors] of [applyMultipleFixes]. *)
Record FixError := {
  failedIssueId : string;
  error : string
}.

(** What [applyMultipleFixes] returns: [success] beside [data], whose
    fields follow. *)
Record MultipleFixes (R : Type) := {
  success : bool;
  successCount : nat;
  errorCount : nat;
  results : list (FixResult R);
  errors : list FixError
}.
Arguments success {R} m.
Arguments successCount {R} m.
Arguments errorCount {R} m.
Arguments results {R} m.
Arguments errors {R} m.

(** One turn of [for (const issueId of issueIds)]; [world k] is what the
    connection answers during the [k]-th call of [applyFix]. *)
Definition applyNext {R} (world : nat → Connection * (FixRequest → R))
  (acc : list (FixResult R) * list FixError) (k : nat) (issueId : string)
  : list (FixResult R) * list FixError :=
  match applyFix (world k).1 (world k).2 issueId with
  | Success data => (acc.1 ++ [data], acc.2)
  | Failure error_ => (acc.1, acc.2 ++ [{| failedIssueId := issueId; error := error_ |}])
  end.

Definition applyMultipleFixes {R} (world : nat → Connection * (FixRequest → R))
  (issueIds : list string) : MultipleFixes R :=
  let '(results_, errors_) :=
    foldl (λ acc ki, applyNext world acc ki.1 ki.2) ([], [])
          (imap (λ k issueId, (k, issueId)) issueIds) in
  {| success := bool_decide (length errors_ = 0%nat);
     successCount := length results_;
     errorCount := length errors_;
     results := results_;
     errors := errors_ |}.

End ConfigAudit.
(** ** TallyConnection: dates *)

Module TallyConnection.

(** [extractStringValue] on the values of [ConfigAudit.TallyValue]; the
    objects modelled carry ['#text'] or none of ['#text'], ['_'] and
    ['value']. *)
Definition extractStringValue (value : ConfigAudit.TallyValue) : string :=
  if negb (ConfigAudit.truthy value) then ""
  else match value with
       | ConfigAudit.VString s => s
       | ConfigAudit.VNumber n => intToString n
       | ConfigAudit.VText text => text
       | ConfigAudit.VUndefined | ConfigAudit.VObject => ""
       end.

(** [parseDate]: the Tally form YYYYMMDD becomes YYYY-MM-DD, any other
    text is returned as it is.  The test is [/^\d{8}$/]. *)
Definition parseDate (value : ConfigAudit.TallyValue) : string :=
  if negb (ConfigAudit.truthy value) then ""
  else
    let str := extractStringValue value in
    if String.eqb str "" then ""
    else if bool_decide (String.length str = 8%nat) &&
            ConfigAudit.classMatches (replicate 8 Js.isDigit) str
    then String.substring 0 4 str +:+ "-" +:+ String.substring 4 2 str +:+ "-" +:+
         String.substring 6 2 str
    else str.

(** The fields of a [Date] that [formatTallyDate] reads, in local time. *)
Record LocalDate := {
  getFullYear : Z;
  getMonth : Z;
  getDate : Z
}.

(** [String(n).padStart(2, '0')]. *)
Definition padStart2 (n : Z) : string :=
  Js.ofUnits (Js.padZeros 2 (Js.units (intToString n))).

(** [formatTallyDate] of a [Date]; an invalid date, [None], has NaN for
    each field. *)
Definition formatTallyDate (d : option LocalDate) : string :=
  match d with
  | Some d =>
      let year := getFullYear d in
      let month := padStart2 (getMonth d + 1) in
      let day := padStart2 (getDate d) in
      intToString year +:+ month +:+ day
  | None => "NaN" +:+ "NaN" +:+ "NaN"
  end.

End TallyConnection.
(** ** BankReconciliationTools: [autoReconcile] *)

Module BankReconciliation.

(** [BankTransaction], with the fields the matcher reads; [date] is
    [new Date(txn.date)] and [chequeNumber] is [''] when there is none. *)
Record BankTransaction := {
  date : Js.Date;
  chequeNumber : string;
  debit : Q;
  credit : Q
}.

(** [BankStatementEntry], with the fields the matcher reads. *)
Record BankStatementEntry := {
  stmtDate : Js.Date;
  stmtChequeNumber : option string;
  stmtDebit : Q;
  stmtCredit : Q
}.

(** ['Exact'], ['Amount+Date'] and ['Amount (Date Mismatch)']. *)
Inductive MatchType := Exact | AmountDate | AmountDateMismatch.

#[global] Instance MatchType_eq_dec : EqDecision MatchType.
Proof. solve_decision. Defined.

(** An element of [reconciliation.matched]. *)
Record Matched := {
  bookTransaction : Obj BankTransaction;
  statementEntry : BankStatementEntry;
  matchType : MatchType;
  daysDifference : option Q
}.

Record Summary := {
  totalMatched : nat;
  totalUnmatchedBooks : nat;
  totalUnmatchedStatement : nat;
  matchPercentage : Q
}.

Record Reconciliation := {
  matched : list Matched;
  unmatchedInBooks : list (Obj BankTransaction);
  unmatchedInStatement : list BankStatementEntry;
  amountMismatch : list Matched;
  dateMismatch : list Matched;
  summary : Summary
}.

(** The variables the matching loop updates: the result lists and counters,
    the working copy [bookTransactions] and the lookup [bookMap]. *)
Record Matching := {
  mMatched : list Matched;
  mUnmatchedInStatement : list BankStatementEntry;
  mTotalMatched : nat;
  mTotalUnmatchedStatement : nat;
  bookTransactions : list (Obj BankTransaction);
  bookMap : gmap string (list (Obj BankTransaction))
}.

Definition createMatchKey (txn : BankTransaction) : string :=
  let amount := numOr (debit txn) (credit txn) in
  chequeNumber txn +:+ "_" +:+ Js.toFixed2 amount.

(** [if (!bookMap.has(key)) bookMap.set(key, []); bookMap.get(key).push(txn)]. *)
Definition mapPush (m : gmap string (list (Obj BankTransaction)))
  (txn : Obj BankTransaction) : gmap string (list (Obj BankTransaction)) :=
  let key := createMatchKey (val txn) in
  let m1 := match m !! key with
            | None => <[key := []]> m
            | Some _ => m
            end in
  match m1 !! key with
  | Some candidates => <[key := candidates ++ [txn]]> m1
  | None => m1
  end.

(** [bookTransactions.indexOf(bookTxn)], by identity. *)
Definition indexOf (l : list (Obj BankTransaction)) (bookTxn : Obj BankTransaction)
  : option nat :=
  fst <$> list_find (λ o, addr o = addr bookTxn) l.

(** The exact match by cheque number and amount.  The flag is [matched]. *)
Definition exactPhase (entry : BankStatementEntry) (amount : Q) (st : Matching)
  : Matching * bool :=
  match stmtChequeNumber entry with
  | None | Some "" => (st, false)
  | Some cheque =>
      let key := cheque +:+ "_" +:+ Js.toFixed2 amount in
      match bookMap st !! key with
      | Some (bookTxn :: rest) =>
          ({| mMatched := mMatched st ++
                [{| bookTransaction := bookTxn; statementEntry := entry;
                    matchType := Exact; daysDifference := None |}];
              mUnmatchedInStatement := mUnmatchedInStatement st;
              mTotalMatched := mTotalMatched st + 1;
              mTotalUnmatchedStatement := mTotalUnmatchedStatement st;
              bookTransactions :=
                match indexOf (bookTransactions st) bookTxn with
                | Some idx => delete idx (bookTransactions st)
                | None => bookTransactions st
                end;
              bookMap := <[key := rest]> (bookMap st) |}, true)
      | Some [] | None => (st, false)
      end
  end.

Definition dateTolerance : Q := 7.

(** [Math.abs((entryDate.getTime() - bookDate.getTime()) / msPerDay)], in
    lowest terms; [None] when a date is invalid. *)
Definition daysDiffOf (entryDate bookDate : Js.Date) : option Q :=
  match entryDate, bookDate with
  | Some e, Some b =>
      Some (Qred (Qabs (inject_Z (e - b) / inject_Z Js.msPerDay)))
  | _, _ => None
  end.

(** The two tests of the approximate match on one book transaction; the
    result is [daysDiff] when both pass. *)
Definition fuzzyCandidate (amount : Q) (entryDate : Js.Date)
  (bookTxn : BankTransaction) : option Q :=
  let bookAmount := numOr (debit bookTxn) (credit bookTxn) in
  if Qltb (Qabs (amount - bookAmount)) 1 then
    match daysDiffOf entryDate (date bookTxn) with
    | Some daysDiff => if Qleb daysDiff dateTolerance then Some daysDiff else None
    | None => None
    end
  else None.

(** The scan [for (let i = 0; i < bookTransactions.length; i++)] up to its
    [break]: [l] is what remains to scan from index [i]. *)
Fixpoint fuzzyScan (amount : Q) (entryDate : Js.Date)
  (l : list (Obj BankTransaction)) (i : nat)
  : option (nat * Obj BankTransaction * Q) :=
  match l with
  | [] => None
  | bookTxn :: rest =>
      match fuzzyCandidate amount entryDate (val bookTxn) with
      | Some daysDiff => Some (i, bookTxn, daysDiff)
      | None => fuzzyScan amount entryDate rest (S i)
      end
  end.

(** The match by amount and approximate date. *)
Definition fuzzyPhase (entry : BankStatementEntry) (amount : Q) (st : Matching)
  : Matching * bool :=
  match fuzzyScan amount (stmtDate entry) (bookTransactions st) 0 with
  | Some (i, bookTxn, daysDiff) =>
      ({| mMatched := mMatched st ++
            [{| bookTransaction := bookTxn; statementEntry := entry;
                matchType := if Qeqb daysDiff 0 then AmountDate
                             else AmountDateMismatch;
                daysDifference := Some daysDiff |}];
          mUnmatchedInStatement := mUnmatchedInStatement st;
          mTotalMatched := mTotalMatched st + 1;
          mTotalUnmatchedStatement := mTotalUnmatchedStatement st;
          bookTransactions := delete i (bookTransactions st);
          bookMap := bookMap st |}, true)
  | None => (st, false)
  end.

Definition markUnmatched (entry : BankStatementEntry) (st : Matching) : Matching :=
  {| mMatched := mMatched st;
     mUnmatchedInStatement := mUnmatchedInStatement st ++ [entry];
     mTotalMatched := mTotalMatched st;
     mTotalUnmatchedStatement := mTotalUnmatchedStatement st + 1;
     bookTransactions := bookTransactions st;
     bookMap := bookMap st |}.

(** The body of [for (const entry of statementEntries)]. *)
Definition reconcileEntry (st : Matching) (entry : BankStatementEntry) : Matching :=
  let amount := numOr (stmtDebit entry) (stmtCredit entry) in
  let '(st1, matched1) := exactPhase entry amount st in
  let '(st2, matched2) :=
    if negb matched1 then fuzzyPhase entry amount st1 else (st1, matched1) in
  if negb matched2 then markUnmatched entry st2 else st2.

Definition initialMatching (books : list (Obj BankTransaction)) : Matching :=
  {| mMatched := [];
     mUnmatchedInStatement := [];
     mTotalMatched := 0;
     mTotalUnmatchedStatement := 0;
     bookTransactions := books;
     bookMap := foldl mapPush ∅ books |}.

Definition finish (st : Matching) : Reconciliation :=
  let totalUnmatchedBooks_ := length (bookTransactions st) in
  let totalEntries :=
    (mTotalMatched st + totalUnmatchedBooks_ + mTotalUnmatchedStatement st)%nat in
  {| matched := mMatched st;
     unmatchedInBooks := bookTransactions st;
     unmatchedInStatement := mUnmatchedInStatement st;
     amountMismatch := [];
     dateMismatch := [];
     summary :=
       {| totalMatched := mTotalMatched st;
          totalUnmatchedBooks := totalUnmatchedBooks_;
          totalUnmatchedStatement := mTotalUnmatchedStatement st;
          matchPercentage :=
            if bool_decide (0 < totalEntries)%nat
            then Qred (inject_Z (Z.of_nat (mTotalMatched st))
                       / inject_Z (Z.of_nat totalEntries) * 100)
            else 0 |} |}.

(** [autoReconcile], given what [getBankBook] answered. *)
Definition autoReconcile (bankBookResult : TallyResponse (list BankTransaction))
  (bankStatement : list BankStatementEntry) : TallyResponse Reconciliation :=
  match bankBookResult with
  | Failure error => Failure error
  | Success data =>
      Success (finish (foldl reconcileEntry (initialMatching (allocate data))
                             bankStatement))
  end.

End BankReconciliation.

(** ** BankReconciliationTools: the bank book and the statements made of it *)

Module BankBook.

Local Open Scope Q_scope.

(** The class has the helper [extractString] of [ConfigAuditTools]. *)
Definition extractString : ConfigAudit.TallyValue → string := ConfigAudit.extractString.

(** [a || b] on fields. *)
Definition valueOr (a b : ConfigAudit.TallyValue) : ConfigAudit.TallyValue :=
  if ConfigAudit.truthy a then a else b.

(** The first of the bank allocations of a ledger entry. *)
Record Allocation := {
  INSTRUMENTNUMBER : ConfigAudit.TallyValue;
  TRANSACTIONNUMBER : ConfigAudit.TallyValue;
  INSTRUMENTDATE : ConfigAudit.TallyValue;
  BANKDATE : ConfigAudit.TallyValue
}.

(** An element of [extractLedgerEntries(voucher)].  [AMOUNT] is the number
    [connection.parseAmount] makes of the field; [allocation] is
    [bankAllocations[0]] or [bankAllocations] itself, [None] when there is
    no allocation object. *)
Record LedgerEntry := {
  LEDGERNAME : ConfigAudit.TallyValue;
  AMOUNT : Q;
  CHEQUENUMBER : ConfigAudit.TallyValue;
  allocation : option Allocation
}.

(** An element of [extractVouchers(response.data)]. *)
Record Voucher := {
  DATE : ConfigAudit.TallyValue;
  VOUCHERNUMBER : ConfigAudit.TallyValue;
  NARRATION : ConfigAudit.TallyValue;
  ledgerEntries : list LedgerEntry
}.

Inductive Status := Cleared | Uncleared | Reconciled.

Record BankTransaction := {
  date : string;
  voucherNumber : ConfigAudit.TallyValue;
  chequeNumber : ConfigAudit.TallyValue;
  instrumentDate : string;
  narration : ConfigAudit.TallyValue;
  debit : Q;
  credit : Q;
  balance : Q;
  isReconciled : bool;
  bankDate : string;
  status : Status
}.

(** What [extractBankAllocation] returns. *)
Record BankAllocation := {
  amount : Q;
  allocChequeNumber : ConfigAudit.TallyValue;
  allocInstrumentDate : string;
  allocBankDate : string
}.

(** [allocation?.FIELD]. *)
Definition fieldOf (f : Allocation → ConfigAudit.TallyValue) (a : option Allocation)
  : ConfigAudit.TallyValue :=
  match a with
  | Some a => f a
  | None => ConfigAudit.VUndefined
  end.

(** [s === ''] negated: the truth of a string. *)
Definition nonEmpty (s : string) : bool := negb (String.eqb s "").

Definition extractBankAllocation (voucher : Voucher) (bankLedgerName : string)
  : option BankAllocation :=
  match List.find
          (λ entry, String.eqb (Js.toLowerCase (extractString (LEDGERNAME entry)))
                               (Js.toLowerCase bankLedgerName))
          (ledgerEntries voucher) with
  | Some entry =>
      let allocation_ := allocation entry in
      Some {| amount := AMOUNT entry;
              allocChequeNumber :=
                valueOr (fieldOf INSTRUMENTNUMBER allocation_)
                  (valueOr (fieldOf TRANSACTIONNUMBER allocation_)
                     (valueOr (CHEQUENUMBER entry) (ConfigAudit.VString "")));
              allocInstrumentDate :=
                if ConfigAudit.truthy (fieldOf INSTRUMENTDATE allocation_)
                then TallyConnection.parseDate (fieldOf INSTRUMENTDATE allocation_)
                else "";
              allocBankDate :=
                if ConfigAudit.truthy (fieldOf BANKDATE allocation_)
                then TallyConnection.parseDate (fieldOf BANKDATE allocation_)
                else "" |}
  | None => None
  end.

Section Runtime.

(** [new Date(s)] and [a.localeCompare(b)], which the runtime decides. *)
Variable newDate : string → Js.Date.
Variable localeCompare : string → string → Z.

(** [vouchers.sort(compare)] with a consistent comparison, as
    [localeCompare] is: each voucher is put behind the vouchers that do not
    come after it, so the sort is stable. *)
Fixpoint insertSorted (voucher : Voucher) (sorted : list Voucher) : list Voucher :=
  match sorted with
  | [] => [voucher]
  | v :: rest =>
      if (localeCompare (TallyConnection.parseDate (DATE voucher))
                        (TallyConnection.parseDate (DATE v)) <? 0)%Z
      then voucher :: v :: rest
      else v :: insertSorted voucher rest
  end.

Definition sortByDate (vouchers : list Voucher) : list Voucher :=
  foldl (λ sorted voucher, insertSorted voucher sorted) [] vouchers.

(** The body of [for (const voucher of vouchers)] of [getBankBook], on the
    transactions so far and [runningBalance]. *)
Definition bankBookStep (bankLedgerName : string)
  (acc : list BankTransaction * Q) (voucher : Voucher) : list BankTransaction * Q :=
  match extractBankAllocation voucher bankLedgerName with
  | None => acc
  | Some bankAllocation =>
      let amount_ := amount bankAllocation in
      let isDebit := Qgtb amount_ 0 in
      let runningBalance := acc.2 + amount_ in
      (acc.1 ++
         [{| date := TallyConnection.parseDate (DATE voucher);
             voucherNumber := valueOr (VOUCHERNUMBER voucher) (ConfigAudit.VString "");
             chequeNumber :=
               valueOr (allocChequeNumber bankAllocation) (ConfigAudit.VString "");
             instrumentDate := allocInstrumentDate bankAllocation;
             narration := valueOr (NARRATION voucher) (ConfigAudit.VString "");
             debit := if isDebit then amount_ else 0;
             credit := if isDebit then 0 else Qabs amount_;
             balance := runningBalance;
             isReconciled := nonEmpty (allocBankDate bankAllocation);
             bankDate := allocBankDate bankAllocation;
             status := if nonEmpty (allocBankDate bankAllocation)
                       then Reconciled else Uncleared |}],
       runningBalance)
  end.

(** [getBankBook], given the reply to its request. *)
Definition getBankBook (bankLedgerName : string)
  (response : TallyResponse (list Voucher)) : TallyResponse (list BankTransaction) :=
  match response with
  | Failure error => Failure error
  | Success vouchers =>
      Success (foldl (bankBookStep bankLedgerName) ([], 0) (sortByDate vouchers)).1
  end.

(** *** The reconciliation statement *)

Record BankReconciliationStatement := {
  bankName : string;
  asOnDate_ : string;
  balanceAsPerBooks : Q;
  balanceAsPerBank : Q;
  unClearedCheques : list BankTransaction;
  unClearedDeposits : list BankTransaction;
  reconciliationDifference : Q
}.

(** [a > b] on two dates; false when one is invalid. *)
Definition dateGt (a b : Js.Date) : bool :=
  match a, b with
  | Some x, Some y => (y <? x)%Z
  | _, _ => false
  end.

(** [!txn.isReconciled || (txn.bankDate && new Date(txn.bankDate) > reconDate)]. *)
Definition unclearedOn (reconDate : Js.Date) (txn : BankTransaction) : bool :=
  negb (isReconciled txn) ||
  (nonEmpty (bankDate txn) && dateGt (newDate (bankDate txn)) reconDate).

(** The variables of the loop of [generateBRS]. *)
Record BRSState := {
  sBalanceAsPerBooks : Q;
  sUnClearedCheques : list BankTransaction;
  sUnClearedDeposits : list BankTransaction
}.

Definition brsStep (reconDate : Js.Date) (st : BRSState) (txn : BankTransaction)
  : BRSState :=
  let balance_ := sBalanceAsPerBooks st + (debit txn - credit txn) in
  if unclearedOn reconDate txn then
    if Qgtb (credit txn) 0 then
      {| sBalanceAsPerBooks := balance_;
         sUnClearedCheques := sUnClearedCheques st ++ [txn];
         sUnClearedDeposits := sUnClearedDeposits st |}
    else if Qgtb (debit txn) 0 then
      {| sBalanceAsPerBooks := balance_;
         sUnClearedCheques := sUnClearedCheques st;
         sUnClearedDeposits := sUnClearedDeposits st ++ [txn] |}
    else
      {| sBalanceAsPerBooks := balance_;
         sUnClearedCheques := sUnClearedCheques st;
         sUnClearedDeposits := sUnClearedDeposits st |}
  else
    {| sBalanceAsPerBooks := balance_;
       sUnClearedCheques := sUnClearedCheques st;
       sUnClearedDeposits := sUnClearedDeposits st |}.

(** [list.reduce((sum, t) => sum + f(t), 0)]. *)
Definition sumOf {A} (f : A → Q) (l : list A) : Q :=
  foldl (λ sum t, sum + f t) 0 l.

(** [generateBRS], given what [getBankBook] returned. *)
Definition generateBRS (bankLedgerName asOnDate : string)
  (bankBookResult : TallyResponse (list BankTransaction))
  : TallyResponse BankReconciliationStatement :=
  match bankBookResult with
  | Failure error => Failure error
  | Success transactions =>
      let reconDate := newDate asOnDate in
      let st :=
        foldl (brsStep reconDate)
              {| sBalanceAsPerBooks := 0; sUnClearedCheques := [];
                 sUnClearedDeposits := [] |}
              transactions in
      let totalUnClearedCheques := sumOf credit (sUnClearedCheques st) in
      let totalUnClearedDeposits := sumOf debit (sUnClearedDeposits st) in
      let balanceAsPerBank_ :=
        sBalanceAsPerBooks st + totalUnClearedCheques - totalUnClearedDeposits in
      Success
        {| bankName := bankLedgerName;
           asOnDate_ := asOnDate;
           balanceAsPerBooks := sBalanceAsPerBooks st;
           balanceAsPerBank := balanceAsPerBank_;
           unClearedCheques := sUnClearedCheques st;
           unClearedDeposits := sUnClearedDeposits st;
           reconciliationDifference := 0 |}
  end.

(** [Math.floor((a.getTime() - b.getTime()) / (1000 * 60 * 60 * 24))];
    [None] is NaN. *)
Definition daysBetween (a b : Js.Date) : option Z :=
  match a, b with
  | Some x, Some y => Some ((x - y) / Js.msPerDay)%Z
  | _, _ => None
  end.

(** *** Aging of the uncleared items *)

Record AgingTotals := {
  within7 : Q;
  within30 : Q;
  within90 : Q;
  above90 : Q
}.

(** [aging.cheques] and [aging.deposits]. *)
Record AgingLists := {
  within7Days : list BankTransaction;
  within30Days : list BankTransaction;
  within90Days : list BankTransaction;
  above90Days : list BankTransaction;
  totals : AgingTotals
}.

Record UnclearedAging := {
  cheques : AgingLists;
  deposits : AgingLists;
  staleCheques : list BankTransaction;
  staleChequesTotal : Q;
  remarks : string
}.

(** The age in days of a transaction: [reconDate] less [new Date(txn.date)]. *)
Definition agingDaysOf (reconDate : Js.Date) (txn : BankTransaction) : option Z :=
  daysBetween reconDate (newDate (date txn)).

(** [agingDays <= n] and [agingDays > n], false on NaN. *)
Definition daysLe (agingDays : option Z) (n : Z) : bool :=
  match agingDays with
  | Some d => (d <=? n)%Z
  | None => false
  end.

Definition daysGt (agingDays : option Z) (n : Z) : bool :=
  match agingDays with
  | Some d => (n <? d)%Z
  | None => false
  end.

(** One turn of the loops that age the cheques (on [credit]) and the
    deposits (on [debit]). *)
Definition ageItem (value : BankTransaction → Q) (reconDate : Js.Date)
  (aging : AgingLists) (txn : BankTransaction) : AgingLists :=
  let agingDays := agingDaysOf reconDate txn in
  let t := totals aging in
  if daysLe agingDays 7 then
    {| within7Days := within7Days aging ++ [txn];
       within30Days := within30Days aging;
       within90Days := within90Days aging;
       above90Days := above90Days aging;
       totals := {| within7 := within7 t + value txn; within30 := within30 t;
                    within90 := within90 t; above90 := above90 t |} |}
  else if daysLe agingDays 30 then
    {| within7Days := within7Days aging;
       within30Days := within30Days aging ++ [txn];
       within90Days := within90Days aging;
       above90Days := above90Days aging;
       totals := {| within7 := within7 t; within30 := within30 t + value txn;
                    within90 := within90 t; above90 := above90 t |} |}
  else if daysLe agingDays 90 then
    {| within7Days := within7Days aging;
       within30Days := within30Days aging;
       within90Days := within90Days aging ++ [txn];
       above90Days := above90Days aging;
       totals := {| within7 := within7 t; within30 := within30 t;
                    within90 := within90 t + value txn; above90 := above90 t |} |}
  else
    {| within7Days := within7Days aging;
       within30Days := within30Days aging;
       within90Days := within90Days aging;
       above90Days := above90Days aging ++ [txn];
       totals := {| within7 := within7 t; within30 := within30 t;
                    within90 := within90 t; above90 := above90 t + value txn |} |}.

Definition emptyAging : AgingLists :=
  {| within7Days := []; within30Days := []; within90Days := []; above90Days := [];
     totals := {| within7 := 0; within30 := 0; within90 := 0; above90 := 0 |} |}.

(** [getUnclearedAging], given what [generateBRS] returned. *)
Definition getUnclearedAging (asOnDate : string)
  (brsResult : TallyResponse BankReconciliationStatement)
  : TallyResponse UnclearedAging :=
  match brsResult with
  | Failure error => Failure error
  | Success brs =>
      let reconDate := newDate asOnDate in
      let cheques_ := foldl (ageItem credit reconDate) emptyAging (unClearedCheques brs) in
      let deposits_ :=
        foldl (ageItem debit reconDate) emptyAging (unClearedDeposits brs) in
      let staleCheques_ :=
        List.filter (λ c, daysGt (agingDaysOf reconDate c) 90) (above90Days cheques_) in
      Success
        {| cheques := cheques_;
           deposits := deposits_;
           staleCheques := staleCheques_;
           staleChequesTotal := sumOf credit staleCheques_;
           remarks :=
             if bool_decide (0 < length staleCheques_)%nat
             then natToString (length staleCheques_) +:+
                  " stale cheques found. Consider writing back to income."
             else "No stale cheques found." |}
  end.

(** *** All banks *)

(** A bank of [getBankLedgers], with the fields [getAllBanksSummary] reads;
    the name is text. *)
Record Bank := {
  name : string;
  accountNumber : ConfigAudit.TallyValue
}.

(** An element of [summaries]. *)
Record BankSummary := {
  sBankName : string;
  sAccountNumber : ConfigAudit.TallyValue;
  sBalanceBooks : Q;
  sBalanceBank : Q;
  unclearedCheques : nat;
  unclearedChequesAmount : Q;
  unclearedDeposits : nat;
  unclearedDepositsAmount : Q
}.

Record BanksTotals := {
  totalBalanceBooks : Q;
  totalBalanceBank : Q;
  totalUnclearedCheques : Q;
  totalUnclearedDeposits : Q
}.

Record AllBanks := {
  banks : list BankSummary;
  banksTotals : BanksTotals
}.

(** One turn of [for (const bank of banksResult.data)]; [books k] is the
    reply to the request of the bank book of the [k]-th bank. *)
Definition summaryStep (asOnDate : string) (books : nat → TallyResponse (list Voucher))
  (summaries : list BankSummary) (k : nat) (bank : Bank) : list BankSummary :=
  match generateBRS (name bank) asOnDate (getBankBook (name bank) (books k)) with
  | Success brs =>
      summaries ++
        [{| sBankName := name bank;
            sAccountNumber := accountNumber bank;
            sBalanceBooks := balanceAsPerBooks brs;
            sBalanceBank := balanceAsPerBank brs;
            unclearedCheques := length (unClearedCheques brs);
            unclearedChequesAmount := sumOf credit (unClearedCheques brs);
            unclearedDeposits := length (unClearedDeposits brs);
            unclearedDepositsAmount := sumOf debit (unClearedDeposits brs) |}]
  | Failure _ => summaries
  end.

(** [getAllBanksSummary], given what [getBankLedgers] returned. *)
Definition getAllBanksSummary (asOnDate : string)
  (banksResult : TallyResponse (list Bank))
  (books : nat → TallyResponse (list Voucher)) : TallyResponse AllBanks :=
  match banksResult with
  | Failure error => Failure error
  | Success data =>
      let summaries :=
        foldl (λ acc kb, summaryStep asOnDate books acc kb.1 kb.2) []
              (imap (λ k bank, (k, bank)) data) in
      Success
        {| banks := summaries;
           banksTotals :=
             {| totalBalanceBooks := sumOf sBalanceBooks summaries;
                totalBalanceBank := sumOf sBalanceBank summaries;
                totalUnclearedCheques := sumOf unclearedChequesAmount summaries;
                totalUnclearedDeposits := sumOf unclearedDepositsAmount summaries |} |}
  end.

(** *** Post-dated cheques *)

(** An element of [pdcIssued] and [pdcReceived]. *)
Record PostDated := {
  voucherDate : string;
  pdcChequeNumber : ConfigAudit.TallyValue;
  chequeDate : string;
  pdcAmount : Q;
  pdcNarration : ConfigAudit.TallyValue;
  daysToMaturity : option Z
}.

Record PostDatedCheques := {
  pdcIssued : list PostDated;
  pdcReceived : list PostDated;
  totalPDCIssued : Q;
  totalPDCReceived : Q
}.

(** The body of [for (const txn of bankBookResult.data)]. *)
Definition pdcStep (reconDate : Js.Date) (acc : list PostDated * list PostDated)
  (txn : BankTransaction) : list PostDated * list PostDated :=
  if nonEmpty (instrumentDate txn) then
    let instrumentDate_ := newDate (instrumentDate txn) in
    if dateGt instrumentDate_ reconDate then
      let entry :=
        {| voucherDate := date txn;
           pdcChequeNumber := chequeNumber txn;
           chequeDate := instrumentDate txn;
           pdcAmount := numOr (credit txn) (debit txn);
           pdcNarration := narration txn;
           daysToMaturity := daysBetween instrumentDate_ reconDate |} in
      if Qgtb (credit txn) 0 then (acc.1 ++ [entry], acc.2)
      else (acc.1, acc.2 ++ [entry])
    else acc
  else acc.

(** [getPostDatedCheques], given what [getBankBook] returned. *)
Definition getPostDatedCheques (asOnDate : string)
  (bankBookResult : TallyResponse (list BankTransaction))
  : TallyResponse PostDatedCheques :=
  match bankBookResult with
  | Failure error => Failure error
  | Success data =>
      let reconDate := newDate asOnDate in
      let lists := foldl (pdcStep reconDate) ([], []) data in
      Success
        {| pdcIssued := lists.1;
           pdcReceived := lists.2;
           totalPDCIssued := sumOf pdcAmount lists.1;
           totalPDCReceived := sumOf pdcAmount lists.2 |}
  end.

End Runtime.

End BankBook.
(** ** BankReconciliationTools: the analysis of bank charges *)

Module BankCharges.

Import BankBook.
Local Open Scope Q_scope.

(** An element of [bankCharges]. *)
Record BankCharge := {
  chargeDate : string;
  chargeVoucherNumber : ConfigAudit.TallyValue;
  chargeType : ConfigAudit.TallyValue;
  chargeAmount : Q;
  chargeNarration : ConfigAudit.TallyValue
}.

(** The test of the inner loop, on the lower-cased ledger name. *)
Definition isChargeLedger (ledgerName : string) : bool :=
  ConfigAudit.strIncludes ledgerName "bank charge" ||
  ConfigAudit.strIncludes ledgerName "bank commission" ||
  ConfigAudit.strIncludes ledgerName "bank interest" ||
  ConfigAudit.strIncludes ledgerName "processing fee" ||
  ConfigAudit.strIncludes ledgerName "service charge".

(** [hasBankAccount]. *)
Definition hasBankAccount (bankLedgerName : string) (voucher : Voucher) : bool :=
  existsb (λ e, String.eqb (Js.toLowerCase (extractString (LEDGERNAME e)))
                           (Js.toLowerCase bankLedgerName))
          (ledgerEntries voucher).

(** The charges that one voucher adds to [bankCharges]. *)
Definition chargesOf (bankLedgerName : string) (voucher : Voucher) : list BankCharge :=
  if hasBankAccount bankLedgerName voucher then
    (λ entry,
       {| chargeDate := TallyConnection.parseDate (DATE voucher);
          chargeVoucherNumber := VOUCHERNUMBER voucher;
          chargeType := LEDGERNAME entry;
          chargeAmount := Qabs (AMOUNT entry);
          chargeNarration := valueOr (NARRATION voucher) (ConfigAudit.VString "") |})
    <$> List.filter
          (λ entry, isChargeLedger (Js.toLowerCase (extractString (LEDGERNAME entry))))
          (ledgerEntries voucher)
  else [].

(** [totals[key] = (totals[key] || 0) + amount] on a [Record<string, number>].
    The keys used are names of charge ledgers and month keys, none of which
    is a property of [Object.prototype]. *)
Definition addAmount (totals : gmap string Q) (key : string) (amount : Q) : gmap string Q :=
  <[key := numOr (default 0 (totals !! key)) 0 + amount]> totals.

Section Runtime.

(** The fields in local time of [new Date(s)], which the runtime decides;
    [None] is an invalid date. *)
Variable localDate : string → option TallyConnection.LocalDate.

(** [monthKey] of [groupByMonth]. *)
Definition monthKey (d : string) : string :=
  match localDate d with
  | Some date =>
      intToString (TallyConnection.getFullYear date) +:+ "-" +:+
      TallyConnection.padStart2 (TallyConnection.getMonth date + 1)
  | None => "NaN" +:+ "-" +:+ "NaN"
  end.

Definition groupByMonth (charges : list BankCharge) : gmap string Q :=
  foldl (λ monthWise charge,
           addAmount monthWise (monthKey (chargeDate charge)) (chargeAmount charge))
        ∅ charges.

Record BankChargesAnalysis := {
  transactions : list BankCharge;
  totalCharges : Q;
  byChargeType : gmap string Q;
  monthWise : gmap string Q
}.

(** [getBankChargesAnalysis], given the reply to its request. *)
Definition getBankChargesAnalysis (bankLedgerName : string)
  (response : TallyResponse (list Voucher)) : TallyResponse BankChargesAnalysis :=
  match response with
  | Failure error => Failure error
  | Success vouchers =>
      let bankCharges := vouchers ≫= chargesOf bankLedgerName in
      let byChargeType_ :=
        foldl (λ byChargeType charge,
                 addAmount byChargeType (ConfigAudit.toStr (chargeType charge))
                           (chargeAmount charge))
              ∅ bankCharges in
      Success
        {| transactions := bankCharges;
           totalCharges := sumOf chargeAmount bankCharges;
           byChargeType := byChargeType_;
           monthWise := groupByMonth bankCharges |}
  end.

End Runtime.

End BankCharges.
(** ** FinancialTools: [getDebtorsAging] and [getCreditorsAging] *)

Module Financial.

(** A bill of [extractBillAllocations(ledger)]: [billDate] is [None] when
    the field is absent or empty, else the [Date] made of it; [amount] is
    the number [connection.parseAmount] makes of the field. *)
Record Bill := {
  billName : string;
  billDate : option Js.Date;
  amount : Q
}.

(** A ledger of the aging reply, with its balance parsed and its bills. *)
Record Ledger := {
  NAME : string;
  CLOSINGBALANCE : Q;
  bills : list Bill
}.

(** An element of [billWiseDetails]; [agingDays] is [None] when NaN. *)
Record BillDetail := {
  billNumber : string;
  detailAmount : Q;
  pending : Q;
  agingDays : option Z
}.

(** [AgedReceivable] and [AgedPayable], which have the same shape. *)
Record Aged := {
  partyName : string;
  current : Q;
  days30 : Q;
  days60 : Q;
  days90 : Q;
  days180 : Q;
  above180 : Q;
  total : Q;
  billWiseDetails : list BillDetail
}.

(** [Math.floor((reconDate.getTime() - billDate.getTime()) / msPerDay)]. *)
Definition agingDaysOf (reconDate billDate_ : Js.Date) : option Z :=
  match reconDate, billDate_ with
  | Some r, Some b => Some ((r - b) / Js.msPerDay)%Z
  | _, _ => None
  end.

Inductive Bucket := Current | Days30 | Days60 | Days90 | Days180 | Above180.

#[global] Instance Bucket_eq_dec : EqDecision Bucket.
Proof. solve_decision. Defined.

(** The chain [if (agingDays <= 0) .. else if (agingDays <= 30) .. else ..];
    every comparison with NaN is false. *)
Definition bucketOf (agingDays_ : option Z) : Bucket :=
  match agingDays_ with
  | Some d =>
      if (d <=? 0)%Z then Current
      else if (d <=? 30)%Z then Days30
      else if (d <=? 60)%Z then Days60
      else if (d <=? 90)%Z then Days90
      else if (d <=? 180)%Z then Days180
      else Above180
  | None => Above180
  end.

(** [aged.<bucket> += amount]. *)
Definition addTo (b : Bucket) (amount_ : Q) (aged : Aged) : Aged :=
  {| partyName := partyName aged;
     current := if bool_decide (b = Current) then current aged + amount_ else current aged;
     days30 := if bool_decide (b = Days30) then days30 aged + amount_ else days30 aged;
     days60 := if bool_decide (b = Days60) then days60 aged + amount_ else days60 aged;
     days90 := if bool_decide (b = Days90) then days90 aged + amount_ else days90 aged;
     days180 := if bool_decide (b = Days180) then days180 aged + amount_ else days180 aged;
     above180 := if bool_decide (b = Above180) then above180 aged + amount_ else above180 aged;
     total := total aged;
     billWiseDetails := billWiseDetails aged |}.

Definition pushDetail (d : BillDetail) (aged : Aged) : Aged :=
  {| partyName := partyName aged;
     current := current aged; days30 := days30 aged; days60 := days60 aged;
     days90 := days90 aged; days180 := days180 aged; above180 := above180 aged;
     total := total aged;
     billWiseDetails := billWiseDetails aged ++ [d] |}.

(** The body of [for (const bill of bills)]; [amountOf] is the identity for
    receivables and [Math.abs] for payables.  [asOnDate] is
    [new Date(asOnDate)], which is also [reconDate]. *)
Definition ageBill (amountOf : Q → Q) (asOnDate : Js.Date) (aged : Aged) (bill : Bill)
  : Aged :=
  let billDate_ := default asOnDate (billDate bill) in
  let agingDays_ := agingDaysOf asOnDate billDate_ in
  let amount_ := amountOf (amount bill) in
  pushDetail {| billNumber := billName bill; detailAmount := amount_;
                pending := amount_; agingDays := agingDays_ |}
             (addTo (bucketOf agingDays_) amount_ aged).

Definition setCurrent (v : Q) (aged : Aged) : Aged :=
  {| partyName := partyName aged;
     current := v; days30 := days30 aged; days60 := days60 aged;
     days90 := days90 aged; days180 := days180 aged; above180 := above180 aged;
     total := total aged;
     billWiseDetails := billWiseDetails aged |}.

(** The aging of one ledger with outstanding amount [total_]. *)
Definition ageLedger (amountOf : Q → Q) (asOnDate : Js.Date) (total_ : Q)
  (ledger : Ledger) : Aged :=
  let aged0 := {| partyName := NAME ledger;
                  current := 0; days30 := 0; days60 := 0; days90 := 0;
                  days180 := 0; above180 := 0;
                  total := total_; billWiseDetails := [] |} in
  let aged := foldl (ageBill amountOf asOnDate) aged0 (bills ledger) in
  if bool_decide (length (bills ledger) = 0%nat) then setCurrent total_ aged else aged.

(** [getDebtorsAging], given the reply to its request. *)
Definition getDebtorsAging (asOnDate : Js.Date) (response : TallyResponse (list Ledger))
  : TallyResponse (list Aged) :=
  match response with
  | Failure error => Failure error
  | Success ledgers =>
      Success
        (flat_map (λ ledger,
                     let balance := CLOSINGBALANCE ledger in
                     if Qleb balance 0 then []
                     else [ageLedger (λ a, a) asOnDate balance ledger])
                  ledgers)
  end.

(** [getCreditorsAging], given the reply to its request. *)
Definition getCreditorsAging (asOnDate : Js.Date) (response : TallyResponse (list Ledger))
  : TallyResponse (list Aged) :=
  match response with
  | Failure error => Failure error
  | Success ledgers =>
      Success
        (flat_map (λ ledger,
                     let balance := CLOSINGBALANCE ledger in
                     if Qleb 0 balance then []
                     else [ageLedger Qabs asOnDate (Qabs balance) ledger])
                  ledgers)
  end.

End Financial.

(** ** FinancialTools: statements, ratios and overdue payables *)

Module FinancialReports.

Local Open Scope Q_scope.

(** The class has the helper [extractString] of [ConfigAuditTools]. *)
Definition extractString : ConfigAudit.TallyValue → string := ConfigAudit.extractString.

(** A ledger of [extractLedgers(response.data)]; the two balances are the
    numbers [connection.parseAmount] makes of the fields. *)
Record Ledger := {
  NAME : ConfigAudit.TallyValue;
  PARENT : ConfigAudit.TallyValue;
  OPENINGBALANCE : Q;
  CLOSINGBALANCE : Q
}.

(** [parent.includes(t)] on the lower-cased parent group. *)
Definition parentIncludes (ledger : Ledger) (t : string) : bool :=
  ConfigAudit.strIncludes (Js.toLowerCase (extractString (PARENT ledger))) t.

(** *** Trial balance *)

Record TrialBalance := {
  ledgerName : ConfigAudit.TallyValue;
  group : ConfigAudit.TallyValue;
  openingDebit : Q;
  openingCredit : Q;
  transactionDebit : Q;
  transactionCredit : Q;
  closingDebit : Q;
  closingCredit : Q
}.

(** The row [trialBalance.push] adds for a ledger. *)
Definition trialBalanceRow (ledger : Ledger) : TrialBalance :=
  let openingBalance := OPENINGBALANCE ledger in
  let closingBalance := CLOSINGBALANCE ledger in
  let closingDebit_ := if Qgtb closingBalance 0 then closingBalance else 0 in
  let closingCredit_ := if Qltb closingBalance 0 then Qabs closingBalance else 0 in
  {| ledgerName := ConfigAudit.orEmpty (NAME ledger);
     group := ConfigAudit.orEmpty (PARENT ledger);
     openingDebit := if Qgtb openingBalance 0 then openingBalance else 0;
     openingCredit := if Qltb openingBalance 0 then Qabs openingBalance else 0;
     transactionDebit := 0;
     transactionCredit := 0;
     closingDebit := closingDebit_;
     closingCredit := closingCredit_ |}.

(** [getTrialBalance], given the reply to its request.  The two running
    totals of the loop are not returned and are left out. *)
Definition getTrialBalance (response : TallyResponse (list Ledger))
  : TallyResponse (list TrialBalance) :=
  match response with
  | Failure error => Failure error
  | Success ledgers =>
      Success
        (flat_map
           (λ ledger,
              if negb (Qeqb (CLOSINGBALANCE ledger) 0)
              then [trialBalanceRow ledger]
              else [])
           ledgers)
  end.

(** *** Profit and loss *)

(** An element of [details]: [{ ...entry, type }]. *)
Record Detail := {
  detailName : ConfigAudit.TallyValue;
  detailAmount : Q;
  detailGroup : ConfigAudit.TallyValue;
  detailType : string
}.

(** [pl.income]. *)
Record Income := {
  sales : Q;
  otherIncome : Q;
  incomeTotal : Q;
  incomeDetails : list Detail
}.

(** [pl.expenses]. *)
Record Expenses := {
  purchases : Q;
  directExpenses : Q;
  indirectExpenses : Q;
  expensesTotal : Q;
  expensesDetails : list Detail
}.

Record ProfitAndLoss := {
  income : Income;
  expenses : Expenses;
  grossProfit : Q;
  netProfit : Q
}.

(** [entry] of the loops, with its [type]. *)
Definition entryOf (ledger : Ledger) (balance : Q) (type_ : string) : Detail :=
  {| detailName := NAME ledger;
     detailAmount := Qabs balance;
     detailGroup := PARENT ledger;
     detailType := type_ |}.

(** The body of [for (const ledger of ledgers)] of [getProfitAndLoss]. *)
Definition plStep (pl : Income * Expenses) (ledger : Ledger) : Income * Expenses :=
  let balance := CLOSINGBALANCE ledger in
  if Qeqb balance 0 then pl
  else
    let inc := pl.1 in
    let exp := pl.2 in
    if parentIncludes ledger "sales" || parentIncludes ledger "revenue" then
      ({| sales := sales inc + Qabs balance;
          otherIncome := otherIncome inc;
          incomeTotal := incomeTotal inc;
          incomeDetails := incomeDetails inc ++ [entryOf ledger balance "Sales"] |},
       exp)
    else if parentIncludes ledger "income" || parentIncludes ledger "indirect income" ||
            parentIncludes ledger "other income" then
      ({| sales := sales inc;
          otherIncome := otherIncome inc + Qabs balance;
          incomeTotal := incomeTotal inc;
          incomeDetails := incomeDetails inc ++ [entryOf ledger balance "Other Income"] |},
       exp)
    else if parentIncludes ledger "purchase" then
      (inc,
       {| purchases := purchases exp + Qabs balance;
          directExpenses := directExpenses exp;
          indirectExpenses := indirectExpenses exp;
          expensesTotal := expensesTotal exp;
          expensesDetails := expensesDetails exp ++ [entryOf ledger balance "Purchase"] |})
    else if parentIncludes ledger "direct expense" then
      (inc,
       {| purchases := purchases exp;
          directExpenses := directExpenses exp + Qabs balance;
          indirectExpenses := indirectExpenses exp;
          expensesTotal := expensesTotal exp;
          expensesDetails :=
            expensesDetails exp ++ [entryOf ledger balance "Direct Expense"] |})
    else if parentIncludes ledger "indirect expense" then
      (inc,
       {| purchases := purchases exp;
          directExpenses := directExpenses exp;
          indirectExpenses := indirectExpenses exp + Qabs balance;
          expensesTotal := expensesTotal exp;
          expensesDetails :=
            expensesDetails exp ++ [entryOf ledger balance "Indirect Expense"] |})
    else pl.

Definition emptyIncome : Income :=
  {| sales := 0; otherIncome := 0; incomeTotal := 0; incomeDetails := [] |}.

Definition emptyExpenses : Expenses :=
  {| purchases := 0; directExpenses := 0; indirectExpenses := 0;
     expensesTotal := 0; expensesDetails := [] |}.

(** [getProfitAndLoss], given the replies to its two requests.  The reply
    [response] to the first, the report request, is not read. *)
Definition getProfitAndLoss {A} (response : TallyResponse A)
  (ledgerResponse : TallyResponse (list Ledger)) : TallyResponse ProfitAndLoss :=
  let pl :=
    match ledgerResponse with
    | Success ledgers => foldl plStep (emptyIncome, emptyExpenses) ledgers
    | Failure _ => (emptyIncome, emptyExpenses)
    end in
  let inc := pl.1 in
  let exp := pl.2 in
  let incomeTotal_ := sales inc + otherIncome inc in
  let expensesTotal_ := purchases exp + directExpenses exp + indirectExpenses exp in
  Success
    {| income := {| sales := sales inc; otherIncome := otherIncome inc;
                    incomeTotal := incomeTotal_;
                    incomeDetails := incomeDetails inc |};
       expenses := {| purchases := purchases exp;
                      directExpenses := directExpenses exp;
                      indirectExpenses := indirectExpenses exp;
                      expensesTotal := expensesTotal_;
                      expensesDetails := expensesDetails exp |};
       grossProfit := sales inc - purchases exp - directExpenses exp;
       netProfit := incomeTotal_ - expensesTotal_ |}.

(** *** Balance sheet *)

(** [bs.liabilities]. *)
Record Liabilities := {
  capital : Q;
  reservesAndSurplus : Q;
  securedLoans : Q;
  unsecuredLoans : Q;
  currentLiabilities : Q;
  liabilitiesTotal : Q;
  liabilitiesDetails : list Detail
}.

(** [bs.assets]. *)
Record Assets := {
  fixedAssets : Q;
  investments : Q;
  currentAssets : Q;
  loansAndAdvances : Q;
  assetsTotal : Q;
  assetsDetails : list Detail
}.

Record BalanceSheet := {
  liabilities : Liabilities;
  assets : Assets;
  difference : Q
}.

(** [bs.liabilities.<field> += amount; bs.liabilities.details.push(d)]. *)
Inductive LiabilityField :=
| Capital | ReservesAndSurplus | SecuredLoans | UnsecuredLoans | CurrentLiabilities.

Definition addLiability (f : LiabilityField) (amount : Q) (d : Detail) (l : Liabilities)
  : Liabilities :=
  {| capital := match f with Capital => capital l + amount | _ => capital l end;
     reservesAndSurplus :=
       match f with
       | ReservesAndSurplus => reservesAndSurplus l + amount
       | _ => reservesAndSurplus l
       end;
     securedLoans :=
       match f with SecuredLoans => securedLoans l + amount | _ => securedLoans l end;
     unsecuredLoans :=
       match f with UnsecuredLoans => unsecuredLoans l + amount | _ => unsecuredLoans l end;
     currentLiabilities :=
       match f with
       | CurrentLiabilities => currentLiabilities l + amount
       | _ => currentLiabilities l
       end;
     liabilitiesTotal := liabilitiesTotal l;
     liabilitiesDetails := liabilitiesDetails l ++ [d] |}.

(** [bs.assets.<field> += amount; bs.assets.details.push(d)]. *)
Inductive AssetField := FixedAssets | Investments | CurrentAssets | LoansAndAdvances.

Definition addAsset (f : AssetField) (amount : Q) (d : Detail) (a : Assets) : Assets :=
  {| fixedAssets := match f with FixedAssets => fixedAssets a + amount | _ => fixedAssets a end;
     investments := match f with Investments => investments a + amount | _ => investments a end;
     currentAssets :=
       match f with CurrentAssets => currentAssets a + amount | _ => currentAssets a end;
     loansAndAdvances :=
       match f with
       | LoansAndAdvances => loansAndAdvances a + amount
       | _ => loansAndAdvances a
       end;
     assetsTotal := assetsTotal a;
     assetsDetails := assetsDetails a ++ [d] |}.

(** The body of [for (const ledger of ledgers)] of [getBalanceSheet]. *)
Definition bsStep (bs : Liabilities * Assets) (ledger : Ledger) : Liabilities * Assets :=
  let balance := CLOSINGBALANCE ledger in
  if Qeqb balance 0 then bs
  else
    let amount := Qabs balance in
    let entry := entryOf ledger balance in
    if parentIncludes ledger "capital" then
      (addLiability Capital amount (entry "Capital") bs.1, bs.2)
    else if parentIncludes ledger "reserves" || parentIncludes ledger "surplus" then
      (addLiability ReservesAndSurplus amount (entry "Reserves & Surplus") bs.1, bs.2)
    else if parentIncludes ledger "secured loan" then
      (addLiability SecuredLoans amount (entry "Secured Loans") bs.1, bs.2)
    else if parentIncludes ledger "unsecured loan" then
      (addLiability UnsecuredLoans amount (entry "Unsecured Loans") bs.1, bs.2)
    else if parentIncludes ledger "current liabilities" ||
            parentIncludes ledger "sundry creditor" ||
            parentIncludes ledger "duties" then
      (addLiability CurrentLiabilities amount (entry "Current Liabilities") bs.1, bs.2)
    else if parentIncludes ledger "fixed asset" then
      (bs.1, addAsset FixedAssets amount (entry "Fixed Assets") bs.2)
    else if parentIncludes ledger "investment" then
      (bs.1, addAsset Investments amount (entry "Investments") bs.2)
    else if parentIncludes ledger "current asset" ||
            parentIncludes ledger "sundry debtor" ||
            parentIncludes ledger "stock" ||
            parentIncludes ledger "cash" ||
            parentIncludes ledger "bank" then
      (bs.1, addAsset CurrentAssets amount (entry "Current Assets") bs.2)
    else if parentIncludes ledger "loans and advances" then
      (bs.1, addAsset LoansAndAdvances amount (entry "Loans & Advances") bs.2)
    else bs.

Definition emptyLiabilities : Liabilities :=
  {| capital := 0; reservesAndSurplus := 0; securedLoans := 0; unsecuredLoans := 0;
     currentLiabilities := 0; liabilitiesTotal := 0; liabilitiesDetails := [] |}.

Definition emptyAssets : Assets :=
  {| fixedAssets := 0; investments := 0; currentAssets := 0; loansAndAdvances := 0;
     assetsTotal := 0; assetsDetails := [] |}.

(** [getBalanceSheet], given the replies to its two requests, of which the
    first is not read. *)
Definition getBalanceSheet {A} (response : TallyResponse A)
  (ledgerResponse : TallyResponse (list Ledger)) : TallyResponse BalanceSheet :=
  let bs :=
    match ledgerResponse with
    | Success ledgers => foldl bsStep (emptyLiabilities, emptyAssets) ledgers
    | Failure _ => (emptyLiabilities, emptyAssets)
    end in
  let l := bs.1 in
  let a := bs.2 in
  let liabilitiesTotal_ :=
    capital l + reservesAndSurplus l + securedLoans l + unsecuredLoans l
    + currentLiabilities l in
  let assetsTotal_ :=
    fixedAssets a + investments a + currentAssets a + loansAndAdvances a in
  Success
    {| liabilities :=
         {| capital := capital l; reservesAndSurplus := reservesAndSurplus l;
            securedLoans := securedLoans l; unsecuredLoans := unsecuredLoans l;
            currentLiabilities := currentLiabilities l;
            liabilitiesTotal := liabilitiesTotal_;
            liabilitiesDetails := liabilitiesDetails l |};
       assets :=
         {| fixedAssets := fixedAssets a; investments := investments a;
            currentAssets := currentAssets a; loansAndAdvances := loansAndAdvances a;
            assetsTotal := assetsTotal_;
            assetsDetails := assetsDetails a |};
       difference := assetsTotal_ - liabilitiesTotal_ |}.

(** *** Ratios *)

Record FinancialRatios := {
  currentRatio : Q;
  quickRatio : Q;
  debtEquityRatio : Q;
  returnOnEquity : Q;
  returnOnAssets : Q;
  netProfitMargin : Q;
  grossProfitMargin : Q;
  operatingProfitMargin : Q;
  inventoryTurnover : Q;
  debtorsTurnover : Q;
  creditorsTurnover : Q;
  workingCapitalTurnover : Q;
  assetTurnover : Q;
  interestCoverageRatio : Q
}.

(** [calculateFinancialRatios], given what [getProfitAndLoss] and
    [getBalanceSheet] returned. *)
Definition calculateFinancialRatios (plResult : TallyResponse ProfitAndLoss)
  (bsResult : TallyResponse BalanceSheet) : TallyResponse FinancialRatios :=
  match plResult with
  | Failure error => Failure error
  | Success pl =>
      match bsResult with
      | Failure error => Failure error
      | Success bs =>
          let sales_ := numOr (sales (income pl)) 1 in
          let netProfit_ := numOr (netProfit pl) 0 in
          let grossProfit_ := numOr (grossProfit pl) 0 in
          let operatingProfit := grossProfit_ - indirectExpenses (expenses pl) in
          let currentAssets_ := numOr (currentAssets (assets bs)) 0 in
          let currentLiabilities_ := numOr (currentLiabilities (liabilities bs)) 1 in
          let inventory := 0 in
          let totalAssets := numOr (assetsTotal (assets bs)) 1 in
          let totalDebt :=
            securedLoans (liabilities bs) + unsecuredLoans (liabilities bs) in
          let equity :=
            numOr (capital (liabilities bs) + reservesAndSurplus (liabilities bs)) 1 in
          let interestExpense := 0 in
          let debtors := 0 in
          let creditors := 0 in
          Success
            {| currentRatio := currentAssets_ / currentLiabilities_;
               quickRatio := (currentAssets_ - inventory) / currentLiabilities_;
               debtEquityRatio := totalDebt / equity;
               returnOnEquity := (netProfit_ / equity) * 100;
               returnOnAssets := (netProfit_ / totalAssets) * 100;
               netProfitMargin := (netProfit_ / sales_) * 100;
               grossProfitMargin := (grossProfit_ / sales_) * 100;
               operatingProfitMargin := (operatingProfit / sales_) * 100;
               inventoryTurnover := sales_ / numOr inventory 1;
               debtorsTurnover := sales_ / numOr debtors 1;
               creditorsTurnover := purchases (expenses pl) / numOr creditors 1;
               workingCapitalTurnover :=
                 sales_ / numOr (currentAssets_ - currentLiabilities_) 1;
               assetTurnover := sales_ / totalAssets;
               interestCoverageRatio :=
                 if Qeqb interestExpense 0 then 0
                 else operatingProfit / interestExpense |}
      end
  end.

(** *** Payables overdue to MSMEs *)

(** An element of [overduePayables]. *)
Record OverduePayable := {
  partyName : string;
  totalOutstanding : Q;
  overdueAmount : Q;
  within45Days : Q;
  above45Days : Q;
  billWiseDetails : list Financial.BillDetail
}.

Record MSMESummary := {
  totalOverdue : Q;
  partiesCount : nat;
  remarks : string
}.

Record MSMEPayables := {
  overduePayables : list OverduePayable;
  summary : MSMESummary
}.

(** [b.agingDays > 45]; the comparison is false on NaN. *)
Definition agedAbove45 (b : Financial.BillDetail) : bool :=
  match Financial.agingDays b with
  | Some d => (45 <? d)%Z
  | None => false
  end.

(** [getMSMEPayables], given what [getCreditorsAging] returned. *)
Definition getMSMEPayables (creditorsResult : TallyResponse (list Financial.Aged))
  : TallyResponse MSMEPayables :=
  match creditorsResult with
  | Failure error => Failure error
  | Success data =>
      let overduePayables_ :=
        flat_map
          (λ creditor,
             let overdueAmount_ :=
               Financial.days60 creditor + Financial.days90 creditor
               + Financial.days180 creditor + Financial.above180 creditor in
             if Qgtb overdueAmount_ 0
             then [{| partyName := Financial.partyName creditor;
                      totalOutstanding := Financial.total creditor;
                      overdueAmount := overdueAmount_;
                      within45Days :=
                        Financial.current creditor + Financial.days30 creditor;
                      above45Days := overdueAmount_;
                      billWiseDetails :=
                        List.filter agedAbove45 (Financial.billWiseDetails creditor) |}]
             else [])
          data in
      Success
        {| overduePayables := overduePayables_;
           summary :=
             {| totalOverdue :=
                  foldl (λ sum p, sum + overdueAmount p) 0 overduePayables_;
                partiesCount := length overduePayables_;
                remarks :=
                  "Amount outstanding to MSMEs beyond 45 days is disallowed u/s 43B(h) of Income Tax Act" |} |}
  end.

End FinancialReports.
(** ** FinancialTools: the statement of a ledger *)

Module LedgerStatement.

Local Open Scope Q_scope.

Definition extractString : ConfigAudit.TallyValue → string := ConfigAudit.extractString.

(** An element of [extractLedgerEntries(voucher)]; [AMOUNT] is the number
    [connection.parseAmount] makes of the field. *)
Record LedgerEntry := {
  LEDGERNAME : ConfigAudit.TallyValue;
  AMOUNT : Q
}.

(** An element of [extractVouchers(response.data)]. *)
Record Voucher := {
  DATE : ConfigAudit.TallyValue;
  VOUCHERTYPENAME : ConfigAudit.TallyValue;
  VOUCHERNUMBER : ConfigAudit.TallyValue;
  NARRATION : ConfigAudit.TallyValue;
  ledgerEntries : list LedgerEntry
}.





Section Runtime.

(** [a.localeCompare(b)], which the runtime decides. *)
Variable localeCompare : string → string → Z.

(** [vouchers.sort(compare)], a stable sort as in the bank book. *)
Fixpoint insertSorted (voucher : Voucher) (sorted : list Voucher) : list Voucher :=
  match sorted with
  | [] => [voucher]
  | v :: rest =>
      if (localeCompare (TallyConnection.parseDate (DATE voucher))
                        (TallyConnection.parseDate (DATE v)) <? 0)%Z
      then voucher :: v :: rest
      else v :: insertSorted voucher rest
  end.

Definition sortByDate (vouchers : list Voucher) : list Voucher :=
  foldl (λ sorted voucher, insertSorted voucher sorted) [] vouchers.




End Runtime.

End LedgerStatement.

(** ** FinancialTools: the summary of a group *)

Module GroupSummary.

Local Open Scope Q_scope.

(** An element of [groupLedgers]. *)
Record GroupLedger := {
  name : ConfigAudit.TallyValue;
  openingBalance : Q;
  closingBalance : Q
}.

Record Summary := {
  groupName_ : string;
  ledgers : list GroupLedger;
  totalOpening : Q;
  totalClosing : Q;
  ledgerCount : nat
}.

(** The variables of the loop. *)
Record State := {
  groupLedgers : list GroupLedger;
  sTotalOpening : Q;
  sTotalClosing : Q
}.

(** The body of [for (const ledger of ledgers)]. *)
Definition groupStep (groupName : string) (st : State) (ledger : FinancialReports.Ledger)
  : State :=
  if String.eqb
       (Js.toLowerCase (FinancialReports.extractString (FinancialReports.PARENT ledger)))
       (Js.toLowerCase groupName)
  then
    let opening := FinancialReports.OPENINGBALANCE ledger in
    let closing := FinancialReports.CLOSINGBALANCE ledger in
    {| groupLedgers :=
         groupLedgers st ++
           [{| name := FinancialReports.NAME ledger;
               openingBalance := opening;
               closingBalance := closing |}];
       sTotalOpening := sTotalOpening st + opening;
       sTotalClosing := sTotalClosing st + closing |}
  else st.

(** [getGroupSummary], given the reply to its request. *)
Definition getGroupSummary (groupName : string)
  (response : TallyResponse (list FinancialReports.Ledger)) : TallyResponse Summary :=
  match response with
  | Failure error => Failure error
  | Success ledgers_ =>
      let st :=
        foldl (groupStep groupName)
              {| groupLedgers := []; sTotalOpening := 0; sTotalClosing := 0 |} ledgers_ in
      Success
        {| groupName_ := groupName;
           ledgers := groupLedgers st;
           totalOpening := sTotalOpening st;
           totalClosing := sTotalClosing st;
           ledgerCount := length (groupLedgers st) |}
  end.

End GroupSummary.

(** ** FinancialTools: the summary of the stock *)

Module StockSummary.

Local Open Scope Q_scope.

(** A stock item of [extractStockItems(stockResponse.data)]; the four
    amounts are the numbers [connection.parseAmount] makes of the fields. *)
Record StockItem := {
  NAME : ConfigAudit.TallyValue;
  PARENT : ConfigAudit.TallyValue;
  HSNCODE : ConfigAudit.TallyValue;
  OPENINGBALANCE : Q;
  OPENINGVALUE : Q;
  CLOSINGBALANCE : Q;
  CLOSINGVALUE : Q;
  GSTRATE : ConfigAudit.TallyValue
}.

(** An element of [stockSummary]. *)
Record Row := {
  itemName : ConfigAudit.TallyValue;
  group : ConfigAudit.TallyValue;
  hsnCode : ConfigAudit.TallyValue;
  openingQty : Q;
  openingValue : Q;
  closingQty : Q;
  closingValue : Q;
  rate : ConfigAudit.TallyValue
}.

Record Totals := {
  totalOpeningValue : Q;
  totalClosingValue : Q;
  changeInStock : Q;
  itemCount : nat
}.

Record Summary := {
  items : list Row;
  summary : Totals
}.

(** The variables of the loop. *)
Record State := {
  stockSummary : list Row;
  sTotalOpeningValue : Q;
  sTotalClosingValue : Q
}.

(** The body of [for (const item of items)]. *)
Definition stockStep (st : State) (item : StockItem) : State :=
  let openingValue_ := OPENINGVALUE item in
  let closingValue_ := CLOSINGVALUE item in
  {| stockSummary :=
       stockSummary st ++
         [{| itemName := ConfigAudit.orEmpty (NAME item);
             group := ConfigAudit.orEmpty (PARENT item);
             hsnCode := ConfigAudit.orEmpty (HSNCODE item);
             openingQty := OPENINGBALANCE item;
             openingValue := openingValue_;
             closingQty := CLOSINGBALANCE item;
             closingValue := closingValue_;
             rate := if ConfigAudit.truthy (GSTRATE item) then GSTRATE item
                     else ConfigAudit.VNumber 0 |}];
     sTotalOpeningValue := sTotalOpeningValue st + openingValue_;
     sTotalClosingValue := sTotalClosingValue st + closingValue_ |}.

(** [getStockSummary], given the replies to its two requests; the data of
    the first reply is not read. *)
Definition getStockSummary {A} (response : TallyResponse A)
  (stockResponse : TallyResponse (list StockItem)) : TallyResponse Summary :=
  match response with
  | Failure error => Failure error
  | Success _ =>
      let start := {| stockSummary := []; sTotalOpeningValue := 0;
                      sTotalClosingValue := 0 |} in
      let st :=
        match stockResponse with
        | Success items_ => foldl stockStep start items_
        | Failure _ => start
        end in
      Success
        {| items := stockSummary st;
           summary :=
             {| totalOpeningValue := sTotalOpeningValue st;
                totalClosingValue := sTotalClosingValue st;
                changeInStock := sTotalClosingValue st - sTotalOpeningValue st;
                itemCount := length (stockSummary st) |} |}
  end.

End StockSummary.
(** * Specification vocabulary *)

(** ** Edit distance and substrings *)

Section NameSimilaritySpec.
Context {C : Type} `{EqDecision C}.

(** The recurrence the table of [levenshteinDistance] implements, on two
    strings read from their last code unit backwards (the table compares
    [s1[i-1]] with [s2[j-1]]). *)
Fixpoint levRec (xs : list C) : list C → nat :=
  match xs with
  | [] => λ ys, length ys
  | x :: xs' =>
      fix inner (ys : list C) : nat :=
        match ys with
        | [] => length xs
        | y :: ys' =>
            if bool_decide (x = y) then levRec xs' ys'
            else 1 + Nat.min (Nat.min (levRec xs' ys) (inner ys'))
                             (levRec xs' ys')
        end
  end.

(** The Wagner-Fischer recurrence of the Levenshtein distance: the least of
    a deletion, an insertion and a substitution (free on equal units). *)
Fixpoint wagnerFischer (xs : list C) : list C → nat :=
  match xs with
  | [] => λ ys, length ys
  | x :: xs' =>
      fix inner (ys : list C) : nat :=
        match ys with
        | [] => length xs
        | y :: ys' =>
            Nat.min (Nat.min (1 + wagnerFischer xs' ys) (1 + inner ys'))
                    ((if bool_decide (x = y) then 0 else 1) + wagnerFischer xs' ys')
        end
  end.

(** The Levenshtein distance of two strings, on their prefixes. *)
Definition levenshtein (s1 s2 : list C) : nat := wagnerFischer (rev s1) (rev s2).

(** The value the table must hold at [(i, j)]. *)
Definition cellSpec (s1 s2 : list C) (i j : nat) : nat :=
  levRec (rev (take i s1)) (rev (take j s2)).

Definition dpShape (m n : nat) (dp : list (list nat)) : Prop :=
  length dp = (m + 1)%nat ∧
  ∀ (i : nat) row, dp !! i = Some row → length row = (n + 1)%nat.

(** Cells for which [known] holds already carry their final value. *)
Definition dpFilled (s1 s2 : list C) (known : nat → nat → Prop)
  (dp : list (list nat)) : Prop :=
  dpShape (length s1) (length s2) dp ∧
  ∀ a b : nat, a ≤ length s1 → b ≤ length s2 → known a b →
               dpGet dp a b = cellSpec s1 s2 a b.

(** [t] occurs in [s]: one is a substring of the other. *)
Definition isSubstringOf (t s : list C) : Prop := ∃ pre suf, s = pre ++ t ++ suf.

(** The similarity of two names: one minus the Levenshtein distance divided
    by the longer length. *)
Definition similarityOf (n1 n2 : list C) : Q :=
  1 - inject_Z (Z.of_nat (levenshtein n1 n2))
      / inject_Z (Z.of_nat (Nat.max (length n1) (length n2))).

(** The duplicate rule in the words of the specification: distinct, and one
    a substring of the other or similarity above 0.8 with both longer than
    five. *)
Definition specSimilar (n1 n2 : list C) : Prop :=
  n1 ≠ n2 ∧
  (isSubstringOf n1 n2 ∨ isSubstringOf n2 n1 ∨
   ((8 # 10) < similarityOf n1 n2)%Q ∧ 5 < length n1 ∧ 5 < length n2).

(** The duplicate rule as the code decides it. *)
Definition codeSimilar (n1 n2 : list C) : Prop :=
  n1 ≠ n2 ∧
  ((isSubstringOf n1 n2 ∨ isSubstringOf n2 n1) ∧ 3 < length n1 ∧ 3 < length n2
   ∨
   ¬ isSubstringOf n1 n2 ∧ ¬ isSubstringOf n2 n1 ∧
   ((8 # 10) < similarityOf n1 n2)%Q ∧ 5 < Nat.max (length n1) (length n2)).

End NameSimilaritySpec.

(** ** Scores *)

Definition clamp (lo hi x : Z) : Z := Z.max lo (Z.min hi x).

(** [100] minus the weighted numbers of Critical, High, Medium and Low
    issues, clamped to [[0, 100]]. *)
Definition weightedScore (wCritical wHigh wMedium wLow : Z)
  (l : list ConfigAudit.AuditIssue) : Z :=
  clamp 0 100
    (100 - wCritical * Z.of_nat (ConfigAudit.countSeverity ConfigAudit.Critical l)
         - wHigh * Z.of_nat (ConfigAudit.countSeverity ConfigAudit.High l)
         - wMedium * Z.of_nat (ConfigAudit.countSeverity ConfigAudit.Medium l)
         - wLow * Z.of_nat (ConfigAudit.countSeverity ConfigAudit.Low l)).

(** The issues of a report that belong to one category. *)
Definition inCategory (c : ConfigAudit.Category) (l : list ConfigAudit.AuditIssue)
  : list ConfigAudit.AuditIssue :=
  List.filter (λ i, bool_decide (ConfigAudit.category i = c)) l.

(** What [calculateCategoryScore] reports for a category without issues. *)
Definition cleanCategory (categoryName : string) : ConfigAudit.CategoryAudit :=
  {| ConfigAudit.score := 100;
     ConfigAudit.status := ConfigAudit.Good;
     ConfigAudit.issueCount := 0;
     ConfigAudit.summary := categoryName +:+ " configuration looks good!" |}.

(** A ledger with a name and a parent group and nothing else set. *)
Definition plainLedger (name parent : string) : ConfigAudit.Ledger :=
  {| ConfigAudit.NAME := ConfigAudit.VString name;
     ConfigAudit.PARENT := ConfigAudit.VString parent;
     ConfigAudit.CLOSINGBALANCE := 0;
     ConfigAudit.GSTAPPLICABLE := ConfigAudit.VUndefined;
     ConfigAudit.ISTAXABLE := ConfigAudit.VUndefined;
     ConfigAudit.ISTDSAPPLICABLE := ConfigAudit.VUndefined;
     ConfigAudit.INCOMETAXNUMBER := ConfigAudit.VUndefined;
     ConfigAudit.TDSDEDUCTEETYPE := ConfigAudit.VUndefined;
     ConfigAudit.PARTYGSTIN := ConfigAudit.VUndefined;
     ConfigAudit.GSTREGISTRATIONTYPE := ConfigAudit.VUndefined;
     ConfigAudit.LEDGERSTATENAME := ConfigAudit.VUndefined |}.

(** A company whose statutory details are all set and well formed. *)
Definition sampleCompany : ConfigAudit.TallyCompany :=
  {| ConfigAudit.name := "Acme Traders";
     ConfigAudit.gstNumber := "27AAPFU0939F1ZV";
     ConfigAudit.panNumber := "AAPFU0939F";
     ConfigAudit.tanNumber := "MUMA12345B";
     ConfigAudit.state := "Maharashtra" |}.

(** An audit run on [sampleCompany] in which every ledger request is
    answered [ledgers] and there are no stock items. *)
Definition snapshotOf (ledgers : list ConfigAudit.Ledger) : ConfigAudit.Connection :=
  {| ConfigAudit.getCompanyName := Some "Acme Traders";
     ConfigAudit.getCompanyList := Success [sampleCompany];
     ConfigAudit.gstLedgers := Success ledgers;
     ConfigAudit.tdsLedgers := Success ledgers;
     ConfigAudit.classificationLedgers := Success ledgers;
     ConfigAudit.partyLedgers := Success ledgers;
     ConfigAudit.stockItemsReply := Success [] |}.

(** The same run, except that the request of the GST check fails. *)
Definition gstFetchFails (conn : ConfigAudit.Connection) : ConfigAudit.Connection :=
  {| ConfigAudit.getCompanyName := ConfigAudit.getCompanyName conn;
     ConfigAudit.getCompanyList := ConfigAudit.getCompanyList conn;
     ConfigAudit.gstLedgers := Failure "Tally request failed: timeout";
     ConfigAudit.tdsLedgers := ConfigAudit.tdsLedgers conn;
     ConfigAudit.classificationLedgers := ConfigAudit.classificationLedgers conn;
     ConfigAudit.partyLedgers := ConfigAudit.partyLedgers conn;
     ConfigAudit.stockItemsReply := ConfigAudit.stockItemsReply conn |}.

(** The six GST ledgers, all present under Duties & Taxes. *)
Definition allGstLedgers : list ConfigAudit.Ledger :=
  (λ n, plainLedger n "Duties & Taxes")
    <$> ["Output IGST"; "Output CGST"; "Output SGST";
         "Input IGST"; "Input CGST"; "Input SGST"].

(** The five required GST ledgers other than Output CGST, in table order. *)
Definition absentGstLedgers : list ConfigAudit.RequiredLedger :=
  [ {| ConfigAudit.reqType := "OUTPUT_IGST"; ConfigAudit.reqName := "Output IGST"; ConfigAudit.patterns := ConfigAudit.GST_OUTPUT_IGST |};
    {| ConfigAudit.reqType := "OUTPUT_SGST"; ConfigAudit.reqName := "Output SGST"; ConfigAudit.patterns := ConfigAudit.GST_OUTPUT_SGST |};
    {| ConfigAudit.reqType := "INPUT_IGST"; ConfigAudit.reqName := "Input IGST"; ConfigAudit.patterns := ConfigAudit.GST_INPUT_IGST |};
    {| ConfigAudit.reqType := "INPUT_CGST"; ConfigAudit.reqName := "Input CGST"; ConfigAudit.patterns := ConfigAudit.GST_INPUT_CGST |};
    {| ConfigAudit.reqType := "INPUT_SGST"; ConfigAudit.reqName := "Input SGST"; ConfigAudit.patterns := ConfigAudit.GST_INPUT_SGST |} ].

(** A group is a ledger followed by every other ledger whose normalized
    name passes [isSimilarName] against the normalized name of the first. *)
Definition groupOf (ledgerNames : list ConfigAudit.LedgerName)
  (group : list ConfigAudit.TallyValue) : Prop :=
  ∃ i li,
    ledgerNames !! i = Some li ∧
    ConfigAudit.similarTo ledgerNames i (ConfigAudit.normalized li) ≠ [] ∧
    group = ConfigAudit.lname li :: (ConfigAudit.lname <$> ConfigAudit.similarTo ledgerNames i (ConfigAudit.normalized li)).

(** Every issue of a list carries category [c]. *)
Definition allOf (c : ConfigAudit.Category) (l : list ConfigAudit.AuditIssue) : Prop :=
  Forall (λ i, ConfigAudit.category i = c) l.

(** ** Matching *)

(** The amount of a statement entry and of a book transaction:
    [debit || credit]. *)
Definition entryAmount (entry : BankReconciliation.BankStatementEntry) : Q :=
  numOr (BankReconciliation.stmtDebit entry) (BankReconciliation.stmtCredit entry).

Definition bookAmount (txn : BankReconciliation.BankTransaction) : Q :=
  numOr (BankReconciliation.debit txn) (BankReconciliation.credit txn).

(** A book transaction is a candidate for a statement entry: the amounts
    differ by less than 1 and the dates by at most 7 days. *)
Definition withinTolerance (entry : BankReconciliation.BankStatementEntry)
  (txn : BankReconciliation.BankTransaction) : Prop :=
  (Qabs (entryAmount entry - bookAmount txn) < 1)%Q ∧
  ∃ e t : Z, BankReconciliation.stmtDate entry = Some e ∧
             BankReconciliation.date txn = Some t ∧
             (Z.abs (e - t) ≤ 7 * Js.msPerDay)%Z.

(** The number of days between the two dates is [d]. *)
Definition daysApart (entry : BankReconciliation.BankStatementEntry)
  (txn : BankReconciliation.BankTransaction) (d : Q) : Prop :=
  ∃ e t : Z, BankReconciliation.stmtDate entry = Some e ∧
             BankReconciliation.date txn = Some t ∧
             (d == inject_Z (Z.abs (e - t)) / inject_Z Js.msPerDay)%Q ∧
             (d == 0 ↔ e = t)%Q.

(** The lookup key of a statement entry that carries a cheque number. *)
Definition entryKey (entry : BankReconciliation.BankStatementEntry) : option string :=
  match BankReconciliation.stmtChequeNumber entry with
  | None | Some "" => None
  | Some cheque => Some (cheque +:+ "_" +:+ Js.toFixed2 (entryAmount entry))
  end.

(** The book transactions filed under key [k], in book order. *)
Definition sameKeyBooks (k : string)
  (books : list (Obj BankReconciliation.BankTransaction))
  : list (Obj BankReconciliation.BankTransaction) :=
  List.filter (λ o, String.eqb (BankReconciliation.createMatchKey (val o)) k) books.

(** How many of the entries [done] looked key [k] up. *)
Definition claimsOn (k : string) (done : list BankReconciliation.BankStatementEntry)
  : nat :=
  length (List.filter (λ e, bool_decide (entryKey e = Some k)) done).

(** The state of the matching loop after the entries [stmts]. *)
Definition runMatching (data : list BankReconciliation.BankTransaction)
  (stmts : list BankReconciliation.BankStatementEntry)
  : BankReconciliation.Matching :=
  foldl BankReconciliation.reconcileEntry
        (BankReconciliation.initialMatching (allocate data)) stmts.

(** What the lookup holds under [k] once the entries [done] are processed. *)
Definition lookupAfter (k : string)
  (books : list (Obj BankReconciliation.BankTransaction))
  (done : list BankReconciliation.BankStatementEntry)
  : option (list (Obj BankReconciliation.BankTransaction)) :=
  match sameKeyBooks k books with
  | [] => None
  | filed => Some (drop (claimsOn k done) filed)
  end.

(** A record of [matched] made by the exact phase. *)
Definition exactMatch (bookTxn : Obj BankReconciliation.BankTransaction)
  (entry : BankReconciliation.BankStatementEntry) : BankReconciliation.Matched :=
  {| BankReconciliation.bookTransaction := bookTxn;
     BankReconciliation.statementEntry := entry;
     BankReconciliation.matchType := BankReconciliation.Exact;
     BankReconciliation.daysDifference := None |}.

(** A record of [matched] made by the approximate phase. *)
Definition fuzzyMatch (bookTxn : Obj BankReconciliation.BankTransaction)
  (entry : BankReconciliation.BankStatementEntry) (daysDiff : Q)
  : BankReconciliation.Matched :=
  {| BankReconciliation.bookTransaction := bookTxn;
     BankReconciliation.statementEntry := entry;
     BankReconciliation.matchType :=
       if Qeqb daysDiff 0 then BankReconciliation.AmountDate
       else BankReconciliation.AmountDateMismatch;
     BankReconciliation.daysDifference := Some daysDiff |}.

(** The state after one more match [m] that consumed [bookTransactions[i]]. *)
Definition afterFuzzyMatch (st : BankReconciliation.Matching)
  (m : BankReconciliation.Matched) (i : nat) : BankReconciliation.Matching :=
  {| BankReconciliation.mMatched := BankReconciliation.mMatched st ++ [m];
     BankReconciliation.mUnmatchedInStatement :=
       BankReconciliation.mUnmatchedInStatement st;
     BankReconciliation.mTotalMatched := BankReconciliation.mTotalMatched st + 1;
     BankReconciliation.mTotalUnmatchedStatement :=
       BankReconciliation.mTotalUnmatchedStatement st;
     BankReconciliation.bookTransactions :=
       delete i (BankReconciliation.bookTransactions st);
     BankReconciliation.bookMap := BankReconciliation.bookMap st |}.

(** Book and statement records of the scenarios: a date, a cheque number
    and an amount. *)
Definition bookRecord (d : Js.Date) (cheque : string) (amount : Q)
  : BankReconciliation.BankTransaction :=
  {| BankReconciliation.date := d;
     BankReconciliation.chequeNumber := cheque;
     BankReconciliation.debit := amount;
     BankReconciliation.credit := 0 |}.

Definition statementRecord (d : Js.Date) (cheque : option string) (amount : Q)
  : BankReconciliation.BankStatementEntry :=
  {| BankReconciliation.stmtDate := d;
     BankReconciliation.stmtChequeNumber := cheque;
     BankReconciliation.stmtDebit := amount;
     BankReconciliation.stmtCredit := 0 |}.

(** What one turn of the matching loop records for its entry: one more
    match, or one more unmatched statement entry. *)
Definition recordsMatch (st st' : BankReconciliation.Matching)
  (entry : BankReconciliation.BankStatementEntry) : Prop :=
  ∃ m, BankReconciliation.mMatched st' = BankReconciliation.mMatched st ++ [m] ∧
       BankReconciliation.statementEntry m = entry ∧
       BankReconciliation.mTotalMatched st'
         = (BankReconciliation.mTotalMatched st + 1)%nat ∧
       BankReconciliation.mUnmatchedInStatement st'
         = BankReconciliation.mUnmatchedInStatement st ∧
       BankReconciliation.mTotalUnmatchedStatement st'
         = BankReconciliation.mTotalUnmatchedStatement st.

Definition recordsUnmatched (st st' : BankReconciliation.Matching)
  (entry : BankReconciliation.BankStatementEntry) : Prop :=
  BankReconciliation.mMatched st' = BankReconciliation.mMatched st ∧
  BankReconciliation.mTotalMatched st' = BankReconciliation.mTotalMatched st ∧
  BankReconciliation.mUnmatchedInStatement st'
    = BankReconciliation.mUnmatchedInStatement st ++ [entry] ∧
  BankReconciliation.mTotalUnmatchedStatement st'
    = (BankReconciliation.mTotalUnmatchedStatement st + 1)%nat.

(** [l'] is [l] without [b]. *)
Definition removed {A} (b : A) (l l' : list A) : Prop :=
  sublist l' l ∧ (b ∉ l') ∧ (∀ x, x ∈ l → x ≠ b → x ∈ l').

(** The book side of a matching state: the working copy holds, in book
    order, the book transactions that no match has taken. *)
Definition bookSideSplit (books : list (Obj BankReconciliation.BankTransaction))
  (st : BankReconciliation.Matching) : Prop :=
  sublist (BankReconciliation.bookTransactions st) books ∧
  (∀ m, m ∈ BankReconciliation.mMatched st →
        BankReconciliation.bookTransaction m ∈ books ∧
        BankReconciliation.bookTransaction m ∉ BankReconciliation.bookTransactions st) ∧
  (∀ b, b ∈ books → b ∉ BankReconciliation.bookTransactions st →
        ∃ m, m ∈ BankReconciliation.mMatched st ∧
             BankReconciliation.bookTransaction m = b).

(** ** Aging *)

Definition bucketTotal (b : Financial.Bucket) (aged : Financial.Aged) : Q :=
  match b with
  | Financial.Current => Financial.current aged
  | Financial.Days30 => Financial.days30 aged
  | Financial.Days60 => Financial.days60 aged
  | Financial.Days90 => Financial.days90 aged
  | Financial.Days180 => Financial.days180 aged
  | Financial.Above180 => Financial.above180 aged
  end.

Definition allBuckets : list Financial.Bucket :=
  [Financial.Current; Financial.Days30; Financial.Days60; Financial.Days90;
   Financial.Days180; Financial.Above180].

Definition sumQ (l : list Q) : Q := foldr Qplus 0%Q l.

(** The age in days of a bill and the bucket that age falls in. *)
Definition billAge (asOnDate : Js.Date) (bill : Financial.Bill) : option Z :=
  Financial.agingDaysOf asOnDate (default asOnDate (Financial.billDate bill)).

Definition billBucket (asOnDate : Js.Date) (bill : Financial.Bill) : Financial.Bucket :=
  Financial.bucketOf (billAge asOnDate bill).

(** The bills of bucket [b], in their order. *)
Definition billsIn (b : Financial.Bucket) (asOnDate : Js.Date)
  (bills : list Financial.Bill) : list Financial.Bill :=
  List.filter (λ bill, bool_decide (billBucket asOnDate bill = b)) bills.

(** The entry of [billWiseDetails] made for a bill. *)
Definition detailOf (amountOf : Q → Q) (asOnDate : Js.Date) (bill : Financial.Bill)
  : Financial.BillDetail :=
  {| Financial.billNumber := Financial.billName bill;
     Financial.detailAmount := amountOf (Financial.amount bill);
     Financial.pending := amountOf (Financial.amount bill);
     Financial.agingDays := billAge asOnDate bill |}.

(** The amounts of a list of bills. *)
Definition amountsOf (amountOf : Q → Q) (bills : list Financial.Bill) : list Q :=
  (λ bill, amountOf (Financial.amount bill)) <$> bills.

(** ** Recommendations, queries and fixes of the audit *)

(** The recommendation made when none of the six others is. *)
Definition noRecommendation : string :=
  "✅ Great! Your Tally configuration looks good for compliance reporting.".

(** An issue that calls for none of the six recommendations: it is not
    Critical, not of the GST, TDS, Party Master or Stock Item category, and
    not auto-fixable. *)
Definition silentIssue (i : ConfigAudit.AuditIssue) : Prop :=
  ConfigAudit.severity i ≠ ConfigAudit.Critical ∧
  ConfigAudit.category i ≠ ConfigAudit.GST ∧
  ConfigAudit.category i ≠ ConfigAudit.TDS ∧
  ConfigAudit.category i ≠ ConfigAudit.PartyMaster ∧
  ConfigAudit.category i ≠ ConfigAudit.StockItemCategory ∧
  ConfigAudit.autoFixable i = false.

(** A company in order except for its TAN, which is not set. *)
Definition companyWithoutTAN : ConfigAudit.TallyCompany :=
  {| ConfigAudit.name := "Acme Traders";
     ConfigAudit.gstNumber := "27AAPFU0939F1ZV";
     ConfigAudit.panNumber := "AAPFU0939F";
     ConfigAudit.tanNumber := "";
     ConfigAudit.state := "Maharashtra" |}.

(** The five TDS ledgers, all present under Duties & Taxes. *)
Definition allTdsLedgers : list ConfigAudit.Ledger :=
  (λ n, plainLedger n "Duties & Taxes")
    <$> ["TDS 194C"; "TDS 194J"; "TDS 194H"; "TDS 194I"; "TDS 194A"].

(** An audit run on [company] in which every ledger request is answered
    [ledgers] and there are no stock items. *)
Definition snapshotFor (company : ConfigAudit.TallyCompany)
  (ledgers : list ConfigAudit.Ledger) : ConfigAudit.Connection :=
  {| ConfigAudit.getCompanyName := Some (ConfigAudit.name company);
     ConfigAudit.getCompanyList := Success [company];
     ConfigAudit.gstLedgers := Success ledgers;
     ConfigAudit.tdsLedgers := Success ledgers;
     ConfigAudit.classificationLedgers := Success ledgers;
     ConfigAudit.partyLedgers := Success ledgers;
     ConfigAudit.stockItemsReply := Success [] |}.

(** The entry of [categories] that scores a category, if there is one. *)
Definition categoryAuditOf (c : ConfigAudit.Category) (cs : ConfigAudit.Categories)
  : option ConfigAudit.CategoryAudit :=
  match c with
  | ConfigAudit.GST => Some (ConfigAudit.gst cs)
  | ConfigAudit.TDS => Some (ConfigAudit.tds cs)
  | ConfigAudit.LedgerClassification => Some (ConfigAudit.ledgerClassification cs)
  | ConfigAudit.PartyMaster => Some (ConfigAudit.partyMaster cs)
  | ConfigAudit.StockItemCategory => Some (ConfigAudit.stockItems cs)
  | ConfigAudit.CompanyInfo => Some (ConfigAudit.companyInfo cs)
  | ConfigAudit.VoucherType => None
  end.

(** An issue carries a fix action exactly when it is marked auto-fixable,
    and [executeFixAction] has a request for that action. *)
Definition fixable (company : option string) (i : ConfigAudit.AuditIssue) : Prop :=
  match ConfigAudit.fixAction i with
  | Some a =>
      ConfigAudit.autoFixable i = true ∧
      ConfigAudit.type a ∈ [ConfigAudit.create_ledger; ConfigAudit.regroup_ledger;
                            ConfigAudit.update_tds_details] ∧
      ∃ request, ConfigAudit.executeFixAction company a = inl request
  | None => ConfigAudit.autoFixable i = false
  end.

(** [i] is the first issue of [l] whose id is [issueId]. *)
Definition firstWithId (issueId : string) (l : list ConfigAudit.AuditIssue)
  (i : ConfigAudit.AuditIssue) : Prop :=
  ∃ k : nat,
    l !! k = Some i ∧ ConfigAudit.id i = issueId ∧
    ∀ (j : nat) i', (j < k)%nat → l !! j = Some i' → ConfigAudit.id i' ≠ issueId.

(** The two errors of [previewFix] and [applyFix]. *)
Definition notFound (issueId : string) : string :=
  "Issue with ID " +:+ ConfigAudit.dquote +:+ issueId +:+ ConfigAudit.dquote +:+
  " not found".

Definition notAutoFixable (issueId : string) : string :=
  "Issue " +:+ ConfigAudit.dquote +:+ issueId +:+ ConfigAudit.dquote +:+
  " is not auto-fixable".

(** The preview and the result of the fix of an issue. *)
Definition previewOf (i : ConfigAudit.AuditIssue) (a : ConfigAudit.FixAction)
  : ConfigAudit.FixPreview :=
  {| ConfigAudit.issue := i;
     ConfigAudit.preview :=
       {| ConfigAudit.action := ConfigAudit.type a;
          ConfigAudit.target := ConfigAudit.targetName a;
          ConfigAudit.previewChanges := ConfigAudit.changes a;
          ConfigAudit.warning := "This is a preview. No changes have been made yet." |} |}.

Definition fixResultOf {R} (i : ConfigAudit.AuditIssue) (a : ConfigAudit.FixAction)
  (reply : R) : ConfigAudit.FixResult R :=
  {| ConfigAudit.issueId_ := ConfigAudit.id i;
     ConfigAudit.appliedFix := a;
     ConfigAudit.result := reply;
     ConfigAudit.message := "Successfully applied fix for: " +:+ ConfigAudit.title i |}.

(** The [k]-th call of [applyFix] of a run of [applyMultipleFixes] succeeds. *)
Definition fixSucceeds {R}
  (world : nat → ConfigAudit.Connection * (ConfigAudit.FixRequest → R))
  (ki : nat * string) : bool :=
  match ConfigAudit.applyFix (world ki.1).1 (world ki.1).2 ki.2 with
  | Success _ => true
  | Failure _ => false
  end.

(** The issue ids with their positions. *)
Definition numbered (issueIds : list string) : list (nat * string) :=
  imap (λ k issueId, (k, issueId)) issueIds.
(** ** Statements, ratios and overdue payables *)

(** The amounts of a list of details. *)
Definition detailAmounts (ds : list FinancialReports.Detail) : list Q :=
  FinancialReports.detailAmount <$> ds.

(** A detail is the entry of a ledger of [ledgers] with a balance. *)
Definition detailFrom (ledgers : list FinancialReports.Ledger)
  (d : FinancialReports.Detail) : Prop :=
  ∃ ledger,
    ledger ∈ ledgers ∧
    ¬ (FinancialReports.CLOSINGBALANCE ledger == 0)%Q ∧
    d = FinancialReports.entryOf ledger (FinancialReports.CLOSINGBALANCE ledger)
          (FinancialReports.detailType d).

(** A ledger with a name, a parent group and a closing balance. *)
Definition ledgerUnder (name parent : string) (balance : Q) : FinancialReports.Ledger :=
  {| FinancialReports.NAME := ConfigAudit.VString name;
     FinancialReports.PARENT := ConfigAudit.VString parent;
     FinancialReports.OPENINGBALANCE := 0;
     FinancialReports.CLOSINGBALANCE := balance |}.

(** A debit and a credit column that stand for a signed balance: neither is
    negative, at most one is not zero, and their difference is the balance. *)
Definition columnsOf (balance debit credit : Q) : Prop :=
  (0 <= debit)%Q ∧ (0 <= credit)%Q ∧ (debit == 0 ∨ credit == 0)%Q ∧
  (debit - credit == balance)%Q.

(** The row of the trial balance made for a ledger. *)
Definition rowOf (row : FinancialReports.TrialBalance) (ledger : FinancialReports.Ledger)
  : Prop :=
  FinancialReports.ledgerName row = ConfigAudit.orEmpty (FinancialReports.NAME ledger) ∧
  FinancialReports.group row = ConfigAudit.orEmpty (FinancialReports.PARENT ledger) ∧
  columnsOf (FinancialReports.OPENINGBALANCE ledger)
            (FinancialReports.openingDebit row) (FinancialReports.openingCredit row) ∧
  columnsOf (FinancialReports.CLOSINGBALANCE ledger)
            (FinancialReports.closingDebit row) (FinancialReports.closingCredit row) ∧
  FinancialReports.transactionDebit row = 0%Q ∧
  FinancialReports.transactionCredit row = 0%Q.

(** The bills of a creditor that [getMSMEPayables] counts as overdue: those
    of the buckets beyond 30 days. *)
Definition overdueBills (asOnDate : Js.Date) (bills : list Financial.Bill)
  : list Financial.Bill :=
  List.filter (λ bill, bool_decide (billBucket asOnDate bill ≠ Financial.Current ∧
                                    billBucket asOnDate bill ≠ Financial.Days30))
              bills.

(** The creditors among the ledgers of the aging reply. *)
Definition creditorsOf (ledgers : list Financial.Ledger) : list Financial.Ledger :=
  List.filter (λ l, negb (Qleb 0 (Financial.CLOSINGBALANCE l))) ledgers.

(** The overdue amount of a creditor. *)
Definition overdueOf (asOnDate : Js.Date) (l : Financial.Ledger) : Q :=
  sumQ (amountsOf Qabs (overdueBills asOnDate (Financial.bills l))).

Section ReportsSpec.
Import FinancialReports.

(** What the loop of [getProfitAndLoss] keeps true of its two records. *)
Definition plInvariant (ledgers : list Ledger) (pl : Income * Expenses) : Prop :=
  (sales pl.1 + otherIncome pl.1 == sumQ (detailAmounts (incomeDetails pl.1)))%Q ∧
  (purchases pl.2 + directExpenses pl.2 == sumQ (detailAmounts (expensesDetails pl.2)))%Q ∧
  indirectExpenses pl.2 = 0%Q ∧
  Forall (λ d, detailType d ∈ ["Sales"; "Other Income"] ∧ detailFrom ledgers d)
         (incomeDetails pl.1) ∧
  Forall (λ d, detailType d ∈ ["Purchase"; "Direct Expense"] ∧ detailFrom ledgers d)
         (expensesDetails pl.2).

(** What the loop of [getBalanceSheet] keeps true of its two records. *)
Definition bsInvariant (bs : Liabilities * Assets) : Prop :=
  (capital bs.1 + reservesAndSurplus bs.1 + securedLoans bs.1 + currentLiabilities bs.1
   == sumQ (detailAmounts (liabilitiesDetails bs.1)))%Q ∧
  unsecuredLoans bs.1 = 0%Q ∧
  Forall (λ d, detailType d ∈ ["Capital"; "Reserves & Surplus"; "Secured Loans";
                               "Current Liabilities"])
         (liabilitiesDetails bs.1) ∧
  (fixedAssets bs.2 + investments bs.2 + currentAssets bs.2 + loansAndAdvances bs.2
   == sumQ (detailAmounts (assetsDetails bs.2)))%Q.

(** The entry of [overduePayables] made for a creditor. *)
Definition overduePayableOf (asOnDate : Js.Date) (p : OverduePayable)
  (l : Financial.Ledger) : Prop :=
  partyName p = Financial.NAME l ∧
  totalOutstanding p = Qabs (Financial.CLOSINGBALANCE l) ∧
  (overdueAmount p == overdueOf asOnDate l)%Q ∧
  above45Days p = overdueAmount p ∧
  (within45Days p + above45Days p == sumQ (amountsOf Qabs (Financial.bills l)))%Q ∧
  billWiseDetails p
  = List.filter agedAbove45 (detailOf Qabs asOnDate <$> Financial.bills l).

End ReportsSpec.
(** ** Dates of the connection *)

(** The ISO form YYYY-MM-DD of the fields of a date, the month counted
    from 1. *)
Definition isoDate (d : TallyConnection.LocalDate) : string :=
  intToString (TallyConnection.getFullYear d) +:+ "-" +:+
  TallyConnection.padStart2 (TallyConnection.getMonth d + 1) +:+ "-" +:+
  TallyConnection.padStart2 (TallyConnection.getDate d).

(** A string of exactly [n] decimal digits. *)
Fixpoint digitsOf (n : nat) (s : string) : bool :=
  match n, s with
  | O, EmptyString => true
  | S n', String c s' => Js.isDigit c && digitsOf n' s'
  | _, _ => false
  end.

(** The fields of a calendar date with a year of four digits. *)
Definition fourDigitYear (d : TallyConnection.LocalDate) : Prop :=
  (1000 ≤ TallyConnection.getFullYear d ≤ 9999)%Z ∧
  (0 ≤ TallyConnection.getMonth d ≤ 11)%Z ∧
  (1 ≤ TallyConnection.getDate d ≤ 31)%Z.

(** ** The bank book and the statements made of it *)

Section BankBookSpec.
Import BankBook.

(** The amount a transaction adds to the book balance. *)
Definition signedAmount (txn : BankTransaction) : Q := (debit txn - credit txn)%Q.

(** The amount of the entry of a voucher for the bank ledger, 0 when it has
    no such entry. *)
Definition bankAmountOf (bankLedgerName : string) (voucher : Voucher) : Q :=
  match extractBankAllocation voucher bankLedgerName with
  | Some bankAllocation => amount bankAllocation
  | None => 0%Q
  end.

(** A transaction as [getBankBook] makes them: the amount is in the debit
    or in the credit column, the other being zero, and the transaction is
    reconciled exactly when it has a bank date. *)
Definition bookEntry (txn : BankTransaction) : Prop :=
  (0 <= debit txn)%Q ∧ (0 <= credit txn)%Q ∧
  (debit txn == 0 ∨ credit txn == 0)%Q ∧
  (isReconciled txn = true ↔ bankDate txn ≠ "") ∧
  status txn = (if isReconciled txn then Reconciled else Uncleared).

(** The balance column is the running total of the transactions. *)
Definition runningBalance (txns : list BankTransaction) : Prop :=
  ∀ (k : nat) txn,
    txns !! k = Some txn →
    (balance txn == sumQ (signedAmount <$> take (S k) txns))%Q.

(** What the loop of [getBankBook] keeps true of its two variables. *)
Definition bankBookInvariant (bankLedgerName : string) (vouchers : list Voucher)
  (acc : list BankTransaction * Q) : Prop :=
  Forall bookEntry acc.1 ∧
  runningBalance acc.1 ∧
  (acc.2 == sumQ (signedAmount <$> acc.1))%Q ∧
  (acc.2 == sumQ (bankAmountOf bankLedgerName <$> vouchers))%Q ∧
  (length acc.1 ≤ length vouchers)%nat.


(** An age of at most [hi] days, of more than [lo] and at most [hi] days,
    and of more than [lo] days; an age that is not a number is none of
    these. *)
Definition agedUpTo (hi : Z) (a : option Z) : bool :=
  match a with
  | Some d => bool_decide (d ≤ hi)%Z
  | None => false
  end.

Definition agedWithin (lo hi : Z) (a : option Z) : bool :=
  match a with
  | Some d => bool_decide (lo < d ≤ hi)%Z
  | None => false
  end.

Definition agedAbove (lo : Z) (a : option Z) : bool :=
  match a with
  | Some d => bool_decide (lo < d)%Z
  | None => false
  end.

(** The four lists and totals of an aging are those of the items [items]
    by their age [age], on the amounts [value]: up to 7 days, more than 7
    and up to 30, more than 30 and up to 90, and the rest, which is more
    than 90 days or an age that is not a number. *)
Definition agedLists (age : BankTransaction → option Z) (value : BankTransaction → Q)
  (items : list BankTransaction) (aging : AgingLists) : Prop :=
  within7Days aging = List.filter (λ t, agedUpTo 7 (age t)) items ∧
  within30Days aging = List.filter (λ t, agedWithin 7 30 (age t)) items ∧
  within90Days aging = List.filter (λ t, agedWithin 30 90 (age t)) items ∧
  above90Days aging
    = List.filter (λ t, agedAbove 90 (age t) || bool_decide (age t = None)) items ∧
  within7Days aging ++ within30Days aging ++ within90Days aging ++ above90Days aging
    ≡ₚ items ∧
  (within7 (totals aging) == sumQ (value <$> within7Days aging))%Q ∧
  (within30 (totals aging) == sumQ (value <$> within30Days aging))%Q ∧
  (within90 (totals aging) == sumQ (value <$> within90Days aging))%Q ∧
  (above90 (totals aging) == sumQ (value <$> above90Days aging))%Q ∧
  (within7 (totals aging) + within30 (totals aging) + within90 (totals aging)
   + above90 (totals aging) == sumQ (value <$> items))%Q.

(** The banks with their positions in the reply. *)
Definition numberedBanks (data : list Bank) : list (nat * Bank) :=
  imap (λ k bank, (k, bank)) data.

(** The statement of a bank balances: bank is books plus uncleared cheques
    less uncleared deposits. *)
Definition balances (books bank cheques deposits : Q) : Prop :=
  (bank == books + cheques - deposits)%Q.

End BankBookSpec.
(** ** Matches of the reconciliation *)

(** A match is justified: an exact match pairs a statement entry and a book
    transaction with the same lookup key and carries no day count; any
    other match pairs an entry and a transaction within the tolerances, and
    carries the number of days between their dates, which is 0 exactly for
    the type Amount+Date. *)
Definition justified (m : BankReconciliation.Matched) : Prop :=
  match BankReconciliation.matchType m with
  | BankReconciliation.Exact =>
      entryKey (BankReconciliation.statementEntry m)
      = Some (BankReconciliation.createMatchKey
                (val (BankReconciliation.bookTransaction m))) ∧
      BankReconciliation.daysDifference m = None
  | t =>
      withinTolerance (BankReconciliation.statementEntry m)
                      (val (BankReconciliation.bookTransaction m)) ∧
      ∃ d, BankReconciliation.daysDifference m = Some d ∧
           (d <= 7)%Q ∧
           daysApart (BankReconciliation.statementEntry m)
                     (val (BankReconciliation.bookTransaction m)) d ∧
           (t = BankReconciliation.AmountDate ↔ (d == 0)%Q)
  end.
(** ** Counts of the report *)

(** The six entries of [categories]. *)
Definition categoryAudits (cs : ConfigAudit.Categories) : list ConfigAudit.CategoryAudit :=
  [ ConfigAudit.gst cs; ConfigAudit.tds cs; ConfigAudit.ledgerClassification cs;
    ConfigAudit.partyMaster cs; ConfigAudit.stockItems cs; ConfigAudit.companyInfo cs ].

(** The status goes with the score: Good from 80, Needs Attention from 50,
    Critical below. *)
Definition statusOfScore (ca : ConfigAudit.CategoryAudit) : Prop :=
  (0 ≤ ConfigAudit.score ca ≤ 100)%Z ∧
  (ConfigAudit.status ca = ConfigAudit.Good ↔ (80 ≤ ConfigAudit.score ca)%Z) ∧
  (ConfigAudit.status ca = ConfigAudit.NeedsAttention
   ↔ (50 ≤ ConfigAudit.score ca < 80)%Z) ∧
  (ConfigAudit.status ca = ConfigAudit.StatusCritical ↔ (ConfigAudit.score ca < 50)%Z).
(** ** Bank charges *)

Section BankChargesSpec.
Import BankCharges.

(** The charges of a list filed under [key] by [keyOf]. *)
Definition chargesUnder (keyOf : BankCharge → string) (key : string)
  (charges : list BankCharge) : list BankCharge :=
  List.filter (λ charge, String.eqb (keyOf charge) key) charges.

(** [totals] holds, for every key that some charge is filed under, the sum
    of the amounts of these charges, and no other key. *)
Definition groupedBy (keyOf : BankCharge → string) (charges : list BankCharge)
  (totals : gmap string Q) : Prop :=
  ∀ key,
    match chargesUnder keyOf key charges with
    | [] => totals !! key = None
    | filed =>
        ∃ total, totals !! key = Some total ∧
                 (total == sumQ (chargeAmount <$> filed))%Q
    end.

End BankChargesSpec.

(** A voucher of 5 April 2024 that pays 50 of bank charges from the bank
    ledger, and a runtime in which every date text is that day. *)
Definition chargeEntry (name : string) (amount : Q) : BankBook.LedgerEntry :=
  {| BankBook.LEDGERNAME := ConfigAudit.VString name; BankBook.AMOUNT := amount;
     BankBook.CHEQUENUMBER := ConfigAudit.VUndefined; BankBook.allocation := None |}.

Definition chargeVoucher : BankBook.Voucher :=
  {| BankBook.DATE := ConfigAudit.VString "20240405";
     BankBook.VOUCHERNUMBER := ConfigAudit.VNumber 12;
     BankBook.NARRATION := ConfigAudit.VUndefined;
     BankBook.ledgerEntries :=
       [chargeEntry "HDFC Bank" (-50)%Q; chargeEntry "Bank Charges" 50%Q] |}.

Definition fifthOfApril (_ : string) : option TallyConnection.LocalDate :=
  Some {| TallyConnection.getFullYear := 2024; TallyConnection.getMonth := 3;
          TallyConnection.getDate := 5 |}.
(** ** The statement of a ledger *)

Section LedgerStatementSpec.
Import LedgerStatement.






End LedgerStatementSpec.

(** ** The summaries of a group and of the stock *)

(** [ledger] is directly under the group, the case of letters apart. *)
Definition inGroup (groupName : string) (ledger : FinancialReports.Ledger) : bool :=
  String.eqb (Js.toLowerCase (FinancialReports.extractString (FinancialReports.PARENT ledger)))
             (Js.toLowerCase groupName).

(** The row of the group summary made of a ledger. *)
Definition groupRow (ledger : FinancialReports.Ledger) : GroupSummary.GroupLedger :=
  {| GroupSummary.name := FinancialReports.NAME ledger;
     GroupSummary.openingBalance := FinancialReports.OPENINGBALANCE ledger;
     GroupSummary.closingBalance := FinancialReports.CLOSINGBALANCE ledger |}.
(** * Properties *)

(** ** Loops *)

Lemma forRange_ind {A} (P : nat → A → Prop) (f : A → nat → A) :
  ∀ len start a,
    P start a →
    (∀ k b, start ≤ k < start + len → P k b → P (S k) (f b k)) →
    P (start + len) (forRange start len f a).
Proof.
  unfold forRange. induction len as [|len IH]; intros start a Ha Hstep; simpl.
  - by rewrite Nat.add_0_r.
  - replace (start + S len) with (S start + len) by lia.
    apply IH.
    + apply Hstep; [lia | done].
    + intros k b Hk. apply Hstep. lia.
Qed.

(** ** The table of [levenshteinDistance] computes the edit distance *)

Section NameSimilarityFacts.
Context {C : Type} `{EqDecision C}.
Implicit Types s t xs ys : list C.
Implicit Types x y : C.

Lemma levRec_nil_r xs : levRec xs [] = length xs.
Proof. by destruct xs. Qed.

Lemma levRec_cons x xs y ys :
  levRec (x :: xs) (y :: ys) =
    if bool_decide (x = y) then levRec xs ys
    else 1 + Nat.min (Nat.min (levRec xs (y :: ys)) (levRec (x :: xs) ys))
                     (levRec xs ys).
Proof. reflexivity. Qed.

Lemma levRec_sym xs : ∀ ys, levRec xs ys = levRec ys xs.
Proof.
  induction xs as [|x xs IHx]; intros ys.
  - by rewrite levRec_nil_r.
  - induction ys as [|y ys IHy]; [done|].
    rewrite !levRec_cons.
    rewrite (IHx ys), (IHx (y :: ys)), IHy.
    destruct (decide (x = y)) as [->|Hne].
    + by rewrite !bool_decide_eq_true_2.
    + rewrite !bool_decide_eq_false_2 by congruence. lia.
Qed.

Lemma cellSpec_0_l s1 s2 (j : nat) : j ≤ length s2 → cellSpec s1 s2 0 j = j.
Proof.
  intros Hj. unfold cellSpec. rewrite take_0. simpl.
  rewrite length_rev, length_take. lia.
Qed.

Lemma cellSpec_0_r s1 s2 (i : nat) : i ≤ length s1 → cellSpec s1 s2 i 0 = i.
Proof.
  intros Hi. unfold cellSpec. rewrite (take_0 s2). simpl.
  rewrite levRec_nil_r, length_rev, length_take. lia.
Qed.

Lemma cellSpec_S s1 s2 (i j : nat) :
  i < length s1 → j < length s2 →
  cellSpec s1 s2 (S i) (S j) =
    if bool_decide (s1 !! i = s2 !! j) then cellSpec s1 s2 i j
    else 1 + Nat.min (Nat.min (cellSpec s1 s2 i (S j)) (cellSpec s1 s2 (S i) j))
                     (cellSpec s1 s2 i j).
Proof.
  intros Hi Hj. unfold cellSpec.
  destruct (lookup_lt_is_Some_2 s1 i Hi) as [x Hx].
  destruct (lookup_lt_is_Some_2 s2 j Hj) as [y Hy].
  rewrite (take_S_r s1 i x Hx), (take_S_r s2 j y Hy), !rev_unit.
  rewrite levRec_cons, Hx, Hy.
  destruct (decide (x = y)) as [->|Hne].
  - by rewrite !bool_decide_eq_true_2.
  - rewrite !bool_decide_eq_false_2 by congruence. done.
Qed.

Lemma cellSpec_sym s1 s2 i j : cellSpec s1 s2 i j = cellSpec s2 s1 j i.
Proof. apply levRec_sym. Qed.

(** *** The table is filled with the recurrence *)

Lemma dpShape_replicate m n : dpShape m n (replicate (m + 1) (replicate (n + 1) 0)).
Proof.
  split; [by rewrite length_replicate|].
  intros i row [-> _]%lookup_replicate. by rewrite length_replicate.
Qed.

Lemma dpShape_set m n dp i j v : dpShape m n dp → dpShape m n (dpSet dp i j v).
Proof.
  intros [Hlen Hrows]. unfold dpSet. split; [by rewrite length_alter|].
  intros k row. rewrite list_lookup_alter. case_decide as Hk.
  - subst k. destruct (dp !! i) as [r|] eqn:Hr; simpl; [|done].
    intros [= <-]. rewrite length_insert. eauto.
  - eauto.
Qed.

Lemma dpGet_set m n dp i j v i' j' :
  dpShape m n dp → i ≤ m → j ≤ n →
  dpGet (dpSet dp i j v) i' j' =
    if decide (i = i' ∧ j = j') then v else dpGet dp i' j'.
Proof.
  intros [Hlen Hrows] Hi Hj. unfold dpGet, dpSet.
  rewrite list_lookup_alter.
  destruct (decide (i = i')) as [<-|Hne].
  - destruct (lookup_lt_is_Some_2 dp i) as [row Hrow]; [lia|].
    rewrite Hrow. simpl. specialize (Hrows _ _ Hrow).
    destruct (decide (j = j')) as [<-|Hnej].
    + rewrite decide_True by done.
      rewrite list_lookup_insert_eq by lia. done.
    + rewrite decide_False by tauto.
      by rewrite list_lookup_insert_ne.
  - rewrite decide_False by tauto. done.
Qed.

Lemma fillCell_shape m n s1 s2 i dp j :
  dpShape m n dp → dpShape m n (fillCell s1 s2 i dp j).
Proof. intros Hs. unfold fillCell. case_bool_decide; by apply dpShape_set. Qed.

Lemma dpFilled_set s1 s2 (known known' : nat → nat → Prop) dp i j :
  dpFilled s1 s2 known dp →
  i ≤ length s1 → j ≤ length s2 →
  (∀ a b, known' a b → (a = i ∧ b = j) ∨ known a b) →
  dpFilled s1 s2 known' (dpSet dp i j (cellSpec s1 s2 i j)).
Proof.
  intros [Hshape Hk] Hi Hj Hsub. split; [by apply dpShape_set|].
  intros a b Ha Hb Hab.
  rewrite (dpGet_set _ _ _ _ _ _ _ _ Hshape Hi Hj).
  case_decide as Heq; [by destruct Heq as [-> ->]|].
  destruct (Hsub _ _ Hab) as [[-> ->]|Hold]; [tauto|]. by apply Hk.
Qed.

Lemma fillCell_spec s1 s2 (known : nat → nat → Prop) dp i j :
  dpFilled s1 s2 known dp →
  1 ≤ i ≤ length s1 → 1 ≤ j ≤ length s2 →
  known (i - 1) (j - 1) → known (i - 1) j → known i (j - 1) →
  fillCell s1 s2 i dp j = dpSet dp i j (cellSpec s1 s2 i j).
Proof.
  intros [Hshape Hk] Hi Hj Hd Hu Hl. unfold fillCell.
  rewrite !Hk by (done || lia).
  replace (cellSpec s1 s2 i j) with (cellSpec s1 s2 (S (i - 1)) (S (j - 1)))
    by (f_equal; lia).
  rewrite cellSpec_S by lia.
  replace (S (i - 1)) with i by lia. replace (S (j - 1)) with j by lia.
  by case_bool_decide.
Qed.

Lemma levenshteinDistance_spec s1 s2 :
  levenshteinDistance s1 s2 = levRec (rev s1) (rev s2).
Proof.
  unfold levenshteinDistance.
  set (m := length s1). set (n := length s2).
  set (dp0 := replicate (m + 1) (replicate (n + 1) 0)).
  (* first column *)
  assert (H1 : dpFilled s1 s2 (λ a b, b = 0 ∧ a < 0 + (m + 1))
                 (forRange 0 (m + 1) (λ dp i, dpSet dp i 0 i) dp0)).
  { apply (forRange_ind (λ k dp, dpFilled s1 s2 (λ a b, b = 0 ∧ a < k) dp)).
    - split; [apply dpShape_replicate|]. intros a b _ _ [_ Ha]. lia.
    - intros k dp Hk Hdp.
      replace (dpSet dp k 0 k) with (dpSet dp k 0 (cellSpec s1 s2 k 0))
        by (rewrite cellSpec_0_r; [done | unfold m in Hk; lia]).
      eapply dpFilled_set; [exact Hdp | unfold m in Hk; lia | lia |].
      intros a b [-> Ha]. destruct (decide (a = k)); [by left | right; lia]. }
  set (dp1 := forRange 0 (m + 1) _ dp0) in *.
  (* first row *)
  assert (H2 : dpFilled s1 s2 (λ a b, b = 0 ∨ (a = 0 ∧ b < 0 + (n + 1)))
                 (forRange 0 (n + 1) (λ dp j, dpSet dp 0 j j) dp1)).
  { apply (forRange_ind
             (λ k dp, dpFilled s1 s2 (λ a b, b = 0 ∨ (a = 0 ∧ b < k)) dp)).
    - destruct H1 as [Hs Hk]. split; [done|].
      intros a b Ha Hb [->|[_ ?]]; [|lia]. apply Hk; [done | lia |].
      split; [done | unfold m; lia].
    - intros k dp Hk Hdp.
      replace (dpSet dp 0 k k) with (dpSet dp 0 k (cellSpec s1 s2 0 k))
        by (rewrite cellSpec_0_l; [done | unfold n in Hk; lia]).
      eapply dpFilled_set; [exact Hdp | lia | unfold n in Hk; lia |].
      intros a b [->|[-> Hb]]; [right; by left|].
      destruct (decide (b = k)); [by left | right; right; lia]. }
  set (dp2 := forRange 0 (n + 1) _ dp1) in *.
  (* the remaining rows, one after the other *)
  assert (H3 : dpFilled s1 s2 (λ a b, b = 0 ∨ a < 1 + m)
                 (forRange 1 m (λ dp i, forRange 1 n (fillCell s1 s2 i) dp) dp2)).
  { apply (forRange_ind (λ k dp, dpFilled s1 s2 (λ a b, b = 0 ∨ a < k) dp)).
    - destruct H2 as [Hs Hk]. split; [done|].
      intros a b Ha Hb Hab. apply Hk; [done..|].
      destruct Hab as [->|?]; [by left | right; split; lia].
    - intros i dp Hi Hdp.
      assert (Hrow : dpFilled s1 s2
                       (λ a b, b = 0 ∨ a < i ∨ (a = i ∧ b < 1 + n))
                       (forRange 1 n (fillCell s1 s2 i) dp)).
      { apply (forRange_ind
                 (λ k dp', dpFilled s1 s2
                             (λ a b, b = 0 ∨ a < i ∨ (a = i ∧ b < k)) dp')).
        - destruct Hdp as [Hs Hk]. split; [done|].
          intros a b Ha Hb Hab. apply Hk; [done..|].
          destruct Hab as [->|[?|[_ ?]]]; [by left | by right | left; lia].
        - intros j dp' Hj Hdp'.
          rewrite (fillCell_spec _ _ _ _ _ _ Hdp');
            [| unfold m in Hi; lia | unfold n in Hj; lia
             | right; left; lia | right; left; lia
             | destruct (decide (j = 1)); [left; lia | right; right; lia]].
          eapply dpFilled_set;
            [exact Hdp' | unfold m in Hi; lia | unfold n in Hj; lia |].
          intros a b [->|[?|[-> Hb]]]; [right; by left | right; right; by left |].
          destruct (decide (b = j)); [by left | right; right; right; lia]. }
      destruct Hrow as [Hs Hk]. split; [done|].
      intros a b Ha Hb [->|Hlt]; apply Hk; try done; [by left|].
      destruct (decide (a = i)) as [->|]; [|right; left; lia].
      right; right. split; [done | unfold n; lia]. }
  destruct H3 as [_ Hk]. rewrite Hk; [| done | done | right; unfold m; lia].
  unfold cellSpec, m, n. by rewrite !firstn_all.
Qed.

Lemma levenshteinDistance_sym s1 s2 :
  levenshteinDistance s1 s2 = levenshteinDistance s2 s1.
Proof. rewrite !levenshteinDistance_spec. apply levRec_sym. Qed.

(** *** The recurrence is the Wagner-Fischer one *)

Lemma wagnerFischer_nil_r xs : wagnerFischer xs [] = length xs.
Proof. by destruct xs. Qed.

Lemma wagnerFischer_cons x xs y ys :
  wagnerFischer (x :: xs) (y :: ys) =
    Nat.min (Nat.min (1 + wagnerFischer xs (y :: ys)) (1 + wagnerFischer (x :: xs) ys))
            ((if bool_decide (x = y) then 0 else 1) + wagnerFischer xs ys).
Proof. reflexivity. Qed.

Lemma wagnerFischer_sym xs : ∀ ys, wagnerFischer xs ys = wagnerFischer ys xs.
Proof.
  induction xs as [|x xs IHx]; intros ys.
  - by rewrite wagnerFischer_nil_r.
  - induction ys as [|y ys IHy]; [done|].
    rewrite !wagnerFischer_cons, (IHx ys), (IHx (y :: ys)), IHy.
    destruct (decide (x = y)) as [->|Hne].
    + rewrite !bool_decide_eq_true_2 by done. lia.
    + rewrite !bool_decide_eq_false_2 by congruence. lia.
Qed.

(** Appending a unit to the second string costs at most an insertion. *)
Lemma wagnerFischer_insert xs y ys :
  wagnerFischer xs (y :: ys) ≤ 1 + wagnerFischer xs ys.
Proof.
  destruct xs as [|x xs]; [simpl; lia|].
  rewrite wagnerFischer_cons. lia.
Qed.

(** Dropping a unit of the first string saves at most one edit. *)
Lemma wagnerFischer_delete ys : ∀ x xs,
  wagnerFischer xs ys ≤ 1 + wagnerFischer (x :: xs) ys.
Proof.
  induction ys as [|y ys IH]; intros x xs.
  - rewrite !wagnerFischer_nil_r. simpl. lia.
  - rewrite wagnerFischer_cons.
    pose proof (wagnerFischer_insert xs y ys).
    pose proof (IH x xs).
    case_bool_decide; lia.
Qed.

Lemma levRec_wagnerFischer xs : ∀ ys, levRec xs ys = wagnerFischer xs ys.
Proof.
  induction xs as [|x xs IHx]; intros ys; [done|].
  induction ys as [|y ys IHy]; [done|].
  rewrite levRec_cons, wagnerFischer_cons, IHx, IHx, IHy.
  pose proof (wagnerFischer_delete ys x xs) as Hd.
  pose proof (wagnerFischer_delete xs y ys) as Hi.
  rewrite (wagnerFischer_sym ys xs), (wagnerFischer_sym (y :: ys) xs) in Hi.
  case_bool_decide; lia.
Qed.

Lemma levenshteinDistance_levenshtein s1 s2 :
  levenshteinDistance s1 s2 = levenshtein s1 s2.
Proof. rewrite levenshteinDistance_spec. apply levRec_wagnerFischer. Qed.

(** *** [includes] is the substring test *)

Lemma startsWith_spec s t : startsWith s t = true ↔ ∃ suf, s = t ++ suf.
Proof.
  revert s. induction t as [|y t IH]; intros s; simpl.
  - split; [eauto | by destruct s].
  - destruct s as [|x s].
    + split; [done | by intros [? ?]].
    + change (startsWith (x :: s) (y :: t))
        with (bool_decide (x = y) && startsWith s t).
      rewrite andb_true_iff, bool_decide_eq_true, IH. split.
      * intros [-> [suf ->]]. eauto.
      * intros [suf [= -> ->]]. eauto.
Qed.

Lemma includes_nil t : includes [] t = startsWith [] t.
Proof. change (includes [] t) with (startsWith [] t || false). apply orb_false_r. Qed.

Lemma includes_cons x s t :
  includes (x :: s) t = startsWith (x :: s) t || includes s t.
Proof. reflexivity. Qed.

Lemma includes_spec s t : includes s t = true ↔ isSubstringOf t s.
Proof.
  unfold isSubstringOf. induction s as [|x s IH].
  - rewrite includes_nil, startsWith_spec. split.
    + intros [suf Hs]. by exists [], suf.
    + intros (pre & suf & Hs). destruct pre; [eauto | done].
  - rewrite includes_cons, orb_true_iff, startsWith_spec, IH. split.
    + intros [[suf Hs]|(pre & suf & ->)].
      * by exists [], suf.
      * by exists (x :: pre), suf.
    + intros (pre & suf & Hs). destruct pre as [|p pre].
      * left. by exists suf.
      * right. injection Hs as -> ->. eauto.
Qed.

Lemma includes_false s t : includes s t = false ↔ ¬ isSubstringOf t s.
Proof. rewrite <- includes_spec. by destruct (includes s t). Qed.

Lemma Qgtb_spec (x y : Q) : Qgtb x y = true ↔ (y < x)%Q.
Proof.
  unfold Qgtb. rewrite negb_true_iff. split.
  - intros Hle. apply Qnot_le_lt. intros Hxy.
    apply Qle_bool_iff in Hxy. congruence.
  - intros Hlt. destruct (Qle_bool x y) eqn:Hle; [|done].
    apply Qle_bool_iff in Hle. exfalso. by apply (Qlt_not_le _ _ Hlt).
Qed.

Lemma similarity_similarityOf s1 s2 :
  similarity (levenshteinDistance s1 s2) (Nat.max (length s1) (length s2))
  = similarityOf s1 s2.
Proof. unfold similarity, similarityOf. by rewrite levenshteinDistance_levenshtein. Qed.

Lemma isSimilarName_codeSimilar s1 s2 :
  isSimilarName s1 s2 = true ↔ codeSimilar s1 s2.
Proof.
  unfold isSimilarName, codeSimilar.
  case_bool_decide as Heq; [split; [done | tauto]|].
  destruct (includes s1 s2 || includes s2 s1) eqn:Hinc.
  - apply orb_true_iff in Hinc. rewrite !includes_spec in Hinc.
    rewrite andb_true_iff, !bool_decide_eq_true. split.
    + intros [? ?]. split; [done|]. left. tauto.
    + intros [_ [[_ [? ?]]|[H1 [H2 _]]]]; [done | tauto].
  - apply orb_false_iff in Hinc. rewrite !includes_false in Hinc.
    rewrite andb_true_iff, Qgtb_spec, bool_decide_eq_true, similarity_similarityOf.
    split.
    + intros [? ?]. split; [done|]. right. tauto.
    + intros [_ [[[?|?] _]|(_ & _ & ? & ?)]]; tauto.
Qed.

Lemma isSimilarName_sym s1 s2 : isSimilarName s1 s2 = isSimilarName s2 s1.
Proof.
  destruct (decide (s1 = s2)) as [->|Hne]; [done|].
  unfold isSimilarName.
  rewrite (bool_decide_eq_false_2 (s1 = s2)), (bool_decide_eq_false_2 (s2 = s1))
    by congruence.
  rewrite (levenshteinDistance_sym s2 s1), (Nat.max_comm (length s2)).
  rewrite (orb_comm (includes s2 s1)), (andb_comm (bool_decide (3 < length s2))).
  done.
Qed.

Lemma isSimilarName_irrefl s : isSimilarName s s = false.
Proof. unfold isSimilarName. by rewrite bool_decide_eq_true_2. Qed.

End NameSimilarityFacts.

(** ** The configuration audit *)

Section AuditFacts.
Import ConfigAudit.

Lemma elem_of_List_filter {A} (f : A → bool) (l : list A) (x : A) :
  x ∈ List.filter f l ↔ x ∈ l ∧ f x = true.
Proof. rewrite !list_elem_of_In. apply filter_In. Qed.

Lemma List_filter_all {A} (f : A → bool) (l : list A) :
  Forall (λ x, f x = true) l → List.filter f l = l.
Proof. induction 1 as [|x l Hx _ IH]; simpl; [done|]. by rewrite Hx, IH. Qed.

Lemma List_filter_none {A} (f : A → bool) (l : list A) :
  Forall (λ x, f x = false) l → List.filter f l = [].
Proof. induction 1 as [|x l Hx _ IH]; simpl; [done|]. by rewrite Hx. Qed.

Lemma allOf_nil c : allOf c [].
Proof. constructor. Qed.

Lemma allOf_app c l1 l2 : allOf c l1 → allOf c l2 → allOf c (l1 ++ l2).
Proof. intros. by apply Forall_app. Qed.

Lemma allOf_flat_map {A} c (f : A → list AuditIssue) (l : list A) :
  (∀ x, allOf c (f x)) → allOf c (flat_map f l).
Proof. intros Hf. apply Forall_flat_map, Forall_forall. intros x _. apply Hf. Qed.

Lemma allOf_mkIssue c i s t items fixable fix_ :
  allOf c [mkIssue i c s t items fixable fix_].
Proof. by repeat constructor. Qed.

Lemma allOf_listIssue c i s t shown names : allOf c (listIssue i c s t shown names).
Proof. unfold listIssue. case_bool_decide; [apply allOf_mkIssue | apply allOf_nil]. Qed.

Lemma allOf_fmap {A} c (f : A → AuditIssue) (l : list A) :
  (∀ x, category (f x) = c) → allOf c (f <$> l).
Proof. intros Hf. apply Forall_fmap, Forall_forall. intros x _. apply Hf. Qed.

Ltac allOf_tac :=
  repeat first
    [ apply allOf_nil | apply allOf_mkIssue | apply allOf_listIssue
    | apply allOf_app | apply allOf_flat_map; intros ?
    | match goal with
      | |- allOf _ (if ?b then _ else _) => destruct b
      | |- allOf _ (match ?x with _ => _ end) => destruct x
      end ].

Lemma auditCompanyInfo_category conn : allOf CompanyInfo (auditCompanyInfo conn).
Proof. unfold auditCompanyInfo, companyIssues. allOf_tac. Qed.

Lemma auditGSTConfiguration_category r : allOf GST (auditGSTConfiguration r).
Proof.
  unfold auditGSTConfiguration, gstNamingIssues, gstUnconfiguredIssue, gstMissingIssue.
  allOf_tac.
Qed.

Lemma auditTDSConfiguration_category r : allOf TDS (auditTDSConfiguration r).
Proof.
  unfold auditTDSConfiguration, tdsExpenseIssues, tdsMissingIssue. allOf_tac.
Qed.

Lemma auditLedgerClassification_category r :
  allOf LedgerClassification (auditLedgerClassification r).
Proof.
  unfold auditLedgerClassification, suspenseIssues, misclassIssues.
  destruct r; [|apply allOf_nil].
  repeat apply allOf_app; [allOf_tac.. |].
  by apply allOf_fmap.
Qed.

Lemma auditPartyMasters_category r : allOf PartyMaster (auditPartyMasters r).
Proof. unfold auditPartyMasters. allOf_tac. Qed.

Lemma auditStockItems_category r : allOf StockItemCategory (auditStockItems r).
Proof. unfold auditStockItems. allOf_tac. Qed.

Lemma inCategory_app c l1 l2 :
  inCategory c (l1 ++ l2) = inCategory c l1 ++ inCategory c l2.
Proof. apply List.filter_app. Qed.

Lemma inCategory_same c l : allOf c l → inCategory c l = l.
Proof.
  intros Hl. apply List_filter_all. eapply Forall_impl; [exact Hl|].
  intros i Hi. by apply bool_decide_eq_true.
Qed.

Lemma inCategory_other c c' l : allOf c' l → c ≠ c' → inCategory c l = [].
Proof.
  intros Hl Hne. apply List_filter_none. eapply Forall_impl; [exact Hl|].
  intros i Hi. apply bool_decide_eq_false. congruence.
Qed.

(** The report lists the issues of the six checks, one check after the
    other, and scores each check on its own issues. *)
Lemma runFullAudit_success conn report :
  runFullAudit conn = Success report →
  let company := auditCompanyInfo conn in
  let gst_ := auditGSTConfiguration (gstLedgers conn) in
  let tds_ := auditTDSConfiguration (tdsLedgers conn) in
  let ledger := auditLedgerClassification (classificationLedgers conn) in
  let party := auditPartyMasters (partyLedgers conn) in
  let stock := auditStockItems (stockItemsReply conn) in
  issues report = company ++ gst_ ++ tds_ ++ ledger ++ party ++ stock ∧
  overallScore report = overallScoreOf (issues report) ∧
  gst (categories report) = calculateCategoryScore gst_ "GST" ∧
  tds (categories report) = calculateCategoryScore tds_ "TDS" ∧
  ledgerClassification (categories report)
    = calculateCategoryScore ledger "Ledger Classification" ∧
  partyMaster (categories report) = calculateCategoryScore party "Party Master" ∧
  stockItems (categories report) = calculateCategoryScore stock "Stock Items" ∧
  companyInfo (categories report) = calculateCategoryScore company "Company Info".
Proof.
  unfold runFullAudit. destruct (getCompanyName conn) as [[|a s]|]; [done| |done].
  intros [= <-]. simpl. tauto.
Qed.

Lemma runFullAudit_categories conn report :
  runFullAudit conn = Success report →
  inCategory CompanyInfo (issues report) = auditCompanyInfo conn ∧
  inCategory GST (issues report) = auditGSTConfiguration (gstLedgers conn) ∧
  inCategory TDS (issues report) = auditTDSConfiguration (tdsLedgers conn) ∧
  inCategory LedgerClassification (issues report)
    = auditLedgerClassification (classificationLedgers conn) ∧
  inCategory PartyMaster (issues report) = auditPartyMasters (partyLedgers conn) ∧
  inCategory StockItemCategory (issues report) = auditStockItems (stockItemsReply conn).
Proof.
  intros Hrun. destruct (runFullAudit_success _ _ Hrun) as [-> _].
  pose proof (auditCompanyInfo_category conn) as Hc.
  pose proof (auditGSTConfiguration_category (gstLedgers conn)) as Hg.
  pose proof (auditTDSConfiguration_category (tdsLedgers conn)) as Ht.
  pose proof (auditLedgerClassification_category (classificationLedgers conn)) as Hl.
  pose proof (auditPartyMasters_category (partyLedgers conn)) as Hp.
  pose proof (auditStockItems_category (stockItemsReply conn)) as Hs.
  rewrite !inCategory_app.
  repeat split;
    repeat first
      [ rewrite (inCategory_same _ _ Hc) | rewrite (inCategory_same _ _ Hg)
      | rewrite (inCategory_same _ _ Ht) | rewrite (inCategory_same _ _ Hl)
      | rewrite (inCategory_same _ _ Hp) | rewrite (inCategory_same _ _ Hs)
      | rewrite (inCategory_other _ _ _ Hc) by done
      | rewrite (inCategory_other _ _ _ Hg) by done
      | rewrite (inCategory_other _ _ _ Ht) by done
      | rewrite (inCategory_other _ _ _ Hl) by done
      | rewrite (inCategory_other _ _ _ Hp) by done
      | rewrite (inCategory_other _ _ _ Hs) by done ];
    by rewrite ?app_nil_r.
Qed.

Lemma calculateCategoryScore_score l categoryName :
  score (calculateCategoryScore l categoryName) = weightedScore 20 10 5 2 l.
Proof. unfold calculateCategoryScore, weightedScore, clamp. simpl. lia. Qed.

Lemma overallScoreOf_weighted l : overallScoreOf l = weightedScore 15 8 3 1 l.
Proof. unfold overallScoreOf, weightedScore, clamp. lia. Qed.

(** C1. In every audit run the score of each category is 100 minus 20 per
    Critical, 10 per High, 5 per Medium and 2 per Low issue of that
    category, clamped to [0, 100], and the overall score is 100 minus 15 per
    Critical, 8 per High, 3 per Medium and 1 per Low issue over all the
    issues of the report, clamped to [0, 100]. *)
Theorem audit_scores conn report :
  runFullAudit conn = Success report →
  score (gst (categories report))
    = weightedScore 20 10 5 2 (inCategory GST (issues report)) ∧
  score (tds (categories report))
    = weightedScore 20 10 5 2 (inCategory TDS (issues report)) ∧
  score (ledgerClassification (categories report))
    = weightedScore 20 10 5 2 (inCategory LedgerClassification (issues report)) ∧
  score (partyMaster (categories report))
    = weightedScore 20 10 5 2 (inCategory PartyMaster (issues report)) ∧
  score (stockItems (categories report))
    = weightedScore 20 10 5 2 (inCategory StockItemCategory (issues report)) ∧
  score (companyInfo (categories report))
    = weightedScore 20 10 5 2 (inCategory CompanyInfo (issues report)) ∧
  overallScore report = weightedScore 15 8 3 1 (issues report).
Proof.
  intros Hrun.
  destruct (runFullAudit_categories _ _ Hrun) as (-> & -> & -> & -> & -> & ->).
  destruct (runFullAudit_success _ _ Hrun)
    as (_ & -> & -> & -> & -> & -> & -> & ->).
  rewrite !calculateCategoryScore_score, overallScoreOf_weighted. done.
Qed.

End AuditFacts.

Section AuditClaims.
Import ConfigAudit.

(** A run of the audit on the snapshot of the presence-rule scenario. *)
Lemma audit_scores_witness :
  ∃ report,
    runFullAudit (snapshotOf [plainLedger "Output CGST" "Duties & Taxes"])
      = Success report ∧
    score (gst (categories report)) = 0%Z ∧
    score (tds (categories report)) = 50%Z ∧
    overallScore report = 0%Z.
Proof.
  destruct (runFullAudit (snapshotOf [plainLedger "Output CGST" "Duties & Taxes"]))
    as [report|err] eqn:Hrun; [|by vm_compute in Hrun].
  exists report. split; [reflexivity|].
  destruct (audit_scores _ _ Hrun) as (Hg & Ht & _ & _ & _ & _ & Ho).
  rewrite Hg, Ht, Ho.
  vm_compute in Hrun. injection Hrun as <-.
  repeat split; vm_compute; reflexivity.
Defined.

(** C6. The audit is a function of the company and of the replies it gets,
    so two runs on an unchanged snapshot agree; but issue ids repeat: a
    ledger that two misclassification rules match gets two issues with one
    id.  Here "FD Security Deposit" under Current Assets matches the rule
    for fixed deposits and the rule for security deposits. *)
Theorem misclassification_ids_repeat :
  ∃ report,
    runFullAudit (snapshotOf [plainLedger "FD Security Deposit" "Current Assets"])
      = Success report ∧
    id <$> inCategory LedgerClassification (issues report)
      = ["LEDGER_MISCLASS_FD Security Deposit";
         "LEDGER_MISCLASS_FD Security Deposit"] ∧
    (fixAction <$> inCategory LedgerClassification (issues report))
      = [ Some {| type := regroup_ledger;
                  targetName := VString "FD Security Deposit";
                  changes := [("parent", CString "Investments")] |};
          Some {| type := regroup_ledger;
                  targetName := VString "FD Security Deposit";
                  changes := [("parent", CString "Deposits (Asset)")] |} ] ∧
    ¬ NoDup (id <$> issues report).
Proof.
  eexists. split; [reflexivity|]. split; [by vm_compute|]. split; [by vm_compute|].
  intros Hnd. apply NoDup_ListNoDup in Hnd.
  vm_compute in Hnd.
  repeat match type of Hnd with
         | List.NoDup (_ :: _) =>
             let Hin := fresh in
             apply List.NoDup_cons_iff in Hnd as [Hin Hnd];
             try (apply Hin; simpl; tauto)
         end.
Qed.

(** Two runs of the audit that are given the same company and the same
    replies produce the same report. *)
Lemma runFullAudit_deterministic conn1 conn2 :
  conn1 = conn2 → runFullAudit conn1 = runFullAudit conn2.
Proof. by intros ->. Qed.

(** C7, as the code has it.  On the snapshot of C7 the GST check of the
    full audit emits exactly five issues: the two of the claim and the
    three missing Input ledgers; all five are Critical and auto-fixable. *)
Theorem gst_presence_scenario conn report l :
  runFullAudit conn = Success report →
  gstLedgers conn = Success [l] →
  NAME l = VString "Output CGST" →
  PARENT l = VString "Duties & Taxes" →
  inCategory GST (issues report) = gstMissingIssue <$> absentGstLedgers ∧
  id <$> inCategory GST (issues report)
    = ["GST_OUTPUT_IGST_MISSING"; "GST_OUTPUT_SGST_MISSING";
       "GST_INPUT_IGST_MISSING"; "GST_INPUT_CGST_MISSING";
       "GST_INPUT_SGST_MISSING"] ∧
  Forall (λ i, severity i = Critical ∧ autoFixable i = true)
         (inCategory GST (issues report)).
Proof.
  intros Hrun Hreply Hname Hparent.
  destruct (runFullAudit_categories _ _ Hrun) as (_ & -> & _).
  rewrite Hreply.
  assert (auditGSTConfiguration (Success [l]) = gstMissingIssue <$> absentGstLedgers)
    as ->.
  { destruct l. simpl in Hname, Hparent. subst. by vm_compute. }
  split; [done|]. split; [by vm_compute|].
  repeat constructor.
Qed.

Lemma gst_presence_scenario_witness :
  ∃ report,
    runFullAudit (snapshotOf [plainLedger "Output CGST" "Duties & Taxes"])
      = Success report ∧
    id <$> inCategory GST (issues report)
      = ["GST_OUTPUT_IGST_MISSING"; "GST_OUTPUT_SGST_MISSING";
         "GST_INPUT_IGST_MISSING"; "GST_INPUT_CGST_MISSING";
         "GST_INPUT_SGST_MISSING"].
Proof.
  eexists. split; [reflexivity|].
  apply (gst_presence_scenario
           (snapshotOf [plainLedger "Output CGST" "Duties & Taxes"]) _
           (plainLedger "Output CGST" "Duties & Taxes"));
    reflexivity.
Defined.

(** C7 as stated fails: on its snapshot, with a company whose details are
    all in order, the full audit emits five Critical issues, not two. *)
Lemma gst_presence_counterexample :
  ∃ report,
    runFullAudit (snapshotOf [plainLedger "Output CGST" "Duties & Taxes"])
      = Success report ∧
    id <$> List.filter (λ i, bool_decide (severity i = Critical)) (issues report)
      = ["GST_OUTPUT_IGST_MISSING"; "GST_OUTPUT_SGST_MISSING";
         "GST_INPUT_IGST_MISSING"; "GST_INPUT_CGST_MISSING";
         "GST_INPUT_SGST_MISSING"] ∧
    criticalIssues report = 5%nat ∧
    criticalIssues report ≠ 2%nat.
Proof.
  eexists. split; [reflexivity|]. split; [by vm_compute|]. split; [by vm_compute|].
  by vm_compute.
Qed.

(** C10, as the code has it.  With a company selected the audit always
    returns a report, whatever requests fail.  Each check is scored on
    what its own request returned, and a check whose request failed is
    reported exactly like a check that found nothing: no issue, score 100,
    status Good and the "looks good" summary. *)
Theorem failed_fetch_reported_as_clean conn selected :
  getCompanyName conn = Some selected →
  selected ≠ "" →
  ∃ report,
    runFullAudit conn = Success report ∧
    gst (categories report)
      = calculateCategoryScore (auditGSTConfiguration (gstLedgers conn)) "GST" ∧
    tds (categories report)
      = calculateCategoryScore (auditTDSConfiguration (tdsLedgers conn)) "TDS" ∧
    ledgerClassification (categories report)
      = calculateCategoryScore
          (auditLedgerClassification (classificationLedgers conn))
          "Ledger Classification" ∧
    partyMaster (categories report)
      = calculateCategoryScore (auditPartyMasters (partyLedgers conn)) "Party Master" ∧
    stockItems (categories report)
      = calculateCategoryScore (auditStockItems (stockItemsReply conn)) "Stock Items" ∧
    companyInfo (categories report)
      = calculateCategoryScore (auditCompanyInfo conn) "Company Info" ∧
    (∀ e, gstLedgers conn = Failure e →
          inCategory GST (issues report) = [] ∧
          gst (categories report) = cleanCategory "GST") ∧
    (∀ e, tdsLedgers conn = Failure e →
          inCategory TDS (issues report) = [] ∧
          tds (categories report) = cleanCategory "TDS") ∧
    (∀ e, classificationLedgers conn = Failure e →
          inCategory LedgerClassification (issues report) = [] ∧
          ledgerClassification (categories report)
            = cleanCategory "Ledger Classification") ∧
    (∀ e, partyLedgers conn = Failure e →
          inCategory PartyMaster (issues report) = [] ∧
          partyMaster (categories report) = cleanCategory "Party Master") ∧
    (∀ e, stockItemsReply conn = Failure e →
          inCategory StockItemCategory (issues report) = [] ∧
          stockItems (categories report) = cleanCategory "Stock Items") ∧
    (∀ e, getCompanyList conn = Failure e →
          inCategory CompanyInfo (issues report) = [] ∧
          companyInfo (categories report) = cleanCategory "Company Info").
Proof.
  intros Hname Hne.
  destruct (runFullAudit conn) as [report|err] eqn:Hrun.
  2:{ unfold runFullAudit in Hrun. rewrite Hname in Hrun.
      by destruct selected. }
  exists report. split; [done|].
  destruct (runFullAudit_success _ _ Hrun)
    as (_ & _ & Hg & Ht & Hl & Hp & Hs & Hc).
  destruct (runFullAudit_categories _ _ Hrun)
    as (Hc' & Hg' & Ht' & Hl' & Hp' & Hs').
  repeat split; try done.
  all: match goal with He : _ = Failure _ |- _ =>
         first [ rewrite Hg', He | rewrite Ht', He | rewrite Hl', He
               | rewrite Hp', He | rewrite Hs', He
               | rewrite Hc'; unfold auditCompanyInfo; rewrite He
               | rewrite Hg, He | rewrite Ht, He | rewrite Hl, He
               | rewrite Hp, He | rewrite Hs, He
               | rewrite Hc; unfold auditCompanyInfo; rewrite He ]
       end.
  all: reflexivity.
Qed.

Lemma failed_fetch_reported_as_clean_witness :
  ∃ report,
    runFullAudit (gstFetchFails (snapshotOf [plainLedger "Output CGST" "Duties & Taxes"]))
      = Success report ∧
    gst (categories report) = cleanCategory "GST" ∧
    score (tds (categories report)) = 50%Z.
Proof.
  destruct (failed_fetch_reported_as_clean
              (gstFetchFails (snapshotOf [plainLedger "Output CGST" "Duties & Taxes"]))
              "Acme Traders" eq_refl)
    as (report & Hrun & _ & Ht & _ & _ & _ & _ & Hg & _); [done|].
  exists report. split; [exact Hrun|]. split.
  - by apply (Hg "Tally request failed: timeout").
  - rewrite Ht. by vm_compute.
Defined.

(** C10 as stated fails: a run in which the request of the GST check fails
    returns the very report of a run in which that request returns the six
    GST ledgers in order, so nothing in the report tells the failed check
    from a clean one. *)
Lemma failed_fetch_counterexample :
  gstLedgers (gstFetchFails (snapshotOf allGstLedgers))
    = Failure "Tally request failed: timeout" ∧
  auditGSTConfiguration (gstLedgers (snapshotOf allGstLedgers)) = [] ∧
  runFullAudit (gstFetchFails (snapshotOf allGstLedgers))
    = runFullAudit (snapshotOf allGstLedgers).
Proof. split; [done|]. split; by vm_compute. Qed.

End AuditClaims.

(** ** The duplicate rule *)

Section DuplicateRule.
Import ConfigAudit.

Lemma elem_of_similarTo ledgerNames i at_i l :
  l ∈ similarTo ledgerNames i at_i ↔
  ∃ j, j ≠ i ∧ ledgerNames !! j = Some l ∧
       isSimilarName (Js.units at_i) (Js.units (normalized l)) = true.
Proof.
  unfold similarTo. rewrite list_elem_of_fmap. split.
  - intros ([j l'] & -> & Hin). apply elem_of_List_filter in Hin as [Hin Hf].
    apply elem_of_lookup_imap in Hin as (j' & x & [= -> ->] & Hlook).
    simpl in Hf. apply andb_true_iff in Hf as [Hj Hsim].
    exists j'. split; [|done].
    apply negb_true_iff, Nat.eqb_neq in Hj. done.
  - intros (j & Hj & Hlook & Hsim). exists (j, l). split; [done|].
    apply elem_of_List_filter. split.
    + apply elem_of_lookup_imap. eauto.
    + simpl. apply andb_true_iff. split; [|done].
      by apply negb_true_iff, Nat.eqb_neq.
Qed.

Lemma duplicateGroupsOf_groupOf ledgers group :
  group ∈ duplicateGroupsOf ledgers → groupOf (ledgerNamesOf ledgers) group.
Proof.
  unfold duplicateGroupsOf.
  set (names := ledgerNamesOf ledgers).
  pose proof (forRange_ind
                (λ _ acc, ∀ g, g ∈ acc.1 → groupOf names g)
                (duplicateStep names) (length names) 0 ([], ∅)) as Hind.
  intros Hin. revert group Hin. apply Hind; clear Hind.
  - simpl. intros g Hg. by apply elem_of_nil in Hg.
  - intros k [groups checked] _ IH g. unfold duplicateStep. simpl.
    destruct (names !! k) as [li|] eqn:Hk; [|apply IH].
    case_bool_decide; [apply IH|].
    case_bool_decide as Hlen; [|apply IH].
    simpl. rewrite elem_of_app, list_elem_of_singleton.
    intros [Hg| ->]; [by apply IH|].
    exists k, li. split; [done|]. split; [|done].
    intros Hnil. rewrite Hnil in Hlen. simpl in Hlen. lia.
Qed.

(** [normalized] is the name lower-cased with everything but [a-z0-9]
    removed. *)
Lemma ledgerNamesOf_lookup ledgers i li :
  ledgerNamesOf ledgers !! i = Some li →
  ∃ l, ledgers !! i = Some l ∧
       normalized li = Js.stripNonAlnum (Js.toLowerCase (extractString (NAME l))).
Proof.
  unfold ledgerNamesOf. rewrite list_lookup_fmap.
  destruct (ledgers !! i) as [l|]; [|done]. intros [= <-]. eauto.
Qed.

(** C8, as the code has it.  The similarity test of the duplicate rule
    holds of two names exactly when they differ and either one is a
    substring of the other and both are longer than 3, or neither is a
    substring of the other, the edit-distance similarity exceeds 0.8 and
    the longer one is longer than 5.  The rule applies the test to the
    normalized ledger names; a group it reports is a ledger with all other
    ledgers that pass the test against it, and its issue is never
    auto-fixable. *)
Theorem duplicate_rule_as_coded :
  (∀ (C : Type) (H : EqDecision C) (n1 n2 : list C),
     isSimilarName n1 n2 = true ↔ codeSimilar n1 n2) ∧
  (∀ ledgers issue,
     issue ∈ duplicateIssue <$> duplicateGroupsOf ledgers →
     autoFixable issue = false ∧ fixAction issue = None ∧
     ∃ group, affectedItems issue = Some group ∧
              groupOf (ledgerNamesOf ledgers) group) ∧
  (∀ ledgerNames i at_i l,
     l ∈ similarTo ledgerNames i at_i ↔
     ∃ j, j ≠ i ∧ ledgerNames !! j = Some l ∧
          isSimilarName (Js.units at_i) (Js.units (normalized l)) = true) ∧
  (∀ ledgers i li,
     ledgerNamesOf ledgers !! i = Some li →
     ∃ l, ledgers !! i = Some l ∧
          normalized li
            = Js.stripNonAlnum (Js.toLowerCase (extractString (NAME l)))).
Proof.
  split; [intros; apply isSimilarName_codeSimilar|].
  split; [|split; [apply elem_of_similarTo | apply ledgerNamesOf_lookup]].
  intros ledgers issue (group & -> & Hin)%list_elem_of_fmap.
  split; [done|]. split; [done|]. exists group. split; [done|].
  by apply duplicateGroupsOf_groupOf.
Qed.

(** C8 as stated fails in both directions.  "ab" is a substring of "abc"
    and differs from it, yet the test rejects the pair and the audit
    reports nothing (both must be longer than 3); "abcde" and "abxcde" are
    at similarity 5/6 and the test accepts them although "abcde" is not
    longer than 5. *)
Lemma duplicate_rule_counterexample :
  (specSimilar (Js.units "ab") (Js.units "abc") ∧
   isSimilarName (Js.units "ab") (Js.units "abc") = false ∧
   auditLedgerClassification
     (Success [plainLedger "ab" "Sundry Debtors"; plainLedger "abc" "Sundry Debtors"])
   = []) ∧
  (isSimilarName (Js.units "abcde") (Js.units "abxcde") = true ∧
   ¬ specSimilar (Js.units "abcde") (Js.units "abxcde")).
Proof.
  split.
  - split; [|split; by vm_compute].
    split; [done|]. left. by exists [], (Js.units "c").
  - split; [by vm_compute|].
    intros [_ [Hsub|[Hsub|(_ & Hlen & _)]]].
    + apply includes_spec in Hsub. by vm_compute in Hsub.
    + apply includes_spec in Hsub. by vm_compute in Hsub.
    + vm_compute in Hlen. lia.
Qed.

End DuplicateRule.

(** C9. [isSimilarName] is a total function of its two arguments; it is
    symmetric, and no string is similar to itself. *)
Theorem isSimilarName_symmetric_irreflexive :
  ∀ (C : Type) (H : EqDecision C) (a b : list C),
    (∃ r : bool, isSimilarName a b = r) ∧
    isSimilarName a b = isSimilarName b a ∧
    isSimilarName a a = false.
Proof.
  intros C H a b. split; [eauto|]. split.
  - apply isSimilarName_sym.
  - apply isSimilarName_irrefl.
Qed.

(** ** The statement matcher *)

Section MatcherFacts.
Import BankReconciliation.

Lemma Qleb_spec (x y : Q) : Qleb x y = true ↔ (x <= y)%Q.
Proof. apply Qle_bool_iff. Qed.

Lemma Qltb_spec (x y : Q) : Qltb x y = true ↔ (x < y)%Q.
Proof.
  unfold Qltb. rewrite negb_true_iff. split.
  - intros Hle. apply Qnot_le_lt. intros Hyx.
    apply Qle_bool_iff in Hyx. congruence.
  - intros Hlt. destruct (Qle_bool y x) eqn:Hle; [|done].
    apply Qle_bool_iff in Hle. exfalso. by apply (Qlt_not_le _ _ Hlt).
Qed.

(** The day difference the code computes from two valid dates. *)
Lemma daysDiffOf_valid (e t : Z) :
  ∃ d, daysDiffOf (Some e) (Some t) = Some d ∧
       (d == inject_Z (Z.abs (e - t)) / inject_Z Js.msPerDay)%Q ∧
       (Qleb d dateTolerance = true ↔ (Z.abs (e - t) ≤ 7 * Js.msPerDay)%Z) ∧
       (Qeqb d 0 = true ↔ e = t) ∧
       ((d == 0)%Q ↔ e = t).
Proof.
  eexists. split; [reflexivity|].
  assert (Heq : (Qred (Qabs (inject_Z (e - t) / inject_Z Js.msPerDay))
                 == inject_Z (Z.abs (e - t)) / inject_Z Js.msPerDay)%Q).
  { rewrite Qred_correct. unfold Qeq, Qabs, Qdiv, Qmult, Qinv, inject_Z, Js.msPerDay.
    simpl. lia. }
  assert (Hzero : ((inject_Z (Z.abs (e - t)) / inject_Z Js.msPerDay == 0)%Q ↔ e = t)).
  { unfold Qeq, Qdiv, Qmult, Qinv, inject_Z, Js.msPerDay. simpl. lia. }
  split; [exact Heq|]. split; [|split].
  - rewrite Qleb_spec, Heq.
    unfold dateTolerance, Qle, Qdiv, Qmult, Qinv, inject_Z, Js.msPerDay. simpl. lia.
  - unfold Qeqb. rewrite Qeq_bool_iff, Heq. exact Hzero.
  - rewrite Heq. exact Hzero.
Qed.

Lemma fuzzyCandidate_Some entry txn :
  withinTolerance entry txn →
  ∃ d, fuzzyCandidate (entryAmount entry) (stmtDate entry) txn = Some d ∧
       daysApart entry txn d.
Proof.
  intros [Hamount (e & t & He & Ht & Hdays)].
  destruct (daysDiffOf_valid e t) as (d & Hd & Heq & Hle & _ & Hzero).
  exists d. split.
  - unfold fuzzyCandidate. fold (bookAmount txn).
    rewrite (proj2 (Qltb_spec _ _) Hamount), He, Ht, Hd.
    by rewrite (proj2 Hle Hdays).
  - by exists e, t.
Qed.

Lemma fuzzyCandidate_None entry txn :
  ¬ withinTolerance entry txn →
  fuzzyCandidate (entryAmount entry) (stmtDate entry) txn = None.
Proof.
  intros Hnot. unfold fuzzyCandidate. fold (bookAmount txn).
  destruct (Qltb _ 1) eqn:Hamount; [|done].
  apply Qltb_spec in Hamount.
  destruct (stmtDate entry) as [e|] eqn:He; [|done].
  destruct (date txn) as [t|] eqn:Ht; [|done].
  destruct (daysDiffOf_valid e t) as (d & Hd & _ & Hle & _).
  rewrite Hd. destruct (Qleb d dateTolerance) eqn:Hdays; [|done].
  exfalso. apply Hnot. split; [done|]. exists e, t. by rewrite <- Hle.
Qed.

Lemma fuzzyCandidate_within entry txn d :
  fuzzyCandidate (entryAmount entry) (stmtDate entry) txn = Some d →
  withinTolerance entry txn.
Proof.
  unfold fuzzyCandidate. fold (bookAmount txn).
  destruct (Qltb _ 1) eqn:Hamount; [|done].
  apply Qltb_spec in Hamount.
  destruct (stmtDate entry) as [e|] eqn:He; [|done].
  destruct (date txn) as [t|] eqn:Ht; [|done].
  destruct (daysDiffOf_valid e t) as (d' & Hd & _ & Hle & _).
  rewrite Hd. destruct (Qleb d' dateTolerance) eqn:Hdays; [|done].
  intros _. split; [done|]. exists e, t. by rewrite <- Hle.
Qed.

(** The scan stops at the first candidate. *)
Lemma fuzzyScan_first entry l : ∀ i0 k bookTxn,
  l !! k = Some bookTxn →
  withinTolerance entry (val bookTxn) →
  (∀ j other, j < k → l !! j = Some other → ¬ withinTolerance entry (val other)) →
  ∃ d, fuzzyScan (entryAmount entry) (stmtDate entry) l i0 = Some (i0 + k, bookTxn, d) ∧
       daysApart entry (val bookTxn) d.
Proof.
  induction l as [|b l IH]; intros i0 k bookTxn Hk Hin Hbefore; [done|].
  destruct k as [|k]; simpl in Hk.
  - injection Hk as ->.
    destruct (fuzzyCandidate_Some _ _ Hin) as (d & Hd & Hdays).
    exists d. simpl. rewrite Hd, Nat.add_0_r. done.
  - simpl. rewrite (fuzzyCandidate_None entry (val b)).
    2:{ apply (Hbefore 0 b); [lia | done]. }
    destruct (IH (S i0) k bookTxn Hk Hin) as (d & Hd & Hdays).
    { intros j other Hj Hother. apply (Hbefore (S j) other); [lia | done]. }
    exists d. rewrite Hd. split; [|done]. do 3 f_equal. lia.
Qed.

(** Without a candidate the scan finds nothing. *)
Lemma fuzzyScan_none entry l : ∀ i0,
  (∀ b, b ∈ l → ¬ withinTolerance entry (val b)) →
  fuzzyScan (entryAmount entry) (stmtDate entry) l i0 = None.
Proof.
  induction l as [|b l IH]; intros i0 Hnone; [done|].
  simpl. rewrite (fuzzyCandidate_None entry (val b)).
  - apply IH. intros b' Hb'. apply Hnone. by right.
  - apply Hnone. by left.
Qed.

(** When the exact phase does not match, it leaves the state untouched. *)
Lemma exactPhase_unmatched entry amount st :
  (exactPhase entry amount st).2 = false →
  exactPhase entry amount st = (st, false).
Proof.
  unfold exactPhase.
  destruct (stmtChequeNumber entry) as [[|a cheque]|]; [done| |done].
  destruct (bookMap st !! _) as [[|bookTxn rest]|]; done.
Qed.

Lemma reconcileEntry_fuzzy st entry :
  (exactPhase entry (entryAmount entry) st).2 = false →
  reconcileEntry st entry =
    match fuzzyScan (entryAmount entry) (stmtDate entry) (bookTransactions st) 0 with
    | Some (i, bookTxn, d) => afterFuzzyMatch st (fuzzyMatch bookTxn entry d) i
    | None => markUnmatched entry st
    end.
Proof.
  intros Hexact. unfold reconcileEntry. fold (entryAmount entry).
  rewrite (exactPhase_unmatched _ _ _ Hexact). simpl.
  unfold fuzzyPhase.
  destruct (fuzzyScan _ _ _ 0) as [[[i bookTxn] d]|]; done.
Qed.

(** C3. An entry that the exact phase leaves unmatched is paired with the
    first transaction of [bookTransactions] (the book records not matched
    so far, in book order) whose amount differs by less than 1 and whose
    date differs by at most 7 days; the pair is labelled Amount+Date when
    the dates coincide and Amount (Date Mismatch) otherwise, and carries
    the number of days between the dates.  Without such a transaction the
    entry is recorded as unmatched.  A book record of 2024-02-01 for 1000
    matches a statement line of 2024-02-08 for 1000.50 with a difference
    of 7 days; a line of 2024-02-09 stays unmatched. *)
Theorem fuzzy_phase_takes_first_candidate :
  (∀ st entry i bookTxn,
     (exactPhase entry (entryAmount entry) st).2 = false →
     bookTransactions st !! i = Some bookTxn →
     withinTolerance entry (val bookTxn) →
     (∀ j other, j < i → bookTransactions st !! j = Some other →
                 ¬ withinTolerance entry (val other)) →
     ∃ d, daysApart entry (val bookTxn) d ∧
          reconcileEntry st entry = afterFuzzyMatch st (fuzzyMatch bookTxn entry d) i ∧
          matchType (fuzzyMatch bookTxn entry d)
            = (if bool_decide (stmtDate entry = date (val bookTxn))
               then AmountDate else AmountDateMismatch)) ∧
  (∀ st entry,
     (exactPhase entry (entryAmount entry) st).2 = false →
     (∀ b, b ∈ bookTransactions st → ¬ withinTolerance entry (val b)) →
     reconcileEntry st entry = markUnmatched entry st) ∧
  (∃ r,
     autoReconcile (Success [bookRecord (Js.dateOf 2024 2 1) "" 1000%Q])
                   [statementRecord (Js.dateOf 2024 2 8) None (10005 # 10)]
       = Success r ∧
     matched r
       = [ {| bookTransaction := mkObj 0 (bookRecord (Js.dateOf 2024 2 1) "" 1000%Q);
              statementEntry := statementRecord (Js.dateOf 2024 2 8) None (10005 # 10);
              matchType := AmountDateMismatch;
              daysDifference := Some 7%Q |} ] ∧
     unmatchedInBooks r = [] ∧ unmatchedInStatement r = []) ∧
  (∃ r,
     autoReconcile (Success [bookRecord (Js.dateOf 2024 2 1) "" 1000%Q])
                   [statementRecord (Js.dateOf 2024 2 9) None (10005 # 10)]
       = Success r ∧
     matched r = [] ∧
     unmatchedInBooks r = [mkObj 0 (bookRecord (Js.dateOf 2024 2 1) "" 1000%Q)] ∧
     unmatchedInStatement r
       = [statementRecord (Js.dateOf 2024 2 9) None (10005 # 10)]).
Proof.
  split; [|split; [|split]].
  - intros st entry i bookTxn Hexact Hi Hin Hfirst.
    destruct (fuzzyScan_first entry (bookTransactions st) 0 i bookTxn Hi Hin Hfirst)
      as (d & Hscan & Hdays).
    exists d. split; [done|]. split.
    + by rewrite (reconcileEntry_fuzzy _ _ Hexact), Hscan.
    + destruct Hdays as (e & t & He & Ht & _ & Hzero). simpl.
      rewrite He, Ht. unfold Qeqb.
      destruct (Qeq_bool d 0) eqn:Hd.
      * apply Qeq_bool_iff, Hzero in Hd as ->. by rewrite bool_decide_eq_true_2.
      * rewrite bool_decide_eq_false_2; [done|]. intros [= Heq].
        apply Hzero, Qeq_bool_iff in Heq. congruence.
  - intros st entry Hexact Hnone.
    by rewrite (reconcileEntry_fuzzy _ _ Hexact), (fuzzyScan_none _ _ _ Hnone).
  - eexists. split; [reflexivity|]. by vm_compute.
  - eexists. split; [reflexivity|]. by vm_compute.
Qed.

(** The first scenario of C3, read off the general statement: the state
    before the only entry holds the one book record, which is the first
    candidate. *)
Lemma fuzzy_phase_takes_first_candidate_witness :
  ∃ d, daysApart (statementRecord (Js.dateOf 2024 2 8) None (10005 # 10))
                 (bookRecord (Js.dateOf 2024 2 1) "" 1000%Q) d ∧
       reconcileEntry
         (initialMatching (allocate [bookRecord (Js.dateOf 2024 2 1) "" 1000%Q]))
         (statementRecord (Js.dateOf 2024 2 8) None (10005 # 10))
       = afterFuzzyMatch
           (initialMatching (allocate [bookRecord (Js.dateOf 2024 2 1) "" 1000%Q]))
           (fuzzyMatch (mkObj 0 (bookRecord (Js.dateOf 2024 2 1) "" 1000%Q))
                       (statementRecord (Js.dateOf 2024 2 8) None (10005 # 10)) d)
           0.
Proof.
  destruct (proj1 fuzzy_phase_takes_first_candidate
              (initialMatching (allocate [bookRecord (Js.dateOf 2024 2 1) "" 1000%Q]))
              (statementRecord (Js.dateOf 2024 2 8) None (10005 # 10))
              0%nat (mkObj 0 (bookRecord (Js.dateOf 2024 2 1) "" 1000%Q)))
    as (d & Hdays & Hstep & _).
  - reflexivity.
  - reflexivity.
  - split.
    + by vm_compute.
    + eexists _, _. split; [reflexivity|]. split; [reflexivity|]. by vm_compute.
  - intros j other Hj. lia.
  - exists d. by split.
Defined.

(** *** The lookup *)

Lemma lookup_mapPush m txn k :
  mapPush m txn !! k =
    if decide (createMatchKey (val txn) = k)
    then Some (default [] (m !! k) ++ [txn])
    else m !! k.
Proof.
  unfold mapPush. set (key := createMatchKey (val txn)).
  destruct (m !! key) as [filed|] eqn:Hkey.
  - rewrite Hkey. case_decide as Hk.
    + subst k. by rewrite lookup_insert_eq, Hkey.
    + by rewrite lookup_insert_ne.
  - rewrite lookup_insert_eq. case_decide as Hk.
    + subst k. by rewrite lookup_insert_eq, Hkey.
    + by rewrite !lookup_insert_ne.
Qed.

Lemma sameKeyBooks_cons k b books :
  sameKeyBooks k (b :: books) =
    if decide (createMatchKey (val b) = k)
    then b :: sameKeyBooks k books else sameKeyBooks k books.
Proof.
  unfold sameKeyBooks. simpl. case_decide as Hk.
  - by rewrite (proj2 (String.eqb_eq _ _) Hk).
  - by rewrite (proj2 (String.eqb_neq _ _) Hk).
Qed.

Lemma lookup_foldl_mapPush books : ∀ m k,
  foldl mapPush m books !! k =
    match sameKeyBooks k books with
    | [] => m !! k
    | filed => Some (default [] (m !! k) ++ filed)
    end.
Proof.
  induction books as [|b books IH]; intros m k; [done|].
  change (foldl mapPush m (b :: books)) with (foldl mapPush (mapPush m b) books).
  rewrite IH, lookup_mapPush, sameKeyBooks_cons.
  case_decide as Hk; [|done].
  destruct (sameKeyBooks k books) as [|b' filed]; [done|].
  simpl. by rewrite <- app_assoc.
Qed.

Lemma bookMap_initial books k :
  bookMap (initialMatching books) !! k = lookupAfter k books [].
Proof.
  unfold lookupAfter. simpl. rewrite lookup_foldl_mapPush, lookup_empty.
  by destruct (sameKeyBooks k books).
Qed.

Lemma bookMap_fuzzyPhase entry amount st :
  bookMap (fuzzyPhase entry amount st).1 = bookMap st.
Proof.
  unfold fuzzyPhase. by destruct (fuzzyScan _ _ _ 0) as [[[i bookTxn] d]|].
Qed.

(** What the exact phase does, by the key of the entry. *)
Lemma exactPhase_by_key entry st :
  exactPhase entry (entryAmount entry) st =
    match entryKey entry with
    | None => (st, false)
    | Some key =>
        match bookMap st !! key with
        | Some (bookTxn :: rest) =>
            ({| mMatched := mMatched st ++ [exactMatch bookTxn entry];
                mUnmatchedInStatement := mUnmatchedInStatement st;
                mTotalMatched := mTotalMatched st + 1;
                mTotalUnmatchedStatement := mTotalUnmatchedStatement st;
                bookTransactions :=
                  match indexOf (bookTransactions st) bookTxn with
                  | Some idx => delete idx (bookTransactions st)
                  | None => bookTransactions st
                  end;
                bookMap := <[key := rest]> (bookMap st) |}, true)
        | Some [] | None => (st, false)
        end
    end.
Proof.
  unfold exactPhase, entryKey.
  by destruct (stmtChequeNumber entry) as [[|a cheque]|].
Qed.

Lemma bookMap_reconcileEntry st entry k :
  bookMap (reconcileEntry st entry) !! k =
    if bool_decide (entryKey entry = Some k)
    then tail <$> (bookMap st !! k) else bookMap st !! k.
Proof.
  unfold reconcileEntry. fold (entryAmount entry).
  rewrite exactPhase_by_key.
  assert (Hunmatched :
           bookMap (let '(st2, matched2) := fuzzyPhase entry (entryAmount entry) st in
                    if negb matched2 then markUnmatched entry st2 else st2)
           = bookMap st).
  { pose proof (bookMap_fuzzyPhase entry (entryAmount entry) st) as Hf.
    destruct (fuzzyPhase entry (entryAmount entry) st) as [st2 [|]]; done. }
  destruct (entryKey entry) as [key|] eqn:Hkey.
  - destruct (bookMap st !! key) as [[|bookTxn rest]|] eqn:Hlook; simpl.
    + rewrite Hunmatched. case_bool_decide as Hk; [|done].
      injection Hk as <-. by rewrite Hlook.
    + case_bool_decide as Hk.
      * injection Hk as <-. by rewrite lookup_insert_eq, Hlook.
      * rewrite lookup_insert_ne; [done|]. congruence.
    + rewrite Hunmatched. case_bool_decide as Hk; [|done].
      injection Hk as <-. by rewrite Hlook.
  - simpl. rewrite Hunmatched. by try case_bool_decide.
Qed.

Lemma claimsOn_snoc k done entry :
  claimsOn k (done ++ [entry]) =
    (claimsOn k done + if bool_decide (entryKey entry = Some k) then 1 else 0)%nat.
Proof.
  unfold claimsOn. rewrite List.filter_app, length_app. simpl.
  by case_bool_decide.
Qed.

Lemma tail_drop {A} (l : list A) (n : nat) : tail (drop n l) = drop (S n) l.
Proof.
  revert l. induction n as [|n IH]; intros [|x l]; simpl; done.
Qed.

Lemma runMatching_snoc data done entry :
  runMatching data (done ++ [entry]) = reconcileEntry (runMatching data done) entry.
Proof. unfold runMatching. by rewrite foldl_app. Qed.

(** The lookup holds, under each key, the book transactions filed under it
    less one for each entry that looked the key up. *)
Lemma bookMap_runMatching data done k :
  bookMap (runMatching data done) !! k = lookupAfter k (allocate data) done.
Proof.
  induction done as [|entry done IH] using rev_ind.
  - apply bookMap_initial.
  - rewrite runMatching_snoc, bookMap_reconcileEntry, IH.
    unfold lookupAfter. rewrite claimsOn_snoc.
    destruct (sameKeyBooks k (allocate data)) as [|b filed].
    + by case_bool_decide.
    + case_bool_decide; simpl.
      * by rewrite tail_drop, Nat.add_1_r.
      * by rewrite Nat.add_0_r.
Qed.

(** *** Every statement entry is accounted for once *)

Lemma reconcileEntry_outcome st entry :
  recordsMatch st (reconcileEntry st entry) entry ∨
  recordsUnmatched st (reconcileEntry st entry) entry.
Proof.
  unfold reconcileEntry. fold (entryAmount entry). rewrite exactPhase_by_key.
  assert (Hfuzzy :
           ∀ st2 matched2,
             fuzzyPhase entry (entryAmount entry) st = (st2, matched2) →
             recordsMatch st (if negb matched2 then markUnmatched entry st2 else st2) entry ∨
             recordsUnmatched st (if negb matched2 then markUnmatched entry st2 else st2) entry).
  { unfold fuzzyPhase. intros st2 matched2.
    destruct (fuzzyScan _ _ _ 0) as [[[i bookTxn] d]|]; intros [= <- <-]; simpl.
    - left. eexists. by repeat split.
    - by right. }
  destruct (entryKey entry) as [key|]; simpl.
  - destruct (bookMap st !! key) as [[|bookTxn rest]|]; simpl.
    + destruct (fuzzyPhase _ _ st) as [st2 matched2]. by apply Hfuzzy.
    + left. eexists. by repeat split.
    + destruct (fuzzyPhase _ _ st) as [st2 matched2]. by apply Hfuzzy.
  - destruct (fuzzyPhase _ _ st) as [st2 matched2]. by apply Hfuzzy.
Qed.

Lemma foldl_reconcileEntry_counts stmts : ∀ st,
  let st' := foldl reconcileEntry st stmts in
  (∃ more, mMatched st' = mMatched st ++ more ∧
           (length more + length (mUnmatchedInStatement st')
            = length (mUnmatchedInStatement st) + length stmts)%nat ∧
           mTotalMatched st' = (mTotalMatched st + length more)%nat) ∧
  (mTotalUnmatchedStatement st' - mTotalUnmatchedStatement st
   = length (mUnmatchedInStatement st') - length (mUnmatchedInStatement st))%nat ∧
  (mTotalUnmatchedStatement st ≤ mTotalUnmatchedStatement st')%nat ∧
  (length (mUnmatchedInStatement st) ≤ length (mUnmatchedInStatement st'))%nat.
Proof.
  induction stmts as [|entry stmts IH]; intros st; simpl.
  - split; [|lia]. exists []. rewrite app_nil_r. split; [done|]. simpl. lia.
  - specialize (IH (reconcileEntry st entry)). simpl in IH.
    destruct IH as ((more & Hm & Hlen & Htot) & Hun & Hle1 & Hle2).
    destruct (reconcileEntry_outcome st entry)
      as [(m & Hm1 & _ & Ht1 & Hu1 & Hn1)|(Hm1 & Ht1 & Hu1 & Hn1)].
    + rewrite Hm1, Ht1, Hu1, Hn1 in *. split; [|lia].
      exists (m :: more). rewrite <- app_assoc in Hm. split; [done|]. simpl. lia.
    + rewrite Hm1, Ht1, Hu1, Hn1 in *. rewrite length_app in *. simpl in *.
      split; [|lia]. exists more. split; [done|]. lia.
Qed.

(** Every statement entry ends in exactly one of [matched] and
    [unmatchedInStatement], the counters count those lists, and the match
    percentage is 100 times the matched share of all counted records. *)
Lemma statement_side_complete data stmts r :
  autoReconcile (Success data) stmts = Success r →
  (length (matched r) + length (unmatchedInStatement r) = length stmts)%nat ∧
  totalMatched (summary r) = length (matched r) ∧
  totalUnmatchedStatement (summary r) = length (unmatchedInStatement r) ∧
  totalUnmatchedBooks (summary r) = length (unmatchedInBooks r) ∧
  let totalEntries :=
    (totalMatched (summary r) + totalUnmatchedBooks (summary r)
     + totalUnmatchedStatement (summary r))%nat in
  (matchPercentage (summary r) ==
   if bool_decide (0 < totalEntries)%nat
   then inject_Z (Z.of_nat (totalMatched (summary r)))
        / inject_Z (Z.of_nat totalEntries) * 100
   else 0)%Q.
Proof.
  intros [= <-]. simpl.
  destruct (foldl_reconcileEntry_counts stmts (initialMatching (allocate data)))
    as ((more & Hm & Hlen & Htot) & Hun & Hle1 & Hle2).
  simpl in *. rewrite Hm, Htot. simpl in *.
  repeat split; try lia.
  case_bool_decide; [apply Qred_correct | done].
Qed.

(** *** The book side *)

Lemma allocate_lookup {A} (xs : list A) (i : nat) o :
  allocate xs !! i = Some o → addr o = i.
Proof.
  unfold allocate. rewrite list_lookup_imap.
  destruct (xs !! i); simpl; [|done]. by intros [= <-].
Qed.

Lemma allocate_addr_inj {A} (xs : list A) o1 o2 :
  o1 ∈ allocate xs → o2 ∈ allocate xs → addr o1 = addr o2 → o1 = o2.
Proof.
  intros [i1 H1]%list_elem_of_lookup [i2 H2]%list_elem_of_lookup Haddr.
  rewrite (allocate_lookup _ _ _ H1), (allocate_lookup _ _ _ H2) in Haddr.
  subst i2. congruence.
Qed.

Lemma allocate_NoDup {A} (xs : list A) : NoDup (allocate xs).
Proof.
  apply NoDup_alt. intros i j o Hi Hj.
  by rewrite <- (allocate_lookup _ _ _ Hi), <- (allocate_lookup _ _ _ Hj).
Qed.

Lemma removed_refl {A} (b : A) (l : list A) : b ∉ l → removed b l l.
Proof. intros Hb. by repeat split. Qed.

Lemma removed_delete {A} (l : list A) (i : nat) b :
  NoDup l → l !! i = Some b → removed b l (delete i l).
Proof.
  intros Hnd Hi. split; [apply sublist_delete|].
  rewrite delete_take_drop.
  pose proof (take_drop_middle _ _ _ Hi) as Hl.
  rewrite <- Hl in Hnd.
  apply NoDup_app in Hnd as (_ & Hleft & Hright).
  apply NoDup_cons in Hright as [Hright _].
  split.
  - rewrite elem_of_app. intros [Hin|Hin]; [|done].
    apply (Hleft _ Hin). by left.
  - intros x Hx Hne. rewrite <- Hl in Hx.
    rewrite elem_of_app, elem_of_cons in Hx. rewrite elem_of_app.
    destruct Hx as [?|[->|?]]; [by left | done | by right].
Qed.

Lemma fuzzyScan_lookup amount entryDate l : ∀ i0 i bookTxn d,
  fuzzyScan amount entryDate l i0 = Some (i, bookTxn, d) →
  ∃ k, i = (i0 + k)%nat ∧ l !! k = Some bookTxn.
Proof.
  induction l as [|b l IH]; intros i0 i bookTxn d; simpl; [done|].
  destruct (fuzzyCandidate amount entryDate (val b)) as [d'|].
  - intros [= <- <- <-]. exists 0%nat. split; [lia | done].
  - intros (k & -> & Hk)%IH. exists (S k). split; [lia | done].
Qed.

(** What one turn of the loop does to the matches and the working copy. *)
Lemma reconcileEntry_books st entry :
  (∃ m, mMatched (reconcileEntry st entry) = mMatched st ++ [m] ∧
        ((∃ key rest,
            bookMap st !! key = Some (bookTransaction m :: rest) ∧
            bookTransactions (reconcileEntry st entry)
            = match indexOf (bookTransactions st) (bookTransaction m) with
              | Some idx => delete idx (bookTransactions st)
              | None => bookTransactions st
              end) ∨
         (∃ i, bookTransactions st !! i = Some (bookTransaction m) ∧
               bookTransactions (reconcileEntry st entry)
               = delete i (bookTransactions st)))) ∨
  (mMatched (reconcileEntry st entry) = mMatched st ∧
   bookTransactions (reconcileEntry st entry) = bookTransactions st).
Proof.
  unfold reconcileEntry. fold (entryAmount entry). rewrite exactPhase_by_key.
  assert (Hfuzzy :
     ∀ st2 matched2,
       fuzzyPhase entry (entryAmount entry) st = (st2, matched2) →
       let st' := if negb matched2 then markUnmatched entry st2 else st2 in
       (∃ m, mMatched st' = mMatched st ++ [m] ∧
             ((∃ key rest,
                 bookMap st !! key = Some (bookTransaction m :: rest) ∧
                 bookTransactions st'
                 = match indexOf (bookTransactions st) (bookTransaction m) with
                   | Some idx => delete idx (bookTransactions st)
                   | None => bookTransactions st
                   end) ∨
              (∃ i, bookTransactions st !! i = Some (bookTransaction m) ∧
                    bookTransactions st' = delete i (bookTransactions st)))) ∨
       (mMatched st' = mMatched st ∧ bookTransactions st' = bookTransactions st)).
  { unfold fuzzyPhase. intros st2 matched2.
    destruct (fuzzyScan _ _ _ 0) as [[[i bookTxn] d]|] eqn:Hscan;
      intros [= <- <-]; simpl.
    - left. eexists. split; [done|]. right. exists i. split; [|done].
      apply fuzzyScan_lookup in Hscan as (k & -> & Hk). done.
    - by right. }
  destruct (entryKey entry) as [key|]; simpl.
  - destruct (bookMap st !! key) as [[|bookTxn rest]|] eqn:Hlook; simpl.
    + destruct (fuzzyPhase _ _ st) as [st2 matched2]. by apply Hfuzzy.
    + left. eexists. split; [done|]. left. by exists key, rest.
    + destruct (fuzzyPhase _ _ st) as [st2 matched2]. by apply Hfuzzy.
  - destruct (fuzzyPhase _ _ st) as [st2 matched2]. by apply Hfuzzy.
Qed.

Lemma bookSideSplit_step books st st' m :
  (∀ o1 o2, o1 ∈ books → o2 ∈ books → addr o1 = addr o2 → o1 = o2) →
  bookSideSplit books st →
  mMatched st' = mMatched st ++ [m] →
  bookTransaction m ∈ books →
  removed (bookTransaction m) (bookTransactions st) (bookTransactions st') →
  bookSideSplit books st'.
Proof.
  intros Hinj (Hsub & Hmatched & Hrest) Hm Hin (Hsub' & Hgone & Hkept).
  split; [by etrans|]. split.
  - intros m'. rewrite Hm, elem_of_app, list_elem_of_singleton.
    intros [Hm'| ->]; [|done].
    destruct (Hmatched _ Hm') as [? Hnot]. split; [done|].
    intros Hin'. apply Hnot. by eapply elem_of_sublist.
  - intros b Hb Hnot.
    destruct (decide (addr b = addr (bookTransaction m))) as [Heq|Hne].
    + exists m. split; [rewrite Hm, elem_of_app; right; by left|].
      symmetry. by apply Hinj.
    + destruct (Hrest b Hb) as (m' & Hm' & <-).
      * intros Hold. apply Hnot, Hkept; [done|]. congruence.
      * exists m'. split; [rewrite Hm, elem_of_app; by left | done].
Qed.

Lemma lookupAfter_elem k books done filed b :
  lookupAfter k books done = Some filed → b ∈ filed → b ∈ books.
Proof.
  unfold lookupAfter.
  destruct (sameKeyBooks k books) as [|x l] eqn:Hf; [done|].
  intros [= <-] Hb.
  assert (Hin : b ∈ sameKeyBooks k books).
  { rewrite Hf. eapply elem_of_sublist; [exact Hb | apply sublist_drop]. }
  unfold sameKeyBooks in Hin. by apply elem_of_List_filter in Hin as [? _].
Qed.

(** Every reachable state of the loop splits the book records. *)
Lemma bookSideSplit_runMatching data done :
  bookSideSplit (allocate data) (runMatching data done).
Proof.
  induction done as [|entry done IH] using rev_ind.
  - split; [done|]. split; [intros m Hm; by apply elem_of_nil in Hm|].
    intros b Hb Hnot. done.
  - rewrite runMatching_snoc.
    set (st := runMatching data done) in *.
    pose proof IH as (Hsub & _ & _).
    assert (Hnd : NoDup (bookTransactions st))
      by (eapply sublist_NoDup; [apply (allocate_NoDup data) | done]).
    destruct (reconcileEntry_books st entry)
      as [(m & Hm & [(key & rest & Hlook & Hbooks)|(i & Hi & Hbooks)])|[Hm Hbooks]].
    + assert (Hin : bookTransaction m ∈ allocate data).
      { unfold st in Hlook. rewrite bookMap_runMatching in Hlook.
        eapply lookupAfter_elem; [exact Hlook | by left]. }
      eapply (bookSideSplit_step _ st); [apply allocate_addr_inj | done..|].
      rewrite Hbooks. unfold indexOf.
      destruct (list_find _ (bookTransactions st)) as [[idx o]|] eqn:Hfind; simpl.
      * apply list_find_Some in Hfind as (Hidx & Haddr & _).
        assert (o = bookTransaction m) as ->.
        { apply (allocate_addr_inj data); [|done..].
          eapply elem_of_sublist; [|exact Hsub]. by eapply list_elem_of_lookup_2. }
        by apply removed_delete.
      * apply removed_refl. apply list_find_None in Hfind.
        intros Hin'. by apply (proj1 (Forall_forall _ _) Hfind _ Hin').
    + eapply (bookSideSplit_step _ st); [apply allocate_addr_inj | done..| |].
      * eapply elem_of_sublist; [|exact Hsub]. by eapply list_elem_of_lookup_2.
      * rewrite Hbooks. by apply removed_delete.
    + destruct IH as (_ & Hmatched & Hrest).
      split; [by rewrite Hbooks|]. rewrite Hm, Hbooks. by split.
Qed.

Lemma foldl_reconcileEntry_entries stmts : ∀ st,
  (statementEntry <$> mMatched (foldl reconcileEntry st stmts))
    ++ mUnmatchedInStatement (foldl reconcileEntry st stmts)
  ≡ₚ ((statementEntry <$> mMatched st) ++ mUnmatchedInStatement st) ++ stmts.
Proof.
  induction stmts as [|entry stmts IH]; intros st; simpl.
  - by rewrite app_nil_r.
  - rewrite IH.
    destruct (reconcileEntry_outcome st entry)
      as [(m & -> & <- & _ & -> & _)|(-> & _ & -> & _)].
    + rewrite fmap_app. simpl. solve_Permutation.
    + solve_Permutation.
Qed.

(** C2, as the code has it.  Every statement entry ends in exactly one of
    [matched] and [unmatchedInStatement]; every book record is either left
    in [unmatchedInBooks], which keeps the book order, or is the book side
    of a match, never both.  The three counters are the lengths of the
    three lists, the matched and unmatched statement counts add up to the
    number of statement entries, and the match percentage is 100 times the
    matched count over the sum of the three counters, 0 when that sum is 0. *)
Theorem matcher_accounts_for_records data stmts r :
  autoReconcile (Success data) stmts = Success r →
  ((statementEntry <$> matched r) ++ unmatchedInStatement r ≡ₚ stmts) ∧
  sublist (unmatchedInBooks r) (allocate data) ∧
  (∀ m, m ∈ matched r →
        bookTransaction m ∈ allocate data ∧ bookTransaction m ∉ unmatchedInBooks r) ∧
  (∀ b, b ∈ allocate data → b ∉ unmatchedInBooks r →
        ∃ m, m ∈ matched r ∧ bookTransaction m = b) ∧
  totalMatched (summary r) = length (matched r) ∧
  totalUnmatchedBooks (summary r) = length (unmatchedInBooks r) ∧
  totalUnmatchedStatement (summary r) = length (unmatchedInStatement r) ∧
  (totalMatched (summary r) + totalUnmatchedStatement (summary r))%nat
    = length stmts ∧
  (matchPercentage (summary r) ==
   if bool_decide (0 < totalMatched (summary r) + totalUnmatchedBooks (summary r)
                       + totalUnmatchedStatement (summary r))%nat
   then inject_Z (Z.of_nat (totalMatched (summary r)))
        / inject_Z (Z.of_nat (totalMatched (summary r)
                              + totalUnmatchedBooks (summary r)
                              + totalUnmatchedStatement (summary r))) * 100
   else 0)%Q.
Proof.
  intros Hrun.
  destruct (statement_side_complete _ _ _ Hrun) as (Hlen & Hm & Hu & Hb & Hpct).
  injection Hrun as <-.
  pose proof (bookSideSplit_runMatching data stmts) as (Hsub & Hmatched & Hrest).
  pose proof (foldl_reconcileEntry_entries stmts (initialMatching (allocate data)))
    as Hperm.
  simpl in Hperm.
  repeat split; try done.
  - by apply Hmatched.
  - by apply Hmatched.
  - simpl in *. lia.
Qed.

(** A run of the matcher on the reconciliation scenario. *)
Lemma matcher_accounts_for_records_witness :
  ∃ r,
    autoReconcile (Success [bookRecord (Js.dateOf 2024 1 10) "CHQ100" 5000])
                  [statementRecord (Js.dateOf 2024 1 12) (Some "CHQ100") 5000]
    = Success r ∧
    (totalMatched (summary r) + totalUnmatchedStatement (summary r))%nat = 1%nat ∧
    (matchPercentage (summary r) == 100)%Q.
Proof.
  eexists. split; [reflexivity|].
  destruct (matcher_accounts_for_records
              [bookRecord (Js.dateOf 2024 1 10) "CHQ100" 5000]
              [statementRecord (Js.dateOf 2024 1 12) (Some "CHQ100") 5000]
              _ eq_refl) as (_ & _ & _ & _ & _ & _ & _ & Hcount & Hpct).
  split; [exact Hcount|]. rewrite Hpct. by vm_compute.
Defined.

(** C2 as stated fails.  The approximate phase takes a book transaction
    out of [bookTransactions] but leaves it in the lookup, where a later
    entry that carries its cheque number finds it again: here the one book
    record is matched to both statement lines, so the matched and the
    unmatched book counts add up to 2 for 1 book record.  The match
    percentage is on the scale of 100: it is 100 where the matched share
    is 2 / 2. *)
Lemma book_record_matched_twice :
  ∃ r,
    autoReconcile
      (Success [bookRecord (Js.dateOf 2024 2 1) "CHQ1" 5000])
      [ statementRecord (Js.dateOf 2024 2 1) None 5000;
        statementRecord (Js.dateOf 2024 2 1) (Some "CHQ1") 5000 ]
    = Success r ∧
    bookTransaction <$> matched r
      = [ mkObj 0 (bookRecord (Js.dateOf 2024 2 1) "CHQ1" 5000);
          mkObj 0 (bookRecord (Js.dateOf 2024 2 1) "CHQ1" 5000) ] ∧
    matchType <$> matched r = [AmountDate; Exact] ∧
    unmatchedInBooks r = [] ∧
    totalMatched (summary r) = 2%nat ∧
    totalUnmatchedBooks (summary r) = 0%nat ∧
    totalUnmatchedStatement (summary r) = 0%nat ∧
    (totalMatched (summary r) + totalUnmatchedBooks (summary r))%nat
      ≠ length [bookRecord (Js.dateOf 2024 2 1) "CHQ1" 5000] ∧
    matchPercentage (summary r) = 100%Q ∧
    ¬ (matchPercentage (summary r) == 2 / (2 + 0 + 0))%Q.
Proof.
  eexists. split; [reflexivity|]. repeat split; by vm_compute.
Qed.

(** *** The exact phase *)

Lemma reconcileEntry_exact st entry key bookTxn rest :
  entryKey entry = Some key →
  bookMap st !! key = Some (bookTxn :: rest) →
  mMatched (reconcileEntry st entry) = mMatched st ++ [exactMatch bookTxn entry] ∧
  mUnmatchedInStatement (reconcileEntry st entry) = mUnmatchedInStatement st.
Proof.
  intros Hkey Hlook. unfold reconcileEntry. fold (entryAmount entry).
  by rewrite exactPhase_by_key, Hkey, Hlook.
Qed.

Lemma mMatched_foldl stmts : ∀ st m,
  m ∈ mMatched st → m ∈ mMatched (foldl reconcileEntry st stmts).
Proof.
  intros st m Hm.
  destruct (foldl_reconcileEntry_counts stmts st) as ((more & -> & _) & _).
  apply elem_of_app. by left.
Qed.

(** A book transaction and a statement entry with the same cheque number
    and equal amounts have the same key. *)
Lemma shared_pair_shares_key entry cheque txn :
  stmtChequeNumber entry = Some cheque →
  cheque ≠ "" →
  chequeNumber txn = cheque →
  bookAmount txn = entryAmount entry →
  entryKey entry = Some (createMatchKey txn).
Proof.
  intros Hc Hne Hb Ha. unfold entryKey, createMatchKey. fold (bookAmount txn).
  rewrite Hc, Hb, Ha. by destruct cheque.
Qed.

(** C4, as the code has it.  Take a statement entry with a non-empty cheque
    number, and the book transactions that carry its key (cheque number and
    amount rounded to two decimals), in book order.  If fewer earlier
    statement entries carry that key than there are such book transactions,
    the entry is matched in the exact phase, whatever the dates, with the
    first of them that no earlier entry consumed: its turn of the loop adds
    that Exact match and no unmatched entry, and the match is part of the
    result. *)
Theorem exact_match_precedence data stmts j entry key bookTxn :
  stmts !! j = Some entry →
  entryKey entry = Some key →
  sameKeyBooks key (allocate data) !! claimsOn key (take j stmts) = Some bookTxn →
  mMatched (runMatching data (take (S j) stmts))
    = mMatched (runMatching data (take j stmts)) ++ [exactMatch bookTxn entry] ∧
  mUnmatchedInStatement (runMatching data (take (S j) stmts))
    = mUnmatchedInStatement (runMatching data (take j stmts)) ∧
  ∃ r, autoReconcile (Success data) stmts = Success r ∧
       exactMatch bookTxn entry ∈ matched r.
Proof.
  intros Hj Hkey Hbook.
  rewrite (take_S_r _ _ _ Hj), runMatching_snoc.
  pose proof (bookMap_runMatching data (take j stmts) key) as Hlook.
  unfold lookupAfter in Hlook.
  destruct (sameKeyBooks key (allocate data)) as [|b filed] eqn:Hfiled; [done|].
  rewrite (drop_S _ _ _ Hbook) in Hlook.
  destruct (reconcileEntry_exact _ _ _ _ _ Hkey Hlook) as [Hm Hu].
  split; [done|]. split; [done|].
  eexists. split; [reflexivity|]. simpl.
  rewrite <- (take_drop (S j) stmts) at 1.
  rewrite foldl_app. apply mMatched_foldl.
  rewrite (take_S_r _ _ _ Hj). fold (runMatching data (take j stmts ++ [entry])).
  rewrite runMatching_snoc, Hm. apply elem_of_app. right. by left.
Qed.

(** The reconciliation scenario: a book record of 2024-01-10 and a
    statement line of 2024-01-12, both for cheque CHQ100 and 5000, give
    one Exact match and nothing else. *)
Lemma exact_match_precedence_witness :
  (mMatched (runMatching [bookRecord (Js.dateOf 2024 1 10) "CHQ100" 5000]
               (take 1 [statementRecord (Js.dateOf 2024 1 12) (Some "CHQ100") 5000]))
   = mMatched (runMatching [bookRecord (Js.dateOf 2024 1 10) "CHQ100" 5000]
                 (take 0 [statementRecord (Js.dateOf 2024 1 12) (Some "CHQ100") 5000]))
     ++ [exactMatch (mkObj 0 (bookRecord (Js.dateOf 2024 1 10) "CHQ100" 5000))
                    (statementRecord (Js.dateOf 2024 1 12) (Some "CHQ100") 5000)]) ∧
  ∃ r, autoReconcile (Success [bookRecord (Js.dateOf 2024 1 10) "CHQ100" 5000])
                     [statementRecord (Js.dateOf 2024 1 12) (Some "CHQ100") 5000]
       = Success r ∧
       matched r
       = [exactMatch (mkObj 0 (bookRecord (Js.dateOf 2024 1 10) "CHQ100" 5000))
                     (statementRecord (Js.dateOf 2024 1 12) (Some "CHQ100") 5000)] ∧
       unmatchedInBooks r = [] ∧ unmatchedInStatement r = [].
Proof.
  split.
  - apply (exact_match_precedence
             [bookRecord (Js.dateOf 2024 1 10) "CHQ100" 5000]
             [statementRecord (Js.dateOf 2024 1 12) (Some "CHQ100") 5000]
             0 _ "CHQ100_5000.00"); reflexivity.
  - eexists. split; [reflexivity|]. by vm_compute.
Defined.

(** C4 as stated fails: with one book record for cheque CHQ100 and 5000
    and two statement lines for that cheque and amount, the second line
    shares the pair with the book record, yet it goes through the
    approximate phase, which pairs it with another book record. *)
Lemma exact_match_counterexample :
  ∃ r,
    autoReconcile
      (Success [ bookRecord (Js.dateOf 2024 1 10) "CHQ100" 5000;
                 bookRecord (Js.dateOf 2024 1 12) "" (50005 # 10) ])
      [ statementRecord (Js.dateOf 2024 1 12) (Some "CHQ100") 5000;
        statementRecord (Js.dateOf 2024 1 12) (Some "CHQ100") 5000 ]
    = Success r ∧
    entryKey (statementRecord (Js.dateOf 2024 1 12) (Some "CHQ100") 5000)
      = Some (createMatchKey (bookRecord (Js.dateOf 2024 1 10) "CHQ100" 5000)) ∧
    matched r
      = [ exactMatch (mkObj 0 (bookRecord (Js.dateOf 2024 1 10) "CHQ100" 5000))
                     (statementRecord (Js.dateOf 2024 1 12) (Some "CHQ100") 5000);
          fuzzyMatch (mkObj 1 (bookRecord (Js.dateOf 2024 1 12) "" (50005 # 10)))
                     (statementRecord (Js.dateOf 2024 1 12) (Some "CHQ100") 5000) 0 ] ∧
    matchType <$> matched r = [Exact; AmountDate].
Proof.
  eexists. split; [reflexivity|]. repeat split; by vm_compute.
Qed.

End MatcherFacts.
(** ** Aging of receivables and payables *)

Section AgingFacts.
Import Financial.

Lemma bucketOf_bounds (d : Z) :
  (bucketOf (Some d) = Current ↔ (d ≤ 0)%Z) ∧
  (bucketOf (Some d) = Days30 ↔ (0 < d ≤ 30)%Z) ∧
  (bucketOf (Some d) = Days60 ↔ (30 < d ≤ 60)%Z) ∧
  (bucketOf (Some d) = Days90 ↔ (60 < d ≤ 90)%Z) ∧
  (bucketOf (Some d) = Days180 ↔ (90 < d ≤ 180)%Z) ∧
  (bucketOf (Some d) = Above180 ↔ (180 < d)%Z).
Proof.
  unfold bucketOf.
  destruct (Z.leb_spec d 0); [repeat split; (done || lia)|].
  destruct (Z.leb_spec d 30); [repeat split; (done || lia)|].
  destruct (Z.leb_spec d 60); [repeat split; (done || lia)|].
  destruct (Z.leb_spec d 90); [repeat split; (done || lia)|].
  destruct (Z.leb_spec d 180); repeat split; (done || lia).
Qed.

Lemma bucketTotal_addTo b b' amount_ aged :
  (bucketTotal b (addTo b' amount_ aged)
   == bucketTotal b aged + if bool_decide (b' = b) then amount_ else 0)%Q.
Proof. destruct b, b'; simpl; ring. Qed.

Lemma bucketTotal_ageBill b amountOf asOnDate aged bill :
  (bucketTotal b (ageBill amountOf asOnDate aged bill)
   == bucketTotal b aged
      + if bool_decide (billBucket asOnDate bill = b)
        then amountOf (amount bill) else 0)%Q.
Proof.
  unfold ageBill. fold (billAge asOnDate bill). fold (billBucket asOnDate bill).
  rewrite <- bucketTotal_addTo. by destruct b.
Qed.

Lemma billWiseDetails_ageBill amountOf asOnDate aged bill :
  billWiseDetails (ageBill amountOf asOnDate aged bill)
  = billWiseDetails aged ++ [detailOf amountOf asOnDate bill].
Proof. reflexivity. Qed.

Lemma foldl_ageBill amountOf asOnDate bills_ : ∀ aged,
  let aged' := foldl (ageBill amountOf asOnDate) aged bills_ in
  (∀ b, (bucketTotal b aged'
         == bucketTotal b aged
            + sumQ (amountsOf amountOf (billsIn b asOnDate bills_)))%Q) ∧
  billWiseDetails aged'
  = billWiseDetails aged ++ (detailOf amountOf asOnDate <$> bills_) ∧
  total aged' = total aged ∧ partyName aged' = partyName aged.
Proof.
  induction bills_ as [|bill bills_ IH]; intros aged; simpl.
  - split; [intros b; ring|]. by rewrite app_nil_r.
  - destruct (IH (ageBill amountOf asOnDate aged bill)) as (Hsum & Hdet & Htot & Hname).
    split; [|split; [|done]].
    + intros b. rewrite Hsum, bucketTotal_ageBill.
      unfold billsIn. simpl. case_bool_decide; simpl; ring.
    + rewrite Hdet, billWiseDetails_ageBill, <- app_assoc. done.
Qed.

(** Every bill is in the list of exactly one bucket. *)
Lemma billsIn_partition asOnDate bills_ :
  (∀ bill b, bill ∈ billsIn b asOnDate bills_ ↔
             bill ∈ bills_ ∧ billBucket asOnDate bill = b) ∧
  (sum_list ((λ b, length (billsIn b asOnDate bills_)) <$> allBuckets)
   = length bills_).
Proof.
  split.
  - intros bill b. unfold billsIn. rewrite elem_of_List_filter.
    by rewrite bool_decide_eq_true.
  - induction bills_ as [|bill bills_ IH]; [done|].
    unfold billsIn in *. simpl in *.
    destruct (billBucket asOnDate bill); simpl; lia.
Qed.

Lemma sumQ_app l1 l2 : (sumQ (l1 ++ l2) == sumQ l1 + sumQ l2)%Q.
Proof.
  induction l1 as [|x l1 IH]; simpl; [ring|]. rewrite IH. ring.
Qed.

Lemma sumQ_buckets amountOf asOnDate bills_ :
  (sumQ ((λ b, sumQ (amountsOf amountOf (billsIn b asOnDate bills_))) <$> allBuckets)
   == sumQ (amountsOf amountOf bills_))%Q.
Proof.
  induction bills_ as [|bill bills_ IH]; [done|].
  unfold billsIn in *. simpl in *. rewrite <- IH.
  destruct (billBucket asOnDate bill); simpl; ring.
Qed.

Lemma getDebtorsAging_ledgers asOnDate ledgers :
  getDebtorsAging asOnDate (Success ledgers)
  = Success ((λ l, ageLedger (λ a, a) asOnDate (CLOSINGBALANCE l) l)
               <$> List.filter (λ l, negb (Qleb (CLOSINGBALANCE l) 0)) ledgers).
Proof.
  unfold getDebtorsAging. f_equal.
  induction ledgers as [|l ledgers IH]; [done|]. simpl.
  destruct (Qleb (CLOSINGBALANCE l) 0); simpl; by rewrite IH.
Qed.

Lemma getCreditorsAging_ledgers asOnDate ledgers :
  getCreditorsAging asOnDate (Success ledgers)
  = Success ((λ l, ageLedger Qabs asOnDate (Qabs (CLOSINGBALANCE l)) l)
               <$> List.filter (λ l, negb (Qleb 0 (CLOSINGBALANCE l))) ledgers).
Proof.
  unfold getCreditorsAging. f_equal.
  induction ledgers as [|l ledgers IH]; [done|]. simpl.
  destruct (Qleb 0 (CLOSINGBALANCE l)); simpl; by rewrite IH.
Qed.

(** C5. For every as-of date the aging gives each bill one bucket by the
    inclusive upper bounds 0, 30, 60, 90 and 180 days; each bucket total
    is the sum of the amounts of the bills of that bucket, every bill is
    in exactly one bucket and is listed once in the details, and the six
    totals add up to the sum of the bill amounts.  A bill aged exactly 60
    days is in the 31-60 bucket, and a party without bills has its whole
    balance in Current.  [getDebtorsAging] ages the ledgers with a debit
    balance in this way, [getCreditorsAging] those with a credit balance,
    on absolute amounts. *)
Theorem aging_buckets_partition :
  (∀ d : Z,
     (bucketOf (Some d) = Current ↔ (d ≤ 0)%Z) ∧
     (bucketOf (Some d) = Days30 ↔ (0 < d ≤ 30)%Z) ∧
     (bucketOf (Some d) = Days60 ↔ (30 < d ≤ 60)%Z) ∧
     (bucketOf (Some d) = Days90 ↔ (60 < d ≤ 90)%Z) ∧
     (bucketOf (Some d) = Days180 ↔ (90 < d ≤ 180)%Z) ∧
     (bucketOf (Some d) = Above180 ↔ (180 < d)%Z)) ∧
  (∀ amountOf asOnDate total_ ledger,
     bills ledger ≠ [] →
     let aged := ageLedger amountOf asOnDate total_ ledger in
     (∀ b, (bucketTotal b aged
            == sumQ (amountsOf amountOf (billsIn b asOnDate (bills ledger))))%Q) ∧
     (sumQ ((λ b, bucketTotal b aged) <$> allBuckets)
      == sumQ (amountsOf amountOf (bills ledger)))%Q ∧
     billWiseDetails aged = detailOf amountOf asOnDate <$> bills ledger) ∧
  (∀ asOnDate bills_,
     (∀ bill b, bill ∈ billsIn b asOnDate bills_ ↔
                bill ∈ bills_ ∧ billBucket asOnDate bill = b) ∧
     sum_list ((λ b, length (billsIn b asOnDate bills_)) <$> allBuckets)
     = length bills_) ∧
  (∀ amountOf asOnDate total_ ledger,
     bills ledger = [] →
     let aged := ageLedger amountOf asOnDate total_ ledger in
     current aged = total_ ∧ days30 aged = 0%Q ∧ days60 aged = 0%Q ∧
     days90 aged = 0%Q ∧ days180 aged = 0%Q ∧ above180 aged = 0%Q ∧
     billWiseDetails aged = []) ∧
  (∀ asOnDate ledgers,
     getDebtorsAging asOnDate (Success ledgers)
     = Success ((λ l, ageLedger (λ a, a) asOnDate (CLOSINGBALANCE l) l)
                  <$> List.filter (λ l, negb (Qleb (CLOSINGBALANCE l) 0)) ledgers) ∧
     getCreditorsAging asOnDate (Success ledgers)
     = Success ((λ l, ageLedger Qabs asOnDate (Qabs (CLOSINGBALANCE l)) l)
                  <$> List.filter (λ l, negb (Qleb 0 (CLOSINGBALANCE l))) ledgers)) ∧
  getDebtorsAging (Js.dateOf 2024 3 31)
    (Success [ {| NAME := "Acme"; CLOSINGBALANCE := 70;
                  bills := [ {| billName := "INV-1";
                                billDate := Some (Js.dateOf 2024 1 31);
                                amount := 70 |} ] |} ])
  = Success [ {| partyName := "Acme";
                 current := 0; days30 := 0; days60 := 70; days90 := 0;
                 days180 := 0; above180 := 0; total := 70;
                 billWiseDetails :=
                   [ {| billNumber := "INV-1"; detailAmount := 70; pending := 70;
                        agingDays := Some 60%Z |} ] |} ].
Proof.
  split; [apply bucketOf_bounds|].
  split; [|split; [apply billsIn_partition|split; [|split]]].
  - intros amountOf asOnDate total_ ledger Hbills aged.
    unfold aged, ageLedger.
    rewrite bool_decide_eq_false_2 by (by destruct (bills ledger)).
    match goal with
    | |- context [foldl _ ?a _] =>
        destruct (foldl_ageBill amountOf asOnDate (bills ledger) a)
          as (Hsum & Hdet & _)
    end.
    assert (Hb : ∀ b, (bucketTotal b
                         (foldl (ageBill amountOf asOnDate)
                            {| partyName := NAME ledger; current := 0; days30 := 0;
                               days60 := 0; days90 := 0; days180 := 0; above180 := 0;
                               total := total_; billWiseDetails := [] |}
                            (bills ledger))
                       == sumQ (amountsOf amountOf
                                  (billsIn b asOnDate (bills ledger))))%Q).
    { intros b. rewrite Hsum. destruct b; simpl; ring. }
    split; [exact Hb|]. split; [|exact Hdet].
    rewrite <- sumQ_buckets. simpl.
    rewrite (Hb Current), (Hb Days30), (Hb Days60), (Hb Days90), (Hb Days180),
      (Hb Above180). reflexivity.
  - intros amountOf asOnDate total_ ledger Hbills aged.
    unfold aged, ageLedger. rewrite Hbills. simpl. done.
  - intros asOnDate ledgers.
    split; [apply getDebtorsAging_ledgers | apply getCreditorsAging_ledgers].
  - by vm_compute.
Qed.

End AgingFacts.

(** ** Recommendations, queries and fixes of the audit *)

Section AuditToolsFacts.
Import ConfigAudit.

Lemma List_filter_nil_iff {A} (f : A → bool) (l : list A) :
  List.filter f l = [] ↔ Forall (λ x, f x = false) l.
Proof.
  induction l as [|x l IH]; simpl; [by split|].
  destruct (f x) eqn:Hx.
  - split; [done|]. intros Hall. apply Forall_cons in Hall as [? _]. congruence.
  - rewrite IH. split; [by constructor|]. by intros [_ ?]%Forall_cons.
Qed.

Lemma no_positive_length {A} (l : list A) :
  bool_decide (0 < length l)%nat = false ↔ l = [].
Proof.
  rewrite bool_decide_eq_false. destruct l; simpl; split; try done; try lia.
Qed.

(** The six selections of [generateRecommendations] are all empty exactly
    on lists of silent issues. *)
Lemma silent_selections l :
  Forall silentIssue l ↔
  List.filter (λ i, bool_decide (severity i = Critical)) l = [] ∧
  List.filter (λ i, bool_decide (category i = GST)) l = [] ∧
  List.filter (λ i, bool_decide (category i = TDS)) l = [] ∧
  List.filter (λ i, bool_decide (category i = PartyMaster)) l = [] ∧
  List.filter (λ i, bool_decide (category i = StockItemCategory)) l = [] ∧
  List.filter autoFixable l = [].
Proof.
  rewrite !List_filter_nil_iff, <- !Forall_and.
  apply Forall_proper; [|done]. intros i. unfold silentIssue.
  by rewrite !bool_decide_eq_false.
Qed.

(** X1. [generateRecommendations] always makes between one and six
    recommendations.  It answers with the single text that the
    configuration looks good exactly when no issue is Critical, of the
    GST, TDS, Party Master or Stock Item category, or auto-fixable; so a
    report with issues of the other kinds carries that text too, as the
    report of a company without TAN does. *)
Theorem recommendations_fallback :
  (∀ l, (1 ≤ length (generateRecommendations l) ≤ 6)%nat) ∧
  (∀ l, generateRecommendations l = [noRecommendation] ↔ Forall silentIssue l) ∧
  ∃ report,
    runFullAudit (snapshotFor companyWithoutTAN (allGstLedgers ++ allTdsLedgers))
      = Success report ∧
    highIssues report = 1%nat ∧ totalIssues report = 4%nat ∧
    overallScore report = 83%Z ∧
    generateRecommendations (issues report) = [noRecommendation].
Proof.
  split; [|split].
  - intros l. unfold generateRecommendations.
    repeat match goal with
           | |- context [bool_decide (0 < ?n)%nat] =>
               destruct (bool_decide (0 < n)%nat)
           end; simpl; lia.
  - intros l. rewrite silent_selections. unfold generateRecommendations.
    split.
    + intros Hgreat.
      repeat match type of Hgreat with
             | context [bool_decide (0 < length ?s)%nat] =>
                 let Hs := fresh "Hs" in
                 destruct (bool_decide (0 < length s)%nat) eqn:Hs;
                 [simpl in Hgreat; discriminate Hgreat
                 | apply no_positive_length in Hs]
             end.
      done.
    + intros (-> & -> & -> & -> & -> & ->). done.
  - eexists. split; [reflexivity|]. by vm_compute.
Qed.


(** *** Fix actions *)

Lemma fixable_nil company : Forall (fixable company) [].
Proof. constructor. Qed.

Lemma fixable_plain company i c s t items :
  Forall (fixable company) [mkIssue i c s t items false None].
Proof. by apply Forall_singleton. Qed.

Lemma fixable_listIssue company i c s t shown names :
  Forall (fixable company) (listIssue i c s t shown names).
Proof. unfold listIssue. case_bool_decide; [apply fixable_plain | constructor]. Qed.

Lemma fixable_fix company i c s t items a :
  type a ∈ [create_ledger; regroup_ledger; update_tds_details] →
  Forall (fixable company) [mkIssue i c s t items true (Some a)].
Proof.
  intros Ha. apply Forall_singleton. unfold fixable. simpl.
  split; [done|]. split; [done|].
  unfold executeFixAction.
  repeat (apply elem_of_cons in Ha as [->|Ha]; [by eexists|]).
  by apply elem_of_nil in Ha.
Qed.

Ltac fixable_tac :=
  repeat first
    [ apply fixable_nil | apply fixable_plain | apply fixable_listIssue
    | apply fixable_fix; simpl; set_solver
    | apply Forall_app; split
    | apply Forall_flat_map, Forall_forall; intros ? _
    | match goal with
      | |- Forall _ (if ?b then _ else _) => destruct b
      | |- Forall _ (match ?x with _ => _ end) => destruct x
      end ].

Lemma auditCompanyInfo_fixable company conn :
  Forall (fixable company) (auditCompanyInfo conn).
Proof. unfold auditCompanyInfo, companyIssues. fixable_tac. Qed.

Lemma auditGSTConfiguration_fixable company r :
  Forall (fixable company) (auditGSTConfiguration r).
Proof.
  unfold auditGSTConfiguration, gstNamingIssues, gstUnconfiguredIssue, gstMissingIssue.
  fixable_tac.
Qed.

Lemma auditTDSConfiguration_fixable company r :
  Forall (fixable company) (auditTDSConfiguration r).
Proof.
  unfold auditTDSConfiguration, tdsExpenseIssues, tdsMissingIssue. fixable_tac.
Qed.

Lemma auditLedgerClassification_fixable company r :
  Forall (fixable company) (auditLedgerClassification r).
Proof.
  unfold auditLedgerClassification, suspenseIssues, misclassIssues.
  destruct r; [|constructor].
  repeat (apply Forall_app; split); [fixable_tac.. |].
  apply Forall_fmap, Forall_forall. by intros group _.
Qed.

Lemma auditPartyMasters_fixable company r :
  Forall (fixable company) (auditPartyMasters r).
Proof. unfold auditPartyMasters. fixable_tac. Qed.

Lemma auditStockItems_fixable company r :
  Forall (fixable company) (auditStockItems r).
Proof. unfold auditStockItems. fixable_tac. Qed.

Lemma runFullAudit_fixable company conn report :
  runFullAudit conn = Success report → Forall (fixable company) (issues report).
Proof.
  intros Hrun. unfold runFullAudit in Hrun.
  destruct (getCompanyName conn) as [[|c0 cs]|]; try done.
  injection Hrun as <-. simpl.
  repeat (apply Forall_app; split);
    eauto using auditCompanyInfo_fixable, auditGSTConfiguration_fixable,
      auditTDSConfiguration_fixable, auditLedgerClassification_fixable,
      auditPartyMasters_fixable, auditStockItems_fixable.
Qed.

(** X2. In every report of the audit an issue carries a fix action
    exactly when it is marked auto-fixable; the action is the creation of
    a ledger, a regrouping or an update of TDS details, and
    [executeFixAction] has a request for it (it does not throw).  So
    [getAutoFixableIssues] returns the issues that carry a fix action. *)
Theorem audit_fixes_are_executable conn report :
  runFullAudit conn = Success report →
  Forall (fixable (getCompanyName conn)) (issues report) ∧
  getAutoFixableIssues conn
  = Success (List.filter (λ i, bool_decide (is_Some (fixAction i))) (issues report)).
Proof.
  intros Hrun. pose proof (runFullAudit_fixable (getCompanyName conn) _ _ Hrun) as Hfix.
  split; [done|].
  unfold getAutoFixableIssues. rewrite Hrun. f_equal.
  induction Hfix as [|i l Hi _ IH]; [done|]. simpl. rewrite IH.
  unfold fixable in Hi. destruct (fixAction i) as [a|].
  - destruct Hi as (-> & _). by rewrite bool_decide_eq_true_2.
  - rewrite Hi. rewrite bool_decide_eq_false_2; [done|]. by intros [? ?].
Qed.

Lemma audit_fixes_are_executable_witness :
  ∃ report,
    runFullAudit (snapshotOf [plainLedger "FD Security Deposit" "Current Assets"])
      = Success report ∧
    Forall (fixable (Some "Acme Traders")) (issues report) ∧
    getAutoFixableIssues (snapshotOf [plainLedger "FD Security Deposit" "Current Assets"])
    = Success (List.filter (λ i, bool_decide (is_Some (fixAction i))) (issues report)).
Proof.
  eexists. split; [reflexivity|].
  apply (audit_fixes_are_executable
           (snapshotOf [plainLedger "FD Security Deposit" "Current Assets"])).
  reflexivity.
Defined.

(** *** Previewing and applying a fix *)

Lemma find_firstWithId issueId l :
  match List.find (λ i, String.eqb (id i) issueId) l with
  | Some i => firstWithId issueId l i
  | None => ∀ i, i ∈ l → id i ≠ issueId
  end.
Proof.
  induction l as [|x l IH]; simpl.
  - intros i Hi. by apply elem_of_nil in Hi.
  - destruct (String.eqb_spec (id x) issueId) as [Hx|Hx].
    + exists 0%nat. split; [done|]. split; [done|]. intros j i' Hj. lia.
    + destruct (List.find _ l) as [i|].
      * destruct IH as (k & Hk & Hid & Hbefore).
        exists (S k). split; [done|]. split; [done|].
        intros [|j] i' Hj; simpl; [by intros [= <-]|].
        apply Hbefore. lia.
      * intros i [->|Hi]%elem_of_cons; [done|]. by apply IH.
Qed.

Lemma firstWithId_unique issueId l i1 i2 :
  firstWithId issueId l i1 → firstWithId issueId l i2 → i1 = i2.
Proof.
  intros (k1 & H1 & Hid1 & Hb1) (k2 & H2 & Hid2 & Hb2).
  destruct (Nat.lt_trichotomy k1 k2) as [Hlt|[->|Hlt]].
  - by destruct (Hb2 _ _ Hlt H1).
  - congruence.
  - by destruct (Hb1 _ _ Hlt H2).
Qed.

Lemma find_of_firstWithId issueId l i :
  firstWithId issueId l i →
  List.find (λ i, String.eqb (id i) issueId) l = Some i.
Proof.
  intros Hfirst. pose proof (find_firstWithId issueId l) as Hfind.
  destruct (List.find _ l) as [i'|].
  - f_equal. by eapply firstWithId_unique.
  - destruct Hfirst as (k & Hk & Hid & _).
    destruct (Hfind i); [|done]. by eapply list_elem_of_lookup_2.
Qed.

Lemma find_of_unknown issueId l :
  (∀ i, i ∈ l → id i ≠ issueId) →
  List.find (λ i, String.eqb (id i) issueId) l = None.
Proof.
  intros Hnone. pose proof (find_firstWithId issueId l) as Hfind.
  destruct (List.find _ l) as [i|]; [|done].
  destruct Hfind as (k & Hk & Hid & _).
  destruct (Hnone i); [|done]. by eapply list_elem_of_lookup_2.
Qed.

(** X3. [previewFix] and [applyFix] act on the first issue of the report
    that carries the id, and on no other.  With no such issue both answer
    that the issue was not found; if the first one is not auto-fixable
    both refuse; otherwise both succeed: [previewFix] shows the fix action
    of that issue, and [applyFix] sends its request and reports success
    with whatever Tally answered to it, a failure included. *)
Theorem applyFix_outcome {R} conn report (tally : FixRequest → R) issueId :
  runFullAudit conn = Success report →
  ((∀ i, i ∈ issues report → id i ≠ issueId) →
   previewFix conn issueId = Failure (notFound issueId) ∧
   applyFix conn tally issueId = Failure (notFound issueId)) ∧
  (∀ i, firstWithId issueId (issues report) i →
        if autoFixable i
        then ∃ a request,
               fixAction i = Some a ∧
               executeFixAction (getCompanyName conn) a = inl request ∧
               previewFix conn issueId = Success (previewOf i a) ∧
               applyFix conn tally issueId = Success (fixResultOf i a (tally request))
        else previewFix conn issueId = Failure (notAutoFixable issueId) ∧
             applyFix conn tally issueId = Failure (notAutoFixable issueId)).
Proof.
  intros Hrun. unfold previewFix, applyFix. rewrite Hrun. split.
  - intros Hnone. by rewrite (find_of_unknown _ _ Hnone).
  - intros i Hfirst. rewrite (find_of_firstWithId _ _ _ Hfirst).
    assert (Hfix : fixable (getCompanyName conn) i).
    { pose proof (runFullAudit_fixable (getCompanyName conn) _ _ Hrun) as Hall.
      destruct Hfirst as (k & Hk & _).
      eapply Forall_forall; [exact Hall|]. by eapply list_elem_of_lookup_2. }
    unfold fixable in Hfix. destruct (fixAction i) as [a|].
    + destruct Hfix as (Hauto & _ & request & Hreq). rewrite Hauto. simpl.
      exists a, request. rewrite Hreq.
      destruct Hfirst as (_ & _ & <- & _). done.
    + by rewrite Hfix.
Qed.

Lemma applyFix_outcome_witness :
  applyFix (snapshotOf [plainLedger "FD Security Deposit" "Current Assets"])
           (λ _, Failure "Tally request failed: timeout" : TallyResponse unit)
           "LEDGER_MISCLASS_FD Security Deposit"
  = Success
      {| issueId_ := "LEDGER_MISCLASS_FD Security Deposit";
         appliedFix := {| type := regroup_ledger;
                          targetName := VString "FD Security Deposit";
                          changes := [("parent", CString "Investments")] |};
         result := Failure "Tally request failed: timeout";
         message := "Successfully applied fix for: Potential Misclassification" |}.
Proof.
  pose proof (applyFix_outcome
                (snapshotOf [plainLedger "FD Security Deposit" "Current Assets"])
                _ (λ _, Failure "Tally request failed: timeout" : TallyResponse unit)
                "LEDGER_MISCLASS_FD Security Deposit" eq_refl) as [_ Hfirst].
  specialize (Hfirst
    (mkIssue "LEDGER_MISCLASS_FD Security Deposit" LedgerClassification Medium
       "Potential Misclassification" (Some [VString "FD Security Deposit"]) true
       (Some {| type := regroup_ledger;
                targetName := VString "FD Security Deposit";
                changes := [("parent", CString "Investments")] |}))).
  simpl in Hfirst.
  destruct Hfirst as (a & request & [= <-] & _ & _ & Happly).
  - exists 11%nat. split; [reflexivity|]. split; [reflexivity|].
    intros j i' Hj Hl.
    do 11 (destruct j as [|j]; [vm_compute in Hl; injection Hl as <-; by vm_compute|]).
    lia.
  - exact Happly.
Defined.

(** *** Several fixes *)

Lemma foldl_applyNext {R} (world : nat → Connection * (FixRequest → R)) l :
  ∀ acc,
    foldl (λ acc ki, applyNext world acc ki.1 ki.2) acc l
    = (acc.1 ++ omap (λ ki, match applyFix (world ki.1).1 (world ki.1).2 ki.2 with
                            | Success data => Some data
                            | Failure _ => None
                            end) l,
       acc.2 ++ omap (λ ki, match applyFix (world ki.1).1 (world ki.1).2 ki.2 with
                            | Success _ => None
                            | Failure error_ =>
                                Some {| failedIssueId := ki.2; error := error_ |}
                            end) l).
Proof.
  induction l as [|ki l IH]; intros [rs es]; simpl.
  - by rewrite !app_nil_r.
  - rewrite IH. unfold applyNext.
    destruct (applyFix _ _ _); simpl; by rewrite <- ?app_assoc.
Qed.

Lemma applyFix_issueId {R} conn (tally : FixRequest → R) issueId data :
  applyFix conn tally issueId = Success data → issueId_ data = issueId.
Proof.
  unfold applyFix. destruct (runFullAudit conn) as [report|]; [|done].
  destruct (List.find _ _) as [i|]; [|done].
  destruct (fixAction i) as [a|]; [|done].
  destruct (negb (autoFixable i)); [done|].
  destruct (executeFixAction _ a); [|done]. by intros [= <-].
Qed.

(** X4. [applyMultipleFixes] calls [applyFix] once for each id, in order:
    every id ends either in [results] or in [errors], both of which keep
    the order of the ids, the two counts are the lengths of those lists
    and add up to the number of ids, and [success] is set exactly when
    every call succeeded. *)
Theorem applyMultipleFixes_counts {R}
  (world : nat → Connection * (FixRequest → R)) issueIds :
  let r := applyMultipleFixes world issueIds in
  (successCount r + errorCount r = length issueIds)%nat ∧
  successCount r = length (results r) ∧
  errorCount r = length (errors r) ∧
  issueId_ <$> results r
    = snd <$> List.filter (fixSucceeds world) (numbered issueIds) ∧
  failedIssueId <$> errors r
    = snd <$> List.filter (λ ki, negb (fixSucceeds world ki)) (numbered issueIds) ∧
  (success r = true ↔
   ∀ (k : nat) issueId, issueIds !! k = Some issueId →
     ∃ data, applyFix (world k).1 (world k).2 issueId = Success data).
Proof.
  unfold applyMultipleFixes. rewrite foldl_applyNext. simpl.
  fold (numbered issueIds).
  assert (Hlen : length (numbered issueIds) = length issueIds)
    by apply length_imap.
  assert (Hlook : ∀ (k : nat) issueId,
             issueIds !! k = Some issueId ↔ (k, issueId) ∈ numbered issueIds).
  { intros k issueId. unfold numbered. rewrite list_elem_of_lookup. split.
    - intros Hk. exists k. by rewrite list_lookup_imap, Hk.
    - intros [j Hj]. rewrite list_lookup_imap in Hj.
      destruct (issueIds !! j) eqn:Hj'; simpl in Hj; [|done].
      injection Hj as <- <-. done. }
  rewrite <- Hlen. clear Hlen.
  revert Hlook. generalize (numbered issueIds). intros l Hlook.
  assert (Hall : ∀ P : nat → string → Prop,
             (∀ (k : nat) issueId, issueIds !! k = Some issueId → P k issueId)
             ↔ Forall (λ ki, P ki.1 ki.2) l).
  { intros P. rewrite Forall_forall. split.
    - intros HP [k issueId] Hin. apply HP. by apply Hlook.
    - intros HP k issueId Hk. by apply (HP (k, issueId)), Hlook. }
  rewrite (Hall (λ k issueId,
                   ∃ data, applyFix (world k).1 (world k).2 issueId = Success data)).
  clear Hall Hlook.
  rewrite bool_decide_eq_true. unfold omap.
  induction l as [|[k issueId] l (IH1 & _ & _ & IH4 & IH5 & IH6)]; simpl.
  - repeat split; done.
  - destruct (applyFix (world k).1 (world k).2 issueId) as [data|err] eqn:Happly.
    + assert (Hs : fixSucceeds world (k, issueId) = true)
        by (unfold fixSucceeds; simpl; by rewrite Happly).
      rewrite Hs. simpl. rewrite (applyFix_issueId _ _ _ _ Happly).
      repeat split; try done; try lia; try (f_equal; exact IH4).
      * intros Herr. constructor; [by eexists|]. by apply IH6.
      * intros [_ Hl]%Forall_cons. by apply IH6.
    + assert (Hs : fixSucceeds world (k, issueId) = false)
        by (unfold fixSucceeds; simpl; by rewrite Happly).
      rewrite Hs. simpl.
      repeat split; try done; try lia; try (f_equal; exact IH5).
      intros [[data Hd] _]%Forall_cons. simpl in Hd. congruence.
Qed.


(** *** Issues of one category *)

Lemma categoryString_lower_inj c1 c2 :
  Js.toLowerCase (categoryString c1) = Js.toLowerCase (categoryString c2) → c1 = c2.
Proof. destruct c1, c2; vm_compute; congruence. Qed.

Lemma no_VoucherType_issue conn report :
  runFullAudit conn = Success report → inCategory VoucherType (issues report) = [].
Proof.
  intros Hrun. destruct (runFullAudit_success _ _ Hrun) as [-> _].
  rewrite !inCategory_app.
  rewrite (inCategory_other _ _ _ (auditCompanyInfo_category conn)) by done.
  rewrite (inCategory_other _ _ _ (auditGSTConfiguration_category _)) by done.
  rewrite (inCategory_other _ _ _ (auditTDSConfiguration_category _)) by done.
  rewrite (inCategory_other _ _ _ (auditLedgerClassification_category _)) by done.
  rewrite (inCategory_other _ _ _ (auditPartyMasters_category _)) by done.
  by rewrite (inCategory_other _ _ _ (auditStockItems_category _)) by done.
Qed.

(** X5. [getIssuesByCategory], called with the name of a category in any
    letter case, returns the issues of that category in report order, as
    many as the report counts for the category; no issue is of the Voucher
    Type category.  A name that is no category's returns nothing: so does
    "Stock Items", the name under which the report scores the stock check,
    whose issues are of category "Stock Item". *)
Theorem issues_by_category conn report :
  runFullAudit conn = Success report →
  (∀ c name,
     Js.toLowerCase name = Js.toLowerCase (categoryString c) →
     getIssuesByCategory conn name = Success (inCategory c (issues report)) ∧
     ∀ ca, categoryAuditOf c (categories report) = Some ca →
           issueCount ca = length (inCategory c (issues report))) ∧
  inCategory VoucherType (issues report) = [] ∧
  (∀ name,
     (∀ c, Js.toLowerCase name ≠ Js.toLowerCase (categoryString c)) →
     getIssuesByCategory conn name = Success []) ∧
  getIssuesByCategory conn "Stock Items" = Success [].
Proof.
  intros Hrun.
  assert (Hunknown : ∀ name,
             (∀ c, Js.toLowerCase name ≠ Js.toLowerCase (categoryString c)) →
             getIssuesByCategory conn name = Success []).
  { intros name Hname. unfold getIssuesByCategory. rewrite Hrun. f_equal.
    apply List_filter_none, Forall_forall. intros i _.
    apply String.eqb_neq. intros Heq. by destruct (Hname (category i)). }
  split; [|split; [by apply (no_VoucherType_issue conn)|split; [done|]]].
  - intros c name Hname. split.
    + unfold getIssuesByCategory, inCategory. rewrite Hrun. f_equal.
      apply List.filter_ext. intros i.
      destruct (String.eqb_spec (Js.toLowerCase (categoryString (category i)))
                                (Js.toLowerCase name)) as [Heq|Hne].
      * rewrite Hname in Heq. apply categoryString_lower_inj in Heq.
        by rewrite bool_decide_eq_true_2.
      * rewrite bool_decide_eq_false_2; [done|]. intros <-. by rewrite Hname in Hne.
    + intros ca Hca.
      destruct (runFullAudit_categories _ _ Hrun) as (Hc & Hg & Ht & Hl & Hp & Hs).
      destruct (runFullAudit_success _ _ Hrun)
        as (_ & _ & Hg' & Ht' & Hl' & Hp' & Hs' & Hc').
      destruct c; simpl in Hca; try done; injection Hca as <-;
        rewrite ?Hc, ?Hg, ?Ht, ?Hl, ?Hp, ?Hs, ?Hc', ?Hg', ?Ht', ?Hl', ?Hp', ?Hs';
        done.
  - apply Hunknown. intros c. destruct c; vm_compute; congruence.
Qed.

Lemma issues_by_category_witness :
  ∃ report,
    runFullAudit (snapshotOf [plainLedger "Output CGST" "Duties & Taxes"])
      = Success report ∧
    getIssuesByCategory (snapshotOf [plainLedger "Output CGST" "Duties & Taxes"]) "gst"
      = Success (inCategory GST (issues report)) ∧
    issueCount (gst (categories report)) = length (inCategory GST (issues report)).
Proof.
  eexists. split; [reflexivity|].
  destruct (issues_by_category
              (snapshotOf [plainLedger "Output CGST" "Duties & Taxes"]) _ eq_refl)
    as (Hcat & _).
  destruct (Hcat GST "gst" eq_refl) as [Hget Hcount].
  split; [exact Hget|]. by apply Hcount.
Defined.

End AuditToolsFacts.
(** ** Statements, ratios and overdue payables *)

Section ReportsFacts.
Import FinancialReports.

Lemma Qeqb_spec (x y : Q) : Qeqb x y = true ↔ (x == y)%Q.
Proof. apply Qeq_bool_iff. Qed.

Lemma Qeqb_false (x y : Q) : Qeqb x y = false ↔ ¬ (x == y)%Q.
Proof. rewrite <- Qeqb_spec. by destruct (Qeqb x y). Qed.

Lemma Qgtb_false (x y : Q) : Qgtb x y = false ↔ (x <= y)%Q.
Proof.
  unfold Qgtb. rewrite negb_false_iff. apply Qle_bool_iff.
Qed.

Lemma Qltb_false (x y : Q) : Qltb x y = false ↔ (y <= x)%Q.
Proof.
  unfold Qltb. rewrite negb_false_iff. apply Qle_bool_iff.
Qed.

(** The two columns the code makes of a balance. *)
Lemma columnsOf_balance (b : Q) :
  columnsOf b (if Qgtb b 0 then b else 0%Q) (if Qltb b 0 then Qabs b else 0%Q).
Proof.
  unfold columnsOf.
  destruct (Qgtb b 0) eqn:Hpos; destruct (Qltb b 0) eqn:Hneg.
  - apply Qgtb_spec in Hpos. apply Qltb_spec in Hneg.
    exfalso. apply (Qlt_irrefl 0). by apply Qlt_trans with b.
  - apply Qgtb_spec in Hpos. repeat split.
    + by apply Qlt_le_weak.
    + apply Qle_refl.
    + by right.
    + ring.
  - apply Qltb_spec in Hneg.
    assert (Habs : (Qabs b == - b)%Q) by (apply Qabs_neg; by apply Qlt_le_weak).
    repeat split.
    + apply Qle_refl.
    + apply Qabs_nonneg.
    + by left.
    + rewrite Habs. ring.
  - apply Qgtb_false in Hpos. apply Qltb_false in Hneg.
    repeat split; try apply Qle_refl; [by left|].
    assert (b == 0)%Q as -> by (by apply Qle_antisym). ring.
Qed.

Lemma getTrialBalance_rows ledgers :
  getTrialBalance (Success ledgers)
  = Success (trialBalanceRow
               <$> List.filter (λ l, negb (Qeqb (CLOSINGBALANCE l) 0)) ledgers).
Proof.
  unfold getTrialBalance. f_equal.
  induction ledgers as [|l ledgers IH]; [done|]. simpl.
  destruct (negb (Qeqb (CLOSINGBALANCE l) 0)); simpl; by rewrite IH.
Qed.

(** X6. [getTrialBalance] makes one row for each ledger whose closing
    balance is not zero, in the order of the reply, and none for the
    others.  In a row the opening and the closing balance are each split
    in a debit and a credit column: neither is negative, at most one is
    not zero, and debit less credit is the balance; the transaction
    columns are always zero.  The closing debits less the closing credits
    add up to the sum of the closing balances of all the ledgers. *)
Theorem trial_balance_rows ledgers :
  ∃ rows,
    getTrialBalance (Success ledgers) = Success rows ∧
    Forall2 rowOf rows
      (List.filter (λ l, negb (Qeqb (CLOSINGBALANCE l) 0)) ledgers) ∧
    (sumQ (closingDebit <$> rows) - sumQ (closingCredit <$> rows)
     == sumQ (CLOSINGBALANCE <$> ledgers))%Q.
Proof.
  eexists. split; [apply getTrialBalance_rows|].
  unfold fmap.
  induction ledgers as [|l ledgers [IH1 IH2]]; simpl.
  - split; [constructor | reflexivity].
  - destruct (Qeqb (CLOSINGBALANCE l) 0) eqn:Hzero; simpl.
    + split; [done|]. apply Qeqb_spec in Hzero. rewrite IH2, Hzero. ring.
    + split.
      * constructor; [|done]. repeat split; simpl; try done;
          apply columnsOf_balance.
      * destruct (columnsOf_balance (CLOSINGBALANCE l)) as (_ & _ & _ & Hb).
        revert Hb.
        generalize (if Qgtb (CLOSINGBALANCE l) 0 then CLOSINGBALANCE l else 0%Q).
        generalize (if Qltb (CLOSINGBALANCE l) 0
                    then Qabs (CLOSINGBALANCE l) else 0%Q).
        intros credit debit Hb. rewrite <- IH2, <- Hb. ring.
Qed.


(** *** Profit and loss *)

Lemma isSubstringOf_trans {C} (u t s : list C) :
  isSubstringOf u t → isSubstringOf t s → isSubstringOf u s.
Proof.
  intros (p1 & s1 & ->) (p2 & s2 & ->).
  exists (p2 ++ p1), (s1 ++ s2). by rewrite <- !app_assoc.
Qed.

(** A group name that contains [t] contains every part of [t]. *)
Lemma parentIncludes_part ledger t u :
  ConfigAudit.strIncludes t u = true →
  parentIncludes ledger t = true → parentIncludes ledger u = true.
Proof.
  unfold parentIncludes, ConfigAudit.strIncludes. rewrite !includes_spec.
  intros Hu Ht. by eapply isSubstringOf_trans.
Qed.

Lemma sumQ_snoc l (x : Q) : (sumQ (l ++ [x]) == sumQ l + x)%Q.
Proof. rewrite sumQ_app. simpl. ring. Qed.

Lemma detailAmounts_snoc ds d :
  (sumQ (detailAmounts (ds ++ [d])) == sumQ (detailAmounts ds) + detailAmount d)%Q.
Proof. unfold detailAmounts. rewrite fmap_app. apply sumQ_snoc. Qed.

Lemma plStep_invariant ledgers pl ledger :
  ledger ∈ ledgers → plInvariant ledgers pl → plInvariant ledgers (plStep pl ledger).
Proof.
  intros Hin (Hinc & Hexp & Hind & Hid & Hed). unfold plStep.
  destruct (Qeqb (CLOSINGBALANCE ledger) 0) eqn:Hzero; [done|].
  apply Qeqb_false in Hzero.
  assert (Hfrom : ∀ t, detailFrom ledgers (entryOf ledger (CLOSINGBALANCE ledger) t)).
  { intros t. by exists ledger. }
  destruct (parentIncludes ledger "sales" || parentIncludes ledger "revenue").
  { split; [|split; [done|split; [done|split; [|done]]]]; simpl.
    - rewrite detailAmounts_snoc. simpl. rewrite <- Hinc. ring.
    - apply Forall_app. split; [done|]. apply Forall_singleton.
      split; [simpl; repeat constructor | apply Hfrom]. }
  destruct (parentIncludes ledger "income" || parentIncludes ledger "indirect income"
            || parentIncludes ledger "other income").
  { split; [|split; [done|split; [done|split; [|done]]]]; simpl.
    - rewrite detailAmounts_snoc. simpl. rewrite <- Hinc. ring.
    - apply Forall_app. split; [done|]. apply Forall_singleton.
      split; [simpl; repeat constructor | apply Hfrom]. }
  destruct (parentIncludes ledger "purchase").
  { split; [done|split; [|split; [done|split; [done|]]]]; simpl.
    - rewrite detailAmounts_snoc. simpl. rewrite <- Hexp. ring.
    - apply Forall_app. split; [done|]. apply Forall_singleton.
      split; [simpl; repeat constructor | apply Hfrom]. }
  destruct (parentIncludes ledger "direct expense") eqn:Hdirect.
  { split; [done|split; [|split; [done|split; [done|]]]]; simpl.
    - rewrite detailAmounts_snoc. simpl. rewrite <- Hexp. ring.
    - apply Forall_app. split; [done|]. apply Forall_singleton.
      split; [simpl; repeat constructor | apply Hfrom]. }
  destruct (parentIncludes ledger "indirect expense") eqn:Hindirect; [|done].
  apply (parentIncludes_part ledger _ "direct expense") in Hindirect; [|done].
  congruence.
Qed.

Lemma foldl_plStep_invariant ledgers : ∀ part pl,
  (∀ l, l ∈ part → l ∈ ledgers) →
  plInvariant ledgers pl → plInvariant ledgers (foldl plStep pl part).
Proof.
  induction part as [|l part IH]; intros pl Hsub Hpl; [done|]. simpl.
  apply IH.
  - intros l' Hl'. apply Hsub. by right.
  - apply plStep_invariant; [|done]. apply Hsub. by left.
Qed.

Lemma getProfitAndLoss_invariant ledgerResponse :
  plInvariant
    match ledgerResponse with Success l => l | Failure _ => [] end
    match ledgerResponse with
    | Success ledgers => foldl plStep (emptyIncome, emptyExpenses) ledgers
    | Failure _ => (emptyIncome, emptyExpenses)
    end.
Proof.
  destruct ledgerResponse as [l|]; [|by repeat split].
  apply foldl_plStep_invariant; [done|]. by repeat split.
Qed.

(** X7. [getProfitAndLoss] never reports an indirect expense.  The test
    for a group containing "direct expense" comes before the test for
    "indirect expense" and holds of every group the latter holds of, so
    the indirect expenses are always zero, no detail is of type "Indirect
    Expense", and the net profit is the gross profit plus the other
    income.  A ledger under Indirect Expenses is counted as a direct
    expense and lowers the gross profit. *)
Theorem profit_and_loss_never_indirect {A} (response : TallyResponse A) ledgerResponse :
  (∃ pl,
     getProfitAndLoss response ledgerResponse = Success pl ∧
     indirectExpenses (expenses pl) = 0%Q ∧
     Forall (λ d, detailType d ≠ "Indirect Expense") (expensesDetails (expenses pl)) ∧
     (netProfit pl == grossProfit pl + otherIncome (income pl))%Q) ∧
  getProfitAndLoss response (Success [ledgerUnder "Office Rent" "Indirect Expenses" 1200])
  = Success
      {| income := emptyIncome;
         expenses :=
           {| purchases := 0; directExpenses := 1200; indirectExpenses := 0;
              expensesTotal := 1200;
              expensesDetails :=
                [ {| detailName := ConfigAudit.VString "Office Rent";
                     detailAmount := 1200;
                     detailGroup := ConfigAudit.VString "Indirect Expenses";
                     detailType := "Direct Expense" |} ] |};
         grossProfit := -1200;
         netProfit := -1200 |}.
Proof.
  split; [|by vm_compute].
  eexists. split; [reflexivity|].
  destruct (getProfitAndLoss_invariant ledgerResponse) as (_ & _ & Hind & _ & Hed).
  simpl.
  split; [done|]. split.
  - eapply Forall_impl; [exact Hed|]. intros d [Ht _] Hd. rewrite Hd in Ht.
    repeat (apply elem_of_cons in Ht as [Ht|Ht]; [discriminate Ht|]).
    by apply elem_of_nil in Ht.
  - rewrite Hind. ring.
Qed.


Lemma plStep_lengths pl ledger :
  (length (incomeDetails (plStep pl ledger).1)
   + length (expensesDetails (plStep pl ledger).2)
   ≤ length (incomeDetails pl.1) + length (expensesDetails pl.2)
     + if Qeqb (CLOSINGBALANCE ledger) 0 then 0 else 1)%nat.
Proof.
  unfold plStep. destruct (Qeqb (CLOSINGBALANCE ledger) 0); [lia|].
  repeat match goal with
         | |- context [if ?b then _ else _] => destruct b
         end; simpl; rewrite ?length_app; simpl; lia.
Qed.

Lemma foldl_plStep_lengths ledgers : ∀ pl,
  (length (incomeDetails (foldl plStep pl ledgers).1)
   + length (expensesDetails (foldl plStep pl ledgers).2)
   ≤ length (incomeDetails pl.1) + length (expensesDetails pl.2)
     + length (List.filter (λ l, negb (Qeqb (CLOSINGBALANCE l) 0)) ledgers))%nat.
Proof.
  induction ledgers as [|l ledgers IH]; intros pl; simpl; [lia|].
  specialize (IH (plStep pl l)). pose proof (plStep_lengths pl l) as Hstep.
  destruct (Qeqb (CLOSINGBALANCE l) 0); simpl; lia.
Qed.

(** X8. [getProfitAndLoss] always returns a statement: when the ledger
    request fails all its figures are zero and it has no details.
    Otherwise every detail is the entry of a ledger of the reply whose
    balance is not zero, with the absolute balance as amount, and each such
    ledger gives at most one detail; the total of the income and the total
    of the expenses are the sums of the amounts of their details, and the
    net profit is the difference of the two totals. *)
Theorem profit_and_loss_totals {A} (response : TallyResponse A) ledgerResponse :
  let ledgers := match ledgerResponse with Success l => l | Failure _ => [] end in
  ∃ pl,
    getProfitAndLoss response ledgerResponse = Success pl ∧
    (incomeTotal (income pl) == sumQ (detailAmounts (incomeDetails (income pl))))%Q ∧
    (expensesTotal (expenses pl)
     == sumQ (detailAmounts (expensesDetails (expenses pl))))%Q ∧
    (netProfit pl == incomeTotal (income pl) - expensesTotal (expenses pl))%Q ∧
    Forall (detailFrom ledgers)
           (incomeDetails (income pl) ++ expensesDetails (expenses pl)) ∧
    (length (incomeDetails (income pl)) + length (expensesDetails (expenses pl))
     ≤ length (List.filter (λ l, negb (Qeqb (CLOSINGBALANCE l) 0)) ledgers))%nat ∧
    (ledgers = [] →
     pl = {| income := emptyIncome; expenses := emptyExpenses;
             grossProfit := 0; netProfit := 0 |}).
Proof.
  intros ledgers. eexists. split; [reflexivity|].
  assert (Hpl : match ledgerResponse with
                | Success ledgers => foldl plStep (emptyIncome, emptyExpenses) ledgers
                | Failure _ => (emptyIncome, emptyExpenses)
                end = foldl plStep (emptyIncome, emptyExpenses) ledgers)
    by (by destruct ledgerResponse).
  rewrite Hpl. clear Hpl.
  assert (Hinv : plInvariant ledgers (foldl plStep (emptyIncome, emptyExpenses) ledgers)).
  { apply foldl_plStep_invariant; [done|]. by repeat split. }
  pose proof (foldl_plStep_lengths ledgers (emptyIncome, emptyExpenses)) as Hlen.
  destruct Hinv as (Hinc & Hexp & Hind & Hid & Hed). simpl in *.
  split; [done|]. split; [rewrite Hind, <- Hexp; ring|]. split; [reflexivity|].
  split; [|split; [done|]].
  - apply Forall_app. split; (eapply Forall_impl; [eassumption|]); by intros d [_ ?].
  - by intros ->.
Qed.


(** *** Balance sheet *)

Lemma bsStep_invariant bs ledger : bsInvariant bs → bsInvariant (bsStep bs ledger).
Proof.
  intros (Hl & Hu & Hd & Ha). unfold bsStep.
  destruct (Qeqb (CLOSINGBALANCE ledger) 0); [done|].
  assert (Hliab : ∀ f t,
             f ≠ UnsecuredLoans →
             t ∈ ["Capital"; "Reserves & Surplus"; "Secured Loans"; "Current Liabilities"] →
             bsInvariant
               (addLiability f (Qabs (CLOSINGBALANCE ledger))
                  (entryOf ledger (CLOSINGBALANCE ledger) t) bs.1, bs.2)).
  { intros f t Hf Ht. split; [|split; [|split; [|done]]]; simpl.
    - rewrite detailAmounts_snoc. simpl. rewrite <- Hl. destruct f; try done; ring.
    - by destruct f.
    - apply Forall_app. split; [done|]. by apply Forall_singleton. }
  assert (Hasset : ∀ f t,
             bsInvariant
               (bs.1, addAsset f (Qabs (CLOSINGBALANCE ledger))
                        (entryOf ledger (CLOSINGBALANCE ledger) t) bs.2)).
  { intros f t. split; [done|split; [done|split; [done|]]]; simpl.
    rewrite detailAmounts_snoc. simpl. rewrite <- Ha. destruct f; ring. }
  destruct (parentIncludes ledger "capital");
    [apply Hliab; [done | simpl; repeat constructor]|].
  destruct (parentIncludes ledger "reserves" || parentIncludes ledger "surplus");
    [apply Hliab; [done | simpl; repeat constructor]|].
  destruct (parentIncludes ledger "secured loan") eqn:Hsecured;
    [apply Hliab; [done | simpl; repeat constructor]|].
  destruct (parentIncludes ledger "unsecured loan") eqn:Hunsecured.
  { apply (parentIncludes_part ledger _ "secured loan") in Hunsecured; [|done].
    congruence. }
  destruct (parentIncludes ledger "current liabilities"
            || parentIncludes ledger "sundry creditor" || parentIncludes ledger "duties");
    [apply Hliab; [done | simpl; repeat constructor]|].
  repeat match goal with
         | |- bsInvariant (if ?b then _ else _) => destruct b; [apply Hasset|]
         end.
  by repeat split.
Qed.

Lemma foldl_bsStep_invariant ledgers : ∀ bs,
  bsInvariant bs → bsInvariant (foldl bsStep bs ledgers).
Proof.
  induction ledgers as [|l ledgers IH]; intros bs Hbs; [done|]. simpl.
  by apply IH, bsStep_invariant.
Qed.

Lemma getBalanceSheet_invariant {A} (response : TallyResponse A) ledgerResponse :
  bsInvariant
    match ledgerResponse with
    | Success ledgers => foldl bsStep (emptyLiabilities, emptyAssets) ledgers
    | Failure _ => (emptyLiabilities, emptyAssets)
    end.
Proof.
  assert (Hempty : bsInvariant (emptyLiabilities, emptyAssets)) by (by repeat split).
  destruct ledgerResponse; [|done]. by apply foldl_bsStep_invariant.
Qed.

(** X9. [getBalanceSheet] never reports an unsecured loan.  The test for
    a group containing "secured loan" comes before the test for "unsecured
    loan" and holds of every group the latter holds of, so the unsecured
    loans are always zero and no detail is of type "Unsecured Loans": a
    ledger under Unsecured Loans is counted as a secured loan.  The totals
    of the liabilities and of the assets are the sums of the amounts of
    their details, and [difference] is assets less liabilities. *)
Theorem balance_sheet_never_unsecured {A} (response : TallyResponse A) ledgerResponse :
  (∃ bs,
     getBalanceSheet response ledgerResponse = Success bs ∧
     unsecuredLoans (liabilities bs) = 0%Q ∧
     Forall (λ d, detailType d ≠ "Unsecured Loans")
            (liabilitiesDetails (liabilities bs)) ∧
     (liabilitiesTotal (liabilities bs)
      == sumQ (detailAmounts (liabilitiesDetails (liabilities bs))))%Q ∧
     (assetsTotal (assets bs) == sumQ (detailAmounts (assetsDetails (assets bs))))%Q ∧
     (difference bs == assetsTotal (assets bs) - liabilitiesTotal (liabilities bs))%Q) ∧
  getBalanceSheet response
    (Success [ledgerUnder "Loan from Director" "Unsecured Loans" (-50000)])
  = Success
      {| liabilities :=
           {| capital := 0; reservesAndSurplus := 0; securedLoans := 50000;
              unsecuredLoans := 0; currentLiabilities := 0;
              liabilitiesTotal := 50000;
              liabilitiesDetails :=
                [ {| detailName := ConfigAudit.VString "Loan from Director";
                     detailAmount := 50000;
                     detailGroup := ConfigAudit.VString "Unsecured Loans";
                     detailType := "Secured Loans" |} ] |};
         assets := emptyAssets;
         difference := -50000 |}.
Proof.
  split; [|by vm_compute].
  eexists. split; [reflexivity|].
  destruct (getBalanceSheet_invariant response ledgerResponse) as (Hl & Hu & Hd & Ha).
  simpl. split; [done|]. split; [|split; [|split; [done|reflexivity]]].
  - eapply Forall_impl; [exact Hd|]. intros d Ht Hd'. cbv beta in Ht. rewrite Hd' in Ht.
    repeat (apply elem_of_cons in Ht as [Ht|Ht]; [discriminate Ht|]).
    by apply elem_of_nil in Ht.
  - rewrite Hu, <- Hl. ring.
Qed.

(** *** Ratios *)

#[local] Instance numOr_proper : Proper (Qeq ==> Qeq ==> Qeq) numOr.
Proof.
  intros x y Hxy a b Hab. unfold numOr.
  destruct (Qeqb x 0) eqn:Hx; destruct (Qeqb y 0) eqn:Hy; try done.
  - apply Qeqb_spec in Hx. apply Qeqb_false in Hy. destruct Hy. by rewrite <- Hxy.
  - apply Qeqb_spec in Hy. apply Qeqb_false in Hx. destruct Hx. by rewrite Hxy.
Qed.

Lemma numOr_zero (x : Q) : (numOr x 0 == x)%Q.
Proof.
  unfold numOr. destruct (Qeqb x 0) eqn:Hx; [|reflexivity].
  apply Qeqb_spec in Hx. by rewrite Hx.
Qed.

Lemma numOr_one_nonzero (x : Q) : ¬ (numOr x 1 == 0)%Q.
Proof.
  unfold numOr. destruct (Qeqb x 0) eqn:Hx; [done|]. by apply Qeqb_false.
Qed.

Lemma getProfitAndLoss_indirect {A} (response : TallyResponse A) ledgerResponse :
  ∃ pl, getProfitAndLoss response ledgerResponse = Success pl ∧
        indirectExpenses (expenses pl) = 0%Q.
Proof.
  eexists. split; [reflexivity|].
  by destruct (getProfitAndLoss_invariant ledgerResponse) as (_ & _ & Hind & _ & _).
Qed.

Lemma getBalanceSheet_unsecured {A} (response : TallyResponse A) ledgerResponse :
  ∃ bs, getBalanceSheet response ledgerResponse = Success bs ∧
        unsecuredLoans (liabilities bs) = 0%Q.
Proof.
  eexists. split; [reflexivity|].
  by destruct (getBalanceSheet_invariant response ledgerResponse) as (_ & Hu & _ & _).
Qed.

(** X10. [calculateFinancialRatios] never divides by zero: every divisor
    is a figure replaced by 1 when it is zero, so each ratio times its
    divisor gives back its numerator.  Several ratios are not what their
    names say: the quick ratio is the current ratio, the inventory and the
    debtors turnover are the sales figure and the creditors turnover is
    the purchases figure (their divisors are the constant 1), the interest
    coverage is always 0, and, since [getProfitAndLoss] reports no
    indirect expense and [getBalanceSheet] no unsecured loan, the
    operating margin is the gross margin and the debt of the debt-equity
    ratio is the secured loans alone. *)
Theorem ratio_identities {A B} (r1 : TallyResponse A) plLedgers
  (r2 : TallyResponse B) bsLedgers :
  ∃ pl bs ratios,
    getProfitAndLoss r1 plLedgers = Success pl ∧
    getBalanceSheet r2 bsLedgers = Success bs ∧
    calculateFinancialRatios (Success pl) (Success bs) = Success ratios ∧
    let sales_ := numOr (sales (income pl)) 1 in
    let equity :=
      numOr (capital (liabilities bs) + reservesAndSurplus (liabilities bs)) 1 in
    let totalAssets := numOr (assetsTotal (assets bs)) 1 in
    let currentLiabilities_ := numOr (currentLiabilities (liabilities bs)) 1 in
    (¬ sales_ == 0 ∧ ¬ equity == 0 ∧ ¬ totalAssets == 0 ∧ ¬ currentLiabilities_ == 0)%Q ∧
    (currentRatio ratios * currentLiabilities_ == currentAssets (assets bs))%Q ∧
    (quickRatio ratios == currentRatio ratios)%Q ∧
    (debtEquityRatio ratios * equity == securedLoans (liabilities bs))%Q ∧
    (returnOnEquity ratios * equity == netProfit pl * 100)%Q ∧
    (returnOnAssets ratios * totalAssets == netProfit pl * 100)%Q ∧
    (netProfitMargin ratios * sales_ == netProfit pl * 100)%Q ∧
    (grossProfitMargin ratios * sales_ == grossProfit pl * 100)%Q ∧
    (operatingProfitMargin ratios == grossProfitMargin ratios)%Q ∧
    (inventoryTurnover ratios == sales_)%Q ∧
    (debtorsTurnover ratios == sales_)%Q ∧
    (creditorsTurnover ratios == purchases (expenses pl))%Q ∧
    (workingCapitalTurnover ratios
     * numOr (currentAssets (assets bs) - currentLiabilities_) 1 == sales_)%Q ∧
    (assetTurnover ratios * totalAssets == sales_)%Q ∧
    interestCoverageRatio ratios = 0%Q.
Proof.
  destruct (getProfitAndLoss_indirect r1 plLedgers) as (pl & Hpl & Hind).
  destruct (getBalanceSheet_unsecured r2 bsLedgers) as (bs & Hbs & Hu).
  exists pl, bs. eexists. split; [done|]. split; [done|]. split; [reflexivity|].
  simpl. rewrite Hind, Hu.
  pose proof (numOr_one_nonzero (sales (income pl))) as Hs.
  pose proof (numOr_one_nonzero
                (capital (liabilities bs) + reservesAndSurplus (liabilities bs))) as He.
  pose proof (numOr_one_nonzero (assetsTotal (assets bs))) as Ha.
  pose proof (numOr_one_nonzero (currentLiabilities (liabilities bs))) as Hc.
  pose proof (numOr_one_nonzero
                (currentAssets (assets bs)
                 - numOr (currentLiabilities (liabilities bs)) 1)) as Hw.
  rewrite !numOr_zero.
  split; [done|].
  change (numOr 0 1) with 1%Q.
  repeat split; try (field; done).
Qed.


(** *** Payables overdue to MSMEs *)

Lemma amountsOf_filter_cons (f : Financial.Bill → bool) amountOf bill bills_ :
  (sumQ (amountsOf amountOf (List.filter f (bill :: bills_)))
   == (if f bill then amountOf (Financial.amount bill) else 0)
      + sumQ (amountsOf amountOf (List.filter f bills_)))%Q.
Proof. simpl. destruct (f bill); simpl; ring. Qed.

Lemma overdueBills_buckets asOnDate amountOf bills_ :
  (sumQ (amountsOf amountOf (billsIn Financial.Days60 asOnDate bills_))
   + sumQ (amountsOf amountOf (billsIn Financial.Days90 asOnDate bills_))
   + sumQ (amountsOf amountOf (billsIn Financial.Days180 asOnDate bills_))
   + sumQ (amountsOf amountOf (billsIn Financial.Above180 asOnDate bills_))
   == sumQ (amountsOf amountOf (overdueBills asOnDate bills_)))%Q.
Proof.
  induction bills_ as [|bill bills_ IH]; [done|].
  unfold billsIn, overdueBills in *.
  rewrite !amountsOf_filter_cons, <- IH.
  destruct (billBucket asOnDate bill); simpl; ring.
Qed.

(** The buckets of an aged creditor, by its bills. *)
Lemma ageLedger_overdue asOnDate total_ l :
  let aged := Financial.ageLedger Qabs asOnDate total_ l in
  (Financial.days60 aged + Financial.days90 aged + Financial.days180 aged
   + Financial.above180 aged == overdueOf asOnDate l)%Q ∧
  (Financial.bills l ≠ [] →
   Financial.current aged + Financial.days30 aged
   + (Financial.days60 aged + Financial.days90 aged + Financial.days180 aged
      + Financial.above180 aged)
   == sumQ (amountsOf Qabs (Financial.bills l)))%Q ∧
  Financial.billWiseDetails aged = detailOf Qabs asOnDate <$> Financial.bills l ∧
  Financial.partyName aged = Financial.NAME l ∧
  Financial.total aged = total_.
Proof.
  intros aged. unfold aged, Financial.ageLedger, overdueOf.
  match goal with
  | |- context [foldl _ ?a _] =>
      destruct (foldl_ageBill Qabs asOnDate (Financial.bills l) a)
        as (Hsum & Hdet & Htot & Hname);
      set (aged0 := a) in *
  end.
  pose proof (Hsum Financial.Current) as Hc. pose proof (Hsum Financial.Days30) as H30.
  pose proof (Hsum Financial.Days60) as H60. pose proof (Hsum Financial.Days90) as H90.
  pose proof (Hsum Financial.Days180) as H180.
  pose proof (Hsum Financial.Above180) as Ha.
  simpl in Hc, H30, H60, H90, H180, Ha, Hdet, Htot, Hname.
  case_bool_decide as Hempty.
  - destruct (Financial.bills l); [|done]. simpl. by repeat split.
  - split; [|split; [|done]].
    + rewrite H60, H90, H180, Ha, <- overdueBills_buckets. ring.
    + intros _. rewrite Hc, H30, H60, H90, H180, Ha.
      rewrite <- (sumQ_buckets Qabs asOnDate (Financial.bills l)). simpl. ring.
Qed.

Lemma Qgtb_proper (x y : Q) : (x == y)%Q → Qgtb x 0 = Qgtb y 0.
Proof.
  intros Hxy. destruct (Qgtb y 0) eqn:Hy.
  - apply Qgtb_spec. apply Qgtb_spec in Hy. by rewrite Hxy.
  - apply Qgtb_false. apply Qgtb_false in Hy. by rewrite Hxy.
Qed.

Lemma foldl_overdue ps : ∀ acc : Q,
  (foldl (λ sum p, sum + overdueAmount p) acc ps
   == acc + sumQ (overdueAmount <$> ps))%Q.
Proof.
  unfold fmap. induction ps as [|p ps IH]; intros acc; simpl; [ring|].
  rewrite IH. ring.
Qed.

(** X11. [getMSMEPayables] lists, in the order of the aging, the creditors
    with a positive overdue amount, and counts them.  The overdue amount,
    also reported as the amount above 45 days, is the total of the bills
    in the aging buckets beyond 30 days, an invalid bill date included;
    with the amount within 45 days it adds up to the total of the bills.
    The bills listed with it are those aged more than 45 days only: a bill
    aged 40 days is counted in the overdue amount and not listed.  The
    total overdue is the sum of the overdue amounts. *)
Theorem msme_overdue_amounts asOnDate ledgers :
  (∃ r,
     getMSMEPayables (Financial.getCreditorsAging asOnDate (Success ledgers))
       = Success r ∧
     Forall2 (overduePayableOf asOnDate) (overduePayables r)
       (List.filter (λ l, Qgtb (overdueOf asOnDate l) 0) (creditorsOf ledgers)) ∧
     partiesCount (summary r) = length (overduePayables r) ∧
     (totalOverdue (summary r) == sumQ (overdueAmount <$> overduePayables r))%Q) ∧
  getMSMEPayables
    (Financial.getCreditorsAging (Js.dateOf 2024 3 31)
       (Success [ {| Financial.NAME := "Supplier";
                     Financial.CLOSINGBALANCE := -1000;
                     Financial.bills :=
                       [ {| Financial.billName := "B-1";
                            Financial.billDate := Some (Js.dateOf 2024 2 20);
                            Financial.amount := -1000 |} ] |} ]))
  = Success
      {| overduePayables :=
           [ {| partyName := "Supplier"; totalOutstanding := 1000;
                overdueAmount := 1000; within45Days := 0; above45Days := 1000;
                billWiseDetails := [] |} ];
         summary :=
           {| totalOverdue := 1000; partiesCount := 1;
              remarks :=
                "Amount outstanding to MSMEs beyond 45 days is disallowed u/s 43B(h) of Income Tax Act" |} |}.
Proof.
  split; [|by vm_compute].
  rewrite getCreditorsAging_ledgers. fold (creditorsOf ledgers).
  eexists. split; [reflexivity|]. simpl.
  split; [|split; [done | by rewrite foldl_overdue, Qplus_0_l]].
  induction (creditorsOf ledgers) as [|l ls IH]; simpl; [constructor|].
  destruct (ageLedger_overdue asOnDate (Qabs (Financial.CLOSINGBALANCE l)) l)
    as (Hover & Hsum & Hdet & Hname & Htot).
  rewrite (Qgtb_proper _ _ Hover).
  destruct (Qgtb (overdueOf asOnDate l) 0) eqn:Hpos; simpl; [|done].
  constructor; [|done].
  repeat split; simpl; try done.
  - rewrite Hsum; [reflexivity|].
    intros Hnil. unfold overdueOf in Hpos. by rewrite Hnil in Hpos.
  - by rewrite Hdet.
Qed.

End ReportsFacts.
(** ** Dates of the connection *)

Section ConnectionFacts.
Import TallyConnection.

Lemma digitsOf_range (f : Z → string) (n : nat) (lo len : Z) :
  forallb (λ z, digitsOf n (f z)) (seqZ lo len) = true →
  ∀ z, (lo ≤ z < lo + len)%Z → digitsOf n (f z) = true.
Proof.
  intros Hall z Hz. rewrite forallb_forall in Hall. apply Hall.
  apply list_elem_of_In, elem_of_seqZ. lia.
Qed.

Lemma year_digits (y : Z) : (1000 ≤ y ≤ 9999)%Z → digitsOf 4 (intToString y) = true.
Proof.
  intros Hy. apply (digitsOf_range intToString 4 1000 9000); [by vm_compute | lia].
Qed.

Lemma padStart2_digits (n : Z) : (0 ≤ n ≤ 99)%Z → digitsOf 2 (padStart2 n) = true.
Proof.
  intros Hn. apply (digitsOf_range padStart2 2 0 100); [by vm_compute | lia].
Qed.

(** [parseDate] on a text of eight digits, four for the year and two each
    for the month and the day. *)
Lemma parseDate_digits (y m d : string) :
  digitsOf 4 y = true → digitsOf 2 m = true → digitsOf 2 d = true →
  parseDate (ConfigAudit.VString (y +:+ m +:+ d)) = y +:+ "-" +:+ m +:+ "-" +:+ d.
Proof.
  intros Hy Hm Hd.
  destruct y as [|y1 [|y2 [|y3 [|y4 [|]]]]];
    simpl in Hy; rewrite ?andb_false_r in Hy; try done.
  destruct m as [|m1 [|m2 [|]]];
    simpl in Hm; rewrite ?andb_false_r in Hm; try done.
  destruct d as [|d1 [|d2 [|]]];
    simpl in Hd; rewrite ?andb_false_r in Hd; try done.
  repeat match goal with
         | H : _ && _ = true |- _ => apply andb_true_iff in H as [? H]
         end.
  unfold parseDate, extractStringValue, ConfigAudit.classMatches. simpl.
  repeat match goal with
         | H : Js.isDigit _ = true |- _ => rewrite H; clear H
         end.
  done.
Qed.


(** X12. [formatTallyDate] and [parseDate] are inverse on the dates with a
    year of four digits: the text YYYYMMDD that [formatTallyDate] makes of
    such a date is read back by [parseDate] as YYYY-MM-DD.  The year is not
    padded, so an earlier year gives fewer than eight digits, which
    [parseDate] returns unchanged, as it does the text made of an invalid
    date. *)
Theorem parseDate_formatTallyDate :
  (∀ d, fourDigitYear d →
        parseDate (ConfigAudit.VString (formatTallyDate (Some d))) = isoDate d) ∧
  parseDate (ConfigAudit.VString
               (formatTallyDate
                  (Some {| getFullYear := 999; getMonth := 0; getDate := 1 |})))
    = "9990101" ∧
  parseDate (ConfigAudit.VString (formatTallyDate None)) = "NaNNaNNaN".
Proof.
  split; [|by vm_compute].
  intros d (Hy & Hm & Hd). unfold formatTallyDate, isoDate.
  apply parseDate_digits.
  - by apply year_digits.
  - apply padStart2_digits. lia.
  - apply padStart2_digits. lia.
Qed.

Lemma parseDate_formatTallyDate_witness :
  parseDate (ConfigAudit.VString
               (formatTallyDate
                  (Some {| getFullYear := 2024; getMonth := 3; getDate := 1 |})))
  = "2024-04-01".
Proof.
  apply (proj1 parseDate_formatTallyDate
               {| getFullYear := 2024; getMonth := 3; getDate := 1 |}).
  unfold fourDigitYear. simpl. lia.
Defined.

(** [parseDate] acts on the text [extractStringValue] gives. *)
Lemma parseDate_text v :
  parseDate v =
    let str := extractStringValue v in
    if bool_decide (String.length str = 8%nat) &&
       ConfigAudit.classMatches (replicate 8 Js.isDigit) str
    then String.substring 0 4 str +:+ "-" +:+ String.substring 4 2 str +:+ "-" +:+
         String.substring 6 2 str
    else str.
Proof.
  unfold parseDate, extractStringValue.
  destruct (negb (ConfigAudit.truthy v)); [done|].
  match goal with |- context [String.eqb ?s ""] => destruct (String.eqb_spec s "") as [->|] end;
    done.
Qed.

Lemma extractStringValue_text str :
  extractStringValue (ConfigAudit.VString str) = str.
Proof.
  unfold extractStringValue. simpl. by destruct (String.eqb_spec str "") as [->|].
Qed.

(** The two cases of [parseDate] on a text. *)
Lemma parseDate_cases str :
  parseDate (ConfigAudit.VString str) = str ∨
  (digitsOf 8 str = true ∧
   String.length (parseDate (ConfigAudit.VString str)) = 10%nat).
Proof.
  rewrite parseDate_text, extractStringValue_text. simpl.
  destruct (bool_decide (String.length str = 8%nat)) eqn:Hlen; [|by left]. simpl.
  destruct (ConfigAudit.classMatches _ str) eqn:Hclass; [|by left].
  right. apply bool_decide_eq_true in Hlen.
  destruct str as [|c1 [|c2 [|c3 [|c4 [|c5 [|c6 [|c7 [|c8 [|]]]]]]]]]; try done.
Qed.

(** X13. [parseDate] is idempotent: what it returns, it returns unchanged
    when given it again.  Its result is the text of the value as
    [extractStringValue] gives it, except for a text of eight digits, of
    which it makes a text of ten units; so a date that the XML parser
    delivered as a number, or as the text of an element with attributes,
    is read like a string. *)
Theorem parseDate_idempotent :
  (∀ v, parseDate (ConfigAudit.VString (parseDate v)) = parseDate v) ∧
  (∀ v, parseDate v = extractStringValue v ∨
        (digitsOf 8 (extractStringValue v) = true ∧
         String.length (parseDate v) = 10%nat)) ∧
  parseDate (ConfigAudit.VNumber 20240401) = "2024-04-01" ∧
  parseDate (ConfigAudit.VText "20240401") = "2024-04-01".
Proof.
  assert (Hidem : ∀ str, parseDate (ConfigAudit.VString (parseDate (ConfigAudit.VString str)))
                         = parseDate (ConfigAudit.VString str)).
  { intros str. destruct (parseDate_cases str) as [Hsame|[_ Hlen]];
      [by rewrite !Hsame|].
    rewrite (parseDate_text (ConfigAudit.VString (parseDate _))).
    rewrite extractStringValue_text. simpl.
    by rewrite Hlen. }
  assert (Hvia : ∀ v, parseDate v = parseDate (ConfigAudit.VString (extractStringValue v))).
  { intros v. rewrite (parseDate_text v), (parseDate_text (ConfigAudit.VString _)).
    by rewrite extractStringValue_text. }
  split; [|split; [|by vm_compute]].
  - intros v. rewrite (Hvia v). apply Hidem.
  - intros v. rewrite (Hvia v). apply parseDate_cases.
Qed.

End ConnectionFacts.
(** ** The bank book and the statements made of it *)

Section BankBookFacts.
Import BankBook.
Context (newDate : string → Js.Date) (localeCompare : string → string → Z).

Lemma sumQ_Permutation (l1 l2 : list Q) : l1 ≡ₚ l2 → (sumQ l1 == sumQ l2)%Q.
Proof.
  induction 1 as [|x l1 l2 _ IH|x y l|l1 l2 l3 _ IH1 _ IH2]; simpl.
  - reflexivity.
  - by rewrite IH.
  - ring.
  - by rewrite IH1.
Qed.

Lemma sumQ_fmap_snoc {A} (f : A → Q) (l : list A) (x : A) :
  (sumQ (f <$> l ++ [x]) == sumQ (f <$> l) + f x)%Q.
Proof. rewrite fmap_app. apply sumQ_snoc. Qed.

Lemma insertSorted_Permutation voucher sorted :
  insertSorted localeCompare voucher sorted ≡ₚ voucher :: sorted.
Proof.
  induction sorted as [|v rest IH]; simpl; [done|].
  destruct (_ <? 0)%Z; [done|]. rewrite IH. apply Permutation_swap.
Qed.

Lemma sortByDate_Permutation vouchers : sortByDate localeCompare vouchers ≡ₚ vouchers.
Proof.
  unfold sortByDate.
  assert (Hgen : ∀ acc, foldl (λ sorted voucher, insertSorted localeCompare voucher sorted)
                              acc vouchers ≡ₚ acc ++ vouchers).
  { induction vouchers as [|v vouchers IH]; intros acc; simpl.
    - by rewrite app_nil_r.
    - rewrite IH, insertSorted_Permutation. simpl. apply Permutation_middle. }
  apply Hgen.
Qed.

Lemma bankBookStep_invariant bankLedgerName part acc voucher :
  bankBookInvariant bankLedgerName part acc →
  bankBookInvariant bankLedgerName (part ++ [voucher])
    (bankBookStep bankLedgerName acc voucher).
Proof.
  intros (Hentries & Hrun & Hsum & Hvouchers & Hlen).
  unfold bankBookStep, bankBookInvariant.
  rewrite sumQ_fmap_snoc, length_app. simpl.
  unfold bankAmountOf at 2.
  destruct (extractBankAllocation voucher bankLedgerName) as [a|].
  - simpl.
    set (txn := {| date := _ |}).
    assert (Hsigned : (signedAmount txn == amount a)%Q).
    { unfold signedAmount, txn. simpl.
      destruct (Qgtb (amount a) 0) eqn:Hpos; [ring|].
      apply Qgtb_false in Hpos. rewrite (Qabs_neg _ Hpos). ring. }
    assert (Hentry : bookEntry txn).
    { unfold bookEntry, txn. simpl.
      destruct (Qgtb (amount a) 0) eqn:Hpos.
      - apply Qgtb_spec in Hpos. split; [by apply Qlt_le_weak|].
        split; [apply Qle_refl|]. split; [by right|].
        unfold nonEmpty. split; [|done].
        destruct (String.eqb_spec (allocBankDate a) ""); simpl; split; done.
      - split; [apply Qle_refl|]. split; [apply Qabs_nonneg|]. split; [by left|].
        unfold nonEmpty. split; [|done].
        destruct (String.eqb_spec (allocBankDate a) ""); simpl; split; done. }
    split; [apply Forall_app; split; [done | by apply Forall_singleton]|].
    split; [|split; [|split; [|rewrite length_app; simpl; lia]]].
    + intros k t Hk. destruct (decide (k < length acc.1)%nat) as [Hlt|Hge].
      * rewrite lookup_app_l in Hk by done.
        rewrite take_app_le by lia. by apply Hrun.
      * rewrite lookup_app_r in Hk by lia.
        destruct (k - length acc.1)%nat eqn:Hk'; [|done]. injection Hk as <-.
        rewrite take_ge by (rewrite length_app; simpl; lia).
        rewrite sumQ_fmap_snoc, Hsigned, <- Hsum. reflexivity.
    + rewrite sumQ_fmap_snoc, Hsigned, Hsum. reflexivity.
    + by rewrite Hvouchers.
  - split; [done|]. split; [done|]. split; [done|]. split; [|lia].
    rewrite Hvouchers. ring.
Qed.


Lemma foldl_bankBookStep_invariant bankLedgerName rest : ∀ part acc,
  bankBookInvariant bankLedgerName part acc →
  bankBookInvariant bankLedgerName (part ++ rest)
    (foldl (bankBookStep bankLedgerName) acc rest).
Proof.
  induction rest as [|v rest IH]; intros part acc Hacc; simpl.
  - by rewrite app_nil_r.
  - replace (part ++ v :: rest) with ((part ++ [v]) ++ rest)
      by (by rewrite <- app_assoc).
    apply IH.
    by apply bankBookStep_invariant.
Qed.

Lemma getBankBook_invariant bankLedgerName vouchers :
  ∃ txns,
    getBankBook localeCompare bankLedgerName (Success vouchers) = Success txns ∧
    Forall bookEntry txns ∧
    runningBalance txns ∧
    (sumQ (signedAmount <$> txns)
     == sumQ (bankAmountOf bankLedgerName <$> vouchers))%Q ∧
    (length txns ≤ length vouchers)%nat.
Proof.
  eexists. split; [reflexivity|].
  pose proof (foldl_bankBookStep_invariant bankLedgerName
                (sortByDate localeCompare vouchers) [] ([], 0%Q)) as Hinv.
  destruct Hinv as (Hentries & Hrun & Hsum & Hvouchers & Hlen).
  { by repeat split. }
  simpl in *. split; [done|]. split; [done|].
  pose proof (sortByDate_Permutation vouchers) as Hperm.
  split.
  - rewrite <- Hsum, Hvouchers. apply sumQ_Permutation. by rewrite Hperm.
  - by rewrite <- (Permutation_length Hperm).
Qed.


(** *** The reconciliation statement *)

Lemma sumOf_sumQ {A} (f : A → Q) (l : list A) : (sumOf f l == sumQ (f <$> l))%Q.
Proof.
  unfold sumOf.
  assert (Hgen : ∀ acc : Q, (foldl (λ sum t, sum + f t) acc l
                             == acc + sumQ (f <$> l))%Q).
  { unfold fmap. induction l as [|x l IH]; intros acc; simpl; [ring|].
    rewrite IH. ring. }
  rewrite Hgen. ring.
Qed.

(** The three variables of the loop of [generateBRS] after [txns]. *)
Lemma foldl_brsStep reconDate txns : ∀ st,
  let st' := foldl (brsStep newDate reconDate) st txns in
  (sBalanceAsPerBooks st' == sBalanceAsPerBooks st + sumQ (signedAmount <$> txns))%Q ∧
  sUnClearedCheques st'
  = sUnClearedCheques st
    ++ List.filter (λ t, unclearedOn newDate reconDate t && Qgtb (credit t) 0) txns ∧
  sUnClearedDeposits st'
  = sUnClearedDeposits st
    ++ List.filter (λ t, unclearedOn newDate reconDate t && negb (Qgtb (credit t) 0)
                         && Qgtb (debit t) 0) txns.
Proof.
  unfold fmap. induction txns as [|t txns IH]; intros st; simpl.
  - split; [ring|]. by rewrite !app_nil_r.
  - destruct (IH (brsStep newDate reconDate st t)) as (Hb & Hc & Hd).
    rewrite Hc, Hd. split.
    + rewrite Hb. unfold brsStep, signedAmount.
      destruct (unclearedOn newDate reconDate t); [|simpl; ring].
      destruct (Qgtb (credit t) 0); [simpl; ring|].
      destruct (Qgtb (debit t) 0); simpl; ring.
    + unfold brsStep.
      destruct (unclearedOn newDate reconDate t); simpl; [|done].
      destruct (Qgtb (credit t) 0); simpl; [by rewrite <- app_assoc|].
      destruct (Qgtb (debit t) 0); simpl; [by rewrite <- app_assoc | done].
Qed.


(** On a bank book the uncleared cheques and deposits cancel the
    transactions that are not cleared. *)
Lemma cleared_balance reconDate txns :
  Forall bookEntry txns →
  (sumQ (signedAmount <$> txns)
   + sumQ (credit <$> List.filter
                        (λ t, unclearedOn newDate reconDate t && Qgtb (credit t) 0) txns)
   - sumQ (debit <$> List.filter
                       (λ t, unclearedOn newDate reconDate t && negb (Qgtb (credit t) 0)
                             && Qgtb (debit t) 0) txns)
   == sumQ (signedAmount
              <$> List.filter (λ t, negb (unclearedOn newDate reconDate t)) txns))%Q.
Proof.
  unfold fmap. induction 1 as [|t txns Ht _ IH]; simpl; [ring|].
  destruct Ht as (Hd & Hc & Hzero & _).
  destruct (unclearedOn newDate reconDate t); simpl.
  - destruct (Qgtb (credit t) 0) eqn:Hcredit; simpl.
    + apply Qgtb_spec in Hcredit.
      assert (Hdz : (debit t == 0)%Q).
      { destruct Hzero as [?|Hcz]; [done|]. rewrite Hcz in Hcredit.
        by apply Qlt_irrefl in Hcredit. }
      rewrite <- IH. unfold signedAmount. rewrite Hdz. ring.
    + apply Qgtb_false in Hcredit.
      assert (Hcz : (credit t == 0)%Q) by (by apply Qle_antisym).
      destruct (Qgtb (debit t) 0) eqn:Hdebit; simpl.
      * rewrite <- IH. unfold signedAmount. rewrite Hcz. ring.
      * apply Qgtb_false in Hdebit.
        assert (Hdz : (debit t == 0)%Q) by (by apply Qle_antisym).
        rewrite <- IH. unfold signedAmount. rewrite Hcz, Hdz. ring.
  - rewrite <- IH. ring.
Qed.

(** X15. The statement [generateBRS] makes of a bank book: the balance as
    per books is the total of debit less credit over the whole book, which
    is the balance column of its last transaction; the uncleared cheques
    are the transactions not cleared on the date that have a credit, the
    uncleared deposits those that have a debit; and the balance as per
    bank, books plus uncleared cheques less uncleared deposits, is the
    total of the transactions that are cleared on the date.  The
    reconciliation difference is always 0. *)
Theorem brs_bank_balance bankLedgerName asOnDate vouchers :
  let uncleared := unclearedOn newDate (newDate asOnDate) in
  ∃ txns brs,
    getBankBook localeCompare bankLedgerName (Success vouchers) = Success txns ∧
    generateBRS newDate bankLedgerName asOnDate (Success txns) = Success brs ∧
    (balanceAsPerBooks brs == sumQ (signedAmount <$> txns))%Q ∧
    (∀ txn, last txns = Some txn → (balanceAsPerBooks brs == balance txn)%Q) ∧
    unClearedCheques brs = List.filter (λ t, uncleared t && Qgtb (credit t) 0) txns ∧
    unClearedDeposits brs = List.filter (λ t, uncleared t && Qgtb (debit t) 0) txns ∧
    (balanceAsPerBank brs
     == sumQ (signedAmount <$> List.filter (λ t, negb (uncleared t)) txns))%Q ∧
    reconciliationDifference brs = 0%Q.
Proof.
  intros uncleared.
  destruct (getBankBook_invariant bankLedgerName vouchers)
    as (txns & Hbook & Hentries & Hrun & _ & _).
  exists txns. eexists. split; [done|]. split; [reflexivity|]. simpl.
  match goal with
  | |- context [foldl _ ?st0 _] =>
      destruct (foldl_brsStep (newDate asOnDate) txns st0) as (Hb & Hc & Hd)
  end.
  simpl in Hb, Hc, Hd. rewrite Hc, Hd.
  assert (Hbooks : (sBalanceAsPerBooks
                      (foldl (brsStep newDate (newDate asOnDate))
                         {| sBalanceAsPerBooks := 0; sUnClearedCheques := [];
                            sUnClearedDeposits := [] |} txns)
                    == sumQ (signedAmount <$> txns))%Q).
  { rewrite Hb. ring. }
  split; [done|]. split; [|split; [done|split; [|split; [|done]]]].
  - intros txn Hlast. rewrite Hbooks. rewrite last_lookup in Hlast.
    rewrite (Hrun _ _ Hlast). rewrite take_ge; [reflexivity|].
    destruct txns; simpl in *; [done | lia].
  - apply List.filter_ext_in. intros t Ht%list_elem_of_In.
    fold (uncleared t). destruct (uncleared t); simpl; [|done].
    rewrite Forall_forall in Hentries.
    destruct (Hentries t Ht) as (Hdn & Hcn & Hzero & _).
    destruct (Qgtb (credit t) 0) eqn:Hcredit; simpl; [|done].
    apply Qgtb_spec in Hcredit. symmetry. apply Qgtb_false.
    destruct Hzero as [->|Hcz]; [apply Qle_refl|].
    rewrite Hcz in Hcredit. by apply Qlt_irrefl in Hcredit.
  - rewrite Hbooks, !sumOf_sumQ. apply cleared_balance. done.
Qed.


(** *** Aging of the uncleared items *)

(** The bucket the chain of comparisons of [ageItem] chooses. *)
Lemma ageItem_bucket (a : option Z) :
  daysLe a 7 = agedUpTo 7 a ∧
  (negb (daysLe a 7) && daysLe a 30) = agedWithin 7 30 a ∧
  (negb (daysLe a 7) && negb (daysLe a 30) && daysLe a 90) = agedWithin 30 90 a ∧
  (negb (daysLe a 7) && negb (daysLe a 30) && negb (daysLe a 90))
  = (agedAbove 90 a || bool_decide (a = None)) ∧
  daysGt a 90 = agedAbove 90 a.
Proof.
  destruct a as [d|]; simpl; [|done].
  destruct (Z.leb_spec d 7), (Z.leb_spec d 30), (Z.leb_spec d 90),
    (Z.ltb_spec 90 d); simpl;
    repeat split;
    repeat first [ rewrite bool_decide_eq_true_2 by lia
                 | rewrite bool_decide_eq_false_2 by (done || lia) ];
    done || lia.
Qed.

Lemma foldl_ageItem value reconDate items : ∀ aging,
  let age := agingDaysOf newDate reconDate in
  let aging' := foldl (ageItem newDate value reconDate) aging items in
  within7Days aging'
    = within7Days aging ++ List.filter (λ t, agedUpTo 7 (age t)) items ∧
  within30Days aging'
    = within30Days aging ++ List.filter (λ t, agedWithin 7 30 (age t)) items ∧
  within90Days aging'
    = within90Days aging ++ List.filter (λ t, agedWithin 30 90 (age t)) items ∧
  above90Days aging'
    = above90Days aging
      ++ List.filter (λ t, agedAbove 90 (age t) || bool_decide (age t = None)) items ∧
  (within7 (totals aging')
   == within7 (totals aging)
      + sumQ (value <$> List.filter (λ t, agedUpTo 7 (age t)) items))%Q ∧
  (within30 (totals aging')
   == within30 (totals aging)
      + sumQ (value <$> List.filter (λ t, agedWithin 7 30 (age t)) items))%Q ∧
  (within90 (totals aging')
   == within90 (totals aging)
      + sumQ (value <$> List.filter (λ t, agedWithin 30 90 (age t)) items))%Q ∧
  (above90 (totals aging')
   == above90 (totals aging)
      + sumQ (value <$> List.filter
                          (λ t, agedAbove 90 (age t) || bool_decide (age t = None))
                          items))%Q.
Proof.
  unfold fmap. cbv zeta. set (age := agingDaysOf newDate reconDate).
  induction items as [|t items IH]; intros aging; simpl.
  - rewrite !app_nil_r. repeat split; ring.
  - destruct (IH (ageItem newDate value reconDate aging t))
      as (H7 & H30 & H90 & Ha & T7 & T30 & T90 & Ta).
    rewrite H7, H30, H90, Ha, T7, T30, T90, Ta. clear IH H7 H30 H90 Ha T7 T30 T90 Ta.
    destruct (ageItem_bucket (age t)) as (B7 & B30 & B90 & Ba & _).
    rewrite <- B7, <- B30, <- B90, <- Ba.
    unfold ageItem. fold age.
    destruct (daysLe (age t) 7); simpl;
      [rewrite <- ?app_assoc; repeat split; (done || ring)|].
    destruct (daysLe (age t) 30); simpl;
      [rewrite <- ?app_assoc; repeat split; (done || ring)|].
    destruct (daysLe (age t) 90); simpl;
      rewrite <- ?app_assoc; repeat split; (done || ring).
Qed.

Lemma aged_Permutation (age : BankTransaction → option Z) items :
  List.filter (λ t, agedUpTo 7 (age t)) items
  ++ List.filter (λ t, agedWithin 7 30 (age t)) items
  ++ List.filter (λ t, agedWithin 30 90 (age t)) items
  ++ List.filter (λ t, agedAbove 90 (age t) || bool_decide (age t = None)) items
  ≡ₚ items.
Proof.
  induction items as [|t items IH]; [done|]. simpl.
  destruct (ageItem_bucket (age t)) as (B7 & B30 & B90 & Ba & _).
  rewrite <- B7, <- B30, <- B90, <- Ba.
  destruct (daysLe (age t) 7); simpl; [by rewrite IH|].
  destruct (daysLe (age t) 30); simpl.
  { rewrite <- Permutation_middle. by rewrite IH. }
  destruct (daysLe (age t) 90); simpl.
  - rewrite (assoc_L (++) (List.filter _ items) (List.filter _ items)).
    rewrite <- Permutation_middle. rewrite <- (assoc_L (++)). by rewrite IH.
  - rewrite !(assoc_L (++)). rewrite <- Permutation_middle.
    rewrite <- !(assoc_L (++)). by rewrite IH.
Qed.

Lemma ageItems_agedLists value reconDate items :
  agedLists (agingDaysOf newDate reconDate) value items
    (foldl (ageItem newDate value reconDate) emptyAging items).
Proof.
  destruct (foldl_ageItem value reconDate items emptyAging)
    as (H7 & H30 & H90 & Ha & T7 & T30 & T90 & Ta).
  simpl in H7, H30, H90, Ha, T7, T30, T90, Ta.
  unfold agedLists. rewrite H7, H30, H90, Ha, T7, T30, T90, Ta.
  pose proof (aged_Permutation (agingDaysOf newDate reconDate) items) as Hperm.
  repeat split; try done; try ring.
  rewrite <- (sumQ_Permutation _ _ (fmap_Permutation value _ _ Hperm)).
  rewrite !fmap_app, !sumQ_app. ring.
Qed.

(** X16. [getUnclearedAging] puts every uncleared cheque and every
    uncleared deposit in exactly one of four lists by its age on the date:
    up to 7 days, up to 30, up to 90, and above 90, where an item whose
    date is not valid goes too.  Each total is the sum of the credits (for
    cheques) or debits (for deposits) of its list, and the four totals add
    up to the total of the items.  The stale cheques are the cheques of
    the last list whose date is valid, so a cheque with an invalid date is
    aged above 90 days and not reported as stale. *)
Theorem uncleared_aging_buckets asOnDate brs :
  let age := agingDaysOf newDate (newDate asOnDate) in
  ∃ r,
    getUnclearedAging newDate asOnDate (Success brs) = Success r ∧
    agedLists age credit (unClearedCheques brs) (cheques r) ∧
    agedLists age debit (unClearedDeposits brs) (deposits r) ∧
    staleCheques r
      = List.filter (λ c, agedAbove 90 (age c)) (unClearedCheques brs) ∧
    (staleChequesTotal r == sumQ (credit <$> staleCheques r))%Q.
Proof.
  intros age. eexists. split; [reflexivity|]. simpl.
  pose proof (ageItems_agedLists credit (newDate asOnDate) (unClearedCheques brs))
    as Hc.
  pose proof (ageItems_agedLists debit (newDate asOnDate) (unClearedDeposits brs))
    as Hd.
  split; [done|]. split; [done|]. split; [|apply sumOf_sumQ].
  destruct Hc as (_ & _ & _ & -> & _). fold age.
  induction (unClearedCheques brs) as [|c cs IH]; [done|]. simpl.
  destruct (ageItem_bucket (age c)) as (_ & _ & _ & _ & Hgt).
  destruct (age c) as [d|] eqn:Hage; simpl.
  - destruct (bool_decide (90 < d)%Z) eqn:Hd90; simpl; [|done].
    fold age. rewrite Hage. simpl. apply bool_decide_eq_true in Hd90.
    destruct (Z.ltb_spec 90 d); [|lia]. by rewrite IH.
  - fold age. rewrite Hage. simpl. done.
Qed.


(** *** All banks *)

Lemma summaryStep_spec asOnDate books summaries k bank :
  summaryStep newDate localeCompare asOnDate books summaries k bank
  = match books k with
    | Success _ => summaries ++ drop (length summaries)
                     (summaryStep newDate localeCompare asOnDate books summaries k bank)
    | Failure _ => summaries
    end ∧
  match books k with
  | Success _ =>
      ∃ s, summaryStep newDate localeCompare asOnDate books summaries k bank
           = summaries ++ [s] ∧
           sBankName s = name bank ∧
           balances (sBalanceBooks s) (sBalanceBank s)
                    (unclearedChequesAmount s) (unclearedDepositsAmount s)
  | Failure _ => True
  end.
Proof.
  unfold summaryStep, getBankBook, generateBRS.
  destruct (books k) as [vouchers|err]; [|done]. simpl.
  rewrite drop_app_length. split; [done|].
  eexists. split; [reflexivity|]. split; [done|]. unfold balances. simpl. reflexivity.
Qed.

Lemma foldl_summaryStep asOnDate books l : ∀ summaries,
  Forall (λ s, balances (sBalanceBooks s) (sBalanceBank s)
                 (unclearedChequesAmount s) (unclearedDepositsAmount s)) summaries →
  let summaries' :=
    foldl (λ acc kb, summaryStep newDate localeCompare asOnDate books acc kb.1 kb.2)
          summaries l in
  Forall (λ s, balances (sBalanceBooks s) (sBalanceBank s)
                 (unclearedChequesAmount s) (unclearedDepositsAmount s)) summaries' ∧
  sBankName <$> summaries'
  = (sBankName <$> summaries)
    ++ ((λ kb, name kb.2)
          <$> List.filter (λ kb, match books kb.1 with
                                 | Success _ => true
                                 | Failure _ => false
                                 end) l).
Proof.
  induction l as [|[k bank] l IH]; intros summaries Hall; simpl.
  - split; [done|]. by rewrite app_nil_r.
  - destruct (summaryStep_spec asOnDate books summaries k bank) as [Hstep Hnew].
    destruct (books k) as [vouchers|err].
    + destruct Hnew as (s & Hs & Hname & Hbal). rewrite Hs.
      destruct (IH (summaries ++ [s])) as [Hall' Hnames].
      { apply Forall_app. split; [done|]. by apply Forall_singleton. }
      split; [done|]. rewrite Hnames, fmap_app, <- app_assoc. simpl.
      by rewrite Hname.
    + rewrite Hstep. by apply IH.
Qed.

(** X17. [getAllBanksSummary] makes one entry, in the order of the banks,
    for every bank whose bank book could be fetched, and leaves out,
    without an error, every bank whose request failed.  In each entry the
    balance as per bank is the balance as per books plus the uncleared
    cheques less the uncleared deposits, and so it is in the totals over
    the entries. *)
Theorem all_banks_summary asOnDate data books :
  ∃ r,
    getAllBanksSummary newDate localeCompare asOnDate (Success data) books = Success r ∧
    sBankName <$> banks r
      = (λ kb, name kb.2)
          <$> List.filter (λ kb, match books kb.1 with
                                 | Success _ => true
                                 | Failure _ => false
                                 end) (numberedBanks data) ∧
    Forall (λ s, balances (sBalanceBooks s) (sBalanceBank s)
                   (unclearedChequesAmount s) (unclearedDepositsAmount s)) (banks r) ∧
    balances (totalBalanceBooks (banksTotals r)) (totalBalanceBank (banksTotals r))
             (totalUnclearedCheques (banksTotals r))
             (totalUnclearedDeposits (banksTotals r)).
Proof.
  eexists. split; [reflexivity|]. simpl. fold (numberedBanks data).
  destruct (foldl_summaryStep asOnDate books (numberedBanks data) [])
    as [Hall Hnames]; [constructor|].
  simpl in Hall, Hnames. split; [done|]. split; [done|].
  unfold balances in *. rewrite !sumOf_sumQ. clear Hnames.
  induction Hall as [|s l Hs _ IH]; simpl; [ring|].
  rewrite Hs. unfold fmap in IH. rewrite IH. ring.
Qed.

(** *** Post-dated cheques *)

Lemma List_filter_cons_app {A} (f : A → bool) (x : A) (l : list A) :
  List.filter f (x :: l) = List.filter f [x] ++ List.filter f l.
Proof. simpl. by destruct (f x). Qed.

(** One turn of the loop of [getPostDatedCheques]. *)
Lemma pdcStep_spec reconDate acc t :
  let postDated t :=
    nonEmpty (instrumentDate t) && dateGt (newDate (instrumentDate t)) reconDate in
  let mature p := ∃ d, daysToMaturity p = Some d ∧ (0 ≤ d)%Z in
  let acc' := pdcStep newDate reconDate acc t in
  (Forall mature acc.1 → Forall mature acc'.1) ∧
  (Forall mature acc.2 → Forall mature acc'.2) ∧
  chequeDate <$> acc'.1
    = (chequeDate <$> acc.1)
      ++ (instrumentDate <$> List.filter (λ t, postDated t && Qgtb (credit t) 0) [t]) ∧
  chequeDate <$> acc'.2
    = (chequeDate <$> acc.2)
      ++ (instrumentDate
            <$> List.filter (λ t, postDated t && negb (Qgtb (credit t) 0)) [t]) ∧
  pdcAmount <$> acc'.1
    = (pdcAmount <$> acc.1)
      ++ ((λ t, numOr (credit t) (debit t))
            <$> List.filter (λ t, postDated t && Qgtb (credit t) 0) [t]) ∧
  pdcAmount <$> acc'.2
    = (pdcAmount <$> acc.2)
      ++ ((λ t, numOr (credit t) (debit t))
            <$> List.filter (λ t, postDated t && negb (Qgtb (credit t) 0)) [t]).
Proof.
  cbv zeta.
  assert (Hdays : dateGt (newDate (instrumentDate t)) reconDate = true →
                  ∃ d, daysBetween (newDate (instrumentDate t)) reconDate = Some d
                       ∧ (0 ≤ d)%Z).
  { unfold dateGt, daysBetween.
    destruct (newDate (instrumentDate t)) as [i|]; [|done].
    destruct reconDate as [r|]; [|done].
    intros Hgt%Z.ltb_lt. eexists. split; [done|].
    apply Z.div_pos; [lia | done]. }
  unfold pdcStep. simpl.
  destruct (nonEmpty (instrumentDate t)); simpl; [|by rewrite !app_nil_r].
  destruct (dateGt (newDate (instrumentDate t)) reconDate); simpl;
    [|by rewrite !app_nil_r].
  specialize (Hdays eq_refl).
  destruct (Qgtb (credit t) 0); simpl; rewrite ?fmap_app, ?app_nil_r;
    repeat split; try done; intros Hall; apply Forall_app; split; try done;
    by apply Forall_singleton.
Qed.

Lemma foldl_pdcStep reconDate txns : ∀ acc,
  let postDated t :=
    nonEmpty (instrumentDate t) && dateGt (newDate (instrumentDate t)) reconDate in
  let mature p := ∃ d, daysToMaturity p = Some d ∧ (0 ≤ d)%Z in
  let lists := foldl (pdcStep newDate reconDate) acc txns in
  Forall mature acc.1 → Forall mature acc.2 →
  Forall mature lists.1 ∧ Forall mature lists.2 ∧
  chequeDate <$> lists.1
    = (chequeDate <$> acc.1)
      ++ (instrumentDate
            <$> List.filter (λ t, postDated t && Qgtb (credit t) 0) txns) ∧
  chequeDate <$> lists.2
    = (chequeDate <$> acc.2)
      ++ (instrumentDate
            <$> List.filter (λ t, postDated t && negb (Qgtb (credit t) 0)) txns) ∧
  pdcAmount <$> lists.1
    = (pdcAmount <$> acc.1)
      ++ ((λ t, numOr (credit t) (debit t))
            <$> List.filter (λ t, postDated t && Qgtb (credit t) 0) txns) ∧
  pdcAmount <$> lists.2
    = (pdcAmount <$> acc.2)
      ++ ((λ t, numOr (credit t) (debit t))
            <$> List.filter (λ t, postDated t && negb (Qgtb (credit t) 0)) txns).
Proof.
  cbv zeta. induction txns as [|t txns IH]; intros acc H1 H2.
  - simpl. by rewrite !app_nil_r.
  - destruct (pdcStep_spec reconDate acc t) as (S1 & S2 & C1 & C2 & A1 & A2).
    cbv zeta in S1, S2, C1, C2, A1, A2.
    change (foldl (pdcStep newDate reconDate) acc (t :: txns))
      with (foldl (pdcStep newDate reconDate) (pdcStep newDate reconDate acc t) txns).
    destruct (IH (pdcStep newDate reconDate acc t) (S1 H1) (S2 H2))
      as (F1 & F2 & C1' & C2' & A1' & A2').
    rewrite C1', C2', A1', A2', C1, C2, A1, A2.
    rewrite !(List_filter_cons_app _ t txns), !fmap_app, <- !app_assoc.
    done.
Qed.

(** X18. [getPostDatedCheques] lists the transactions that have an
    instrument date later than the date, in book order: those with a
    credit as issued, the others as received; a transaction without an
    instrument date, or with one that is not a valid date, is never
    listed.  The days to maturity of an entry are a number and never
    negative, its amount is the credit or else the debit of the
    transaction, and the two totals are the sums of the amounts. *)
Theorem post_dated_cheques asOnDate txns :
  let postDated t :=
    nonEmpty (instrumentDate t) &&
    dateGt (newDate (instrumentDate t)) (newDate asOnDate) in
  ∃ r,
    getPostDatedCheques newDate asOnDate (Success txns) = Success r ∧
    Forall (λ p, ∃ d, daysToMaturity p = Some d ∧ (0 ≤ d)%Z)
           (pdcIssued r ++ pdcReceived r) ∧
    chequeDate <$> pdcIssued r
      = instrumentDate <$> List.filter (λ t, postDated t && Qgtb (credit t) 0) txns ∧
    chequeDate <$> pdcReceived r
      = instrumentDate
          <$> List.filter (λ t, postDated t && negb (Qgtb (credit t) 0)) txns ∧
    pdcAmount <$> pdcIssued r
      = (λ t, numOr (credit t) (debit t))
          <$> List.filter (λ t, postDated t && Qgtb (credit t) 0) txns ∧
    pdcAmount <$> pdcReceived r
      = (λ t, numOr (credit t) (debit t))
          <$> List.filter (λ t, postDated t && negb (Qgtb (credit t) 0)) txns ∧
    (totalPDCIssued r == sumQ (pdcAmount <$> pdcIssued r))%Q ∧
    (totalPDCReceived r == sumQ (pdcAmount <$> pdcReceived r))%Q.
Proof.
  intros postDated. eexists. split; [reflexivity|]. simpl.
  destruct (foldl_pdcStep (newDate asOnDate) txns ([], []))
    as (F1 & F2 & C1 & C2 & A1 & A2); [constructor..|].
  simpl in C1, C2, A1, A2.
  split; [by apply Forall_app|].
  repeat split; try done; apply sumOf_sumQ.
Qed.

End BankBookFacts.
(** ** Matches of the reconciliation *)

Section MatchFacts.
Import BankReconciliation.

Lemma fuzzyScan_candidate amount entryDate l : ∀ i0 i bookTxn d,
  fuzzyScan amount entryDate l i0 = Some (i, bookTxn, d) →
  fuzzyCandidate amount entryDate (val bookTxn) = Some d.
Proof.
  induction l as [|b l IH]; intros i0 i bookTxn d; simpl; [done|].
  destruct (fuzzyCandidate amount entryDate (val b)) as [d'|] eqn:Hb.
  - by intros [= <- <- <-].
  - apply IH.
Qed.

(** A candidate of the approximate phase gives a justified match. *)
Lemma fuzzyMatch_justified entry bookTxn d :
  fuzzyCandidate (entryAmount entry) (stmtDate entry) (val bookTxn) = Some d →
  justified (fuzzyMatch bookTxn entry d).
Proof.
  intros Hcand.
  pose proof (fuzzyCandidate_within _ _ _ Hcand) as Hwithin.
  destruct (fuzzyCandidate_Some _ _ Hwithin) as (d' & Hd' & Hapart).
  assert (d' = d) as -> by congruence.
  assert (Hle : (d <= 7)%Q).
  { unfold fuzzyCandidate in Hcand.
    destruct (Qltb _ 1); [|done].
    destruct (daysDiffOf _ _) as [dd|]; [|done].
    destruct (Qleb dd dateTolerance) eqn:Hdd; [|done].
    injection Hcand as <-. by apply Qleb_spec in Hdd. }
  unfold justified, fuzzyMatch. simpl.
  destruct (Qeqb d 0) eqn:Hzero.
  - split; [done|]. exists d. repeat split; try done.
    by intros _; apply Qeqb_spec.
  - split; [done|]. exists d. repeat split; try done.
    intros Hd. apply Qeqb_false in Hzero. by destruct Hzero.
Qed.

(** The match one turn of the loop adds, if it adds one. *)
Lemma reconcileEntry_match st entry :
  (∃ key bookTxn rest,
     entryKey entry = Some key ∧
     bookMap st !! key = Some (bookTxn :: rest) ∧
     mMatched (reconcileEntry st entry) = mMatched st ++ [exactMatch bookTxn entry]) ∨
  (∃ bookTxn d,
     fuzzyCandidate (entryAmount entry) (stmtDate entry) (val bookTxn) = Some d ∧
     mMatched (reconcileEntry st entry) = mMatched st ++ [fuzzyMatch bookTxn entry d]) ∨
  mMatched (reconcileEntry st entry) = mMatched st.
Proof.
  unfold reconcileEntry. fold (entryAmount entry). rewrite exactPhase_by_key.
  assert (Hfuzzy :
     ∀ st2 matched2,
       fuzzyPhase entry (entryAmount entry) st = (st2, matched2) →
       let st' := if negb matched2 then markUnmatched entry st2 else st2 in
       (∃ bookTxn d,
          fuzzyCandidate (entryAmount entry) (stmtDate entry) (val bookTxn) = Some d ∧
          mMatched st' = mMatched st ++ [fuzzyMatch bookTxn entry d]) ∨
       mMatched st' = mMatched st).
  { unfold fuzzyPhase. intros st2 matched2.
    destruct (fuzzyScan _ _ _ 0) as [[[i bookTxn] d]|] eqn:Hscan;
      intros [= <- <-]; simpl.
    - left. exists bookTxn, d. split; [|done]. by eapply fuzzyScan_candidate.
    - by right. }
  destruct (entryKey entry) as [key|]; simpl.
  - destruct (bookMap st !! key) as [[|bookTxn rest]|] eqn:Hlook; simpl.
    + right. destruct (fuzzyPhase _ _ st) as [st2 matched2]. by apply Hfuzzy.
    + left. by exists key, bookTxn, rest.
    + right. destruct (fuzzyPhase _ _ st) as [st2 matched2]. by apply Hfuzzy.
  - right. destruct (fuzzyPhase _ _ st) as [st2 matched2]. by apply Hfuzzy.
Qed.

Lemma runMatching_justified data stmts :
  Forall justified (mMatched (runMatching data stmts)).
Proof.
  induction stmts as [|entry stmts IH] using rev_ind; [constructor|].
  rewrite runMatching_snoc.
  destruct (reconcileEntry_match (runMatching data stmts) entry)
    as [(key & bookTxn & rest & Hkey & Hlook & ->)
       |[(bookTxn & d & Hcand & ->)| ->]]; [| |done].
  - apply Forall_app. split; [done|]. apply Forall_singleton.
    unfold justified. simpl. split; [|done]. rewrite Hkey. f_equal.
    rewrite bookMap_runMatching in Hlook. unfold lookupAfter in Hlook.
    destruct (sameKeyBooks key (allocate data)) as [|b filed] eqn:Hfiled; [done|].
    injection Hlook as Hdrop.
    assert (Hin : bookTxn ∈ sameKeyBooks key (allocate data)).
    { rewrite Hfiled. eapply elem_of_sublist; [|apply sublist_drop].
      rewrite Hdrop. by left. }
    unfold sameKeyBooks in Hin. apply elem_of_List_filter in Hin as [_ Heq].
    symmetry. by apply String.eqb_eq.
  - apply Forall_app. split; [done|]. apply Forall_singleton.
    by apply fuzzyMatch_justified.
Qed.

(** X19. Every match [autoReconcile] reports is justified.  An Exact
    match pairs a statement entry that carries a cheque number with a book
    transaction filed under the same key, cheque number and amount to two
    decimals, whatever their dates.  Any other match pairs an entry with a
    book transaction whose amount differs by less than 1 and whose date by
    at most 7 days, records that number of days, and is of type
    Amount+Date exactly when the two dates are the same instant.  The
    lists [amountMismatch] and [dateMismatch] are always empty. *)
Theorem matches_are_justified data stmts r :
  autoReconcile (Success data) stmts = Success r →
  Forall justified (matched r) ∧ amountMismatch r = [] ∧ dateMismatch r = [].
Proof.
  intros [= <-]. simpl. split; [|done]. apply runMatching_justified.
Qed.

Lemma matches_are_justified_witness :
  ∃ r,
    autoReconcile (Success [bookRecord (Js.dateOf 2024 2 1) "" 1000%Q])
                  [statementRecord (Js.dateOf 2024 2 8) None (10005 # 10)]
    = Success r ∧
    Forall justified (matched r) ∧ length (matched r) = 1%nat.
Proof.
  eexists. split; [reflexivity|].
  split; [|reflexivity].
  apply (matches_are_justified [bookRecord (Js.dateOf 2024 2 1) "" 1000%Q]
           [statementRecord (Js.dateOf 2024 2 8) None (10005 # 10)]).
  reflexivity.
Defined.

End MatchFacts.
(** ** GSTIN and PAN *)

Section ValidatorFacts.
Import ConfigAudit.

Lemma upperUnit_lowerUnit c : Js.upperUnit (Js.lowerUnit c) = Js.upperUnit c.
Proof. by destruct c as [[] [] [] [] [] [] [] []]. Qed.

Lemma units_ofUnits l : Js.units (Js.ofUnits l) = l.
Proof. apply String.list_ascii_of_string_of_list_ascii. Qed.

Lemma toUpperCase_toLowerCase s : Js.toUpperCase (Js.toLowerCase s) = Js.toUpperCase s.
Proof.
  unfold Js.toUpperCase, Js.toLowerCase. rewrite units_ofUnits. f_equal.
  rewrite <- list_fmap_compose. apply list_fmap_ext. intros _ c _. simpl.
  apply upperUnit_lowerUnit.
Qed.

Lemma length_ofUnits l : String.length (Js.ofUnits l) = length l.
Proof. induction l as [|c l IH]; simpl; [done|]. by rewrite IH. Qed.

Lemma length_units s : length (Js.units s) = String.length s.
Proof. induction s as [|c s IH]; simpl; [done|]. by rewrite IH. Qed.

Lemma length_toLowerCase s : String.length (Js.toLowerCase s) = String.length s.
Proof.
  unfold Js.toLowerCase. by rewrite length_ofUnits, length_fmap, length_units.
Qed.

Lemma toLowerCase_empty s : Js.toLowerCase s = "" ↔ s = "".
Proof.
  split; [|by intros ->]. intros Hs.
  pose proof (length_toLowerCase s) as Hlen. rewrite Hs in Hlen. by destruct s.
Qed.

(** X20. The two validators agree with each other: the units 3 to 12 of
    a text that [isValidGSTIN] accepts are a text that [isValidPAN]
    accepts.  Both test the upper-cased text, so a valid GSTIN or PAN
    stays valid when it is written in lower case; a GSTIN that is not a
    string, or not of 15 units, is never valid. *)
Theorem valid_GSTIN_embeds_PAN :
  (∀ gstin, isValidGSTIN (VString gstin) = true →
            isValidPAN (String.substring 2 10 gstin) = true) ∧
  (∀ gstin, isValidGSTIN (VString gstin) = true →
            isValidGSTIN (VString (Js.toLowerCase gstin)) = true) ∧
  (∀ pan, isValidPAN pan = true → isValidPAN (Js.toLowerCase pan) = true) ∧
  (∀ v, isValidGSTIN v = true → ∃ gstin, v = VString gstin ∧ String.length gstin = 15%nat).
Proof.
  assert (Hg : ∀ gstin, isValidGSTIN (VString (Js.toLowerCase gstin))
                        = isValidGSTIN (VString gstin)).
  2: assert (Hp : ∀ pan, isValidPAN (Js.toLowerCase pan) = isValidPAN pan).
  3: split; [|split; [by intros gstin; rewrite Hg|split; [by intros pan; rewrite Hp|]]].
  - intros gstin. unfold isValidGSTIN. simpl.
    rewrite toUpperCase_toLowerCase, length_toLowerCase.
    destruct (String.eqb_spec (Js.toLowerCase gstin) "") as [He|Hne];
      destruct (String.eqb_spec gstin "") as [He'|Hne']; try done.
    + by apply (proj1 (toLowerCase_empty _)) in He.
    + destruct Hne. by subst.
  - intros pan. unfold isValidPAN.
    rewrite toUpperCase_toLowerCase, length_toLowerCase.
    destruct (String.eqb_spec (Js.toLowerCase pan) "") as [He|Hne];
      destruct (String.eqb_spec pan "") as [He'|Hne']; try done.
    + by apply (proj1 (toLowerCase_empty _)) in He.
    + destruct Hne. by subst.
  - intros gstin. unfold isValidGSTIN.
    destruct (negb (truthy (VString gstin))); [done|]. simpl.
    case_bool_decide as Hlen; [|done]. simpl.
    destruct gstin as [|c1 [|c2 [|c3 [|c4 [|c5 [|c6 [|c7 [|c8 [|c9 [|c10 [|c11 [|c12
                      [|c13 [|c14 [|c15 [|]]]]]]]]]]]]]]]]; try done.
    unfold classMatches. simpl.
    intros H.
    repeat match type of H with
           | _ && _ = true => apply andb_true_iff in H as [? H]
           end.
    unfold isValidPAN, classMatches. simpl.
    repeat match goal with
           | Hc : ?b = true |- context [?b] => rewrite Hc
           end.
    done.
  - intros v Hv. destruct v as [|gstin| | |]; try done. exists gstin. split; [done|].
    unfold isValidGSTIN in Hv.
    destruct (negb (truthy (VString gstin))); [done|]. simpl in Hv.
    by case_bool_decide.
Qed.

Lemma valid_GSTIN_embeds_PAN_witness :
  isValidPAN (String.substring 2 10 "27AAPFU0939F1ZV") = true ∧
  String.substring 2 10 "27AAPFU0939F1ZV" = "AAPFU0939F".
Proof.
  split; [|reflexivity].
  apply (proj1 valid_GSTIN_embeds_PAN "27AAPFU0939F1ZV"). reflexivity.
Defined.

End ValidatorFacts.
(** ** Counts of the report *)

Section ReportCounts.
Import ConfigAudit.

Lemma countSeverity_total l :
  (countSeverity Critical l + countSeverity High l + countSeverity Medium l
   + countSeverity Low l = length l)%nat.
Proof.
  unfold countSeverity. induction l as [|i l IH]; [done|]. simpl.
  destruct (severity i); simpl; lia.
Qed.

Lemma calculateCategoryScore_status l categoryName :
  statusOfScore (calculateCategoryScore l categoryName).
Proof.
  unfold statusOfScore, calculateCategoryScore. simpl.
  set (s := Z.max 0 _).
  assert (0 ≤ s ≤ 100)%Z by (unfold s; lia).
  destruct (Z.leb_spec 80 s); [repeat split; (done || lia)|].
  destruct (Z.leb_spec 50 s); repeat split; (done || lia).
Qed.

(** X21. The counts of a report agree with one another: the total is the
    number of issues listed, the sum of the four counts by severity, and
    the sum of the issue counts of the six categories.  Every category
    score lies between 0 and 100 and its status goes with it: Good from
    80, Needs Attention from 50 to 79, Critical below 50; so a category
    with a single Critical issue, which scores 80, is still Good. *)
Theorem report_counts_agree conn report :
  runFullAudit conn = Success report →
  totalIssues report = length (issues report) ∧
  (criticalIssues report + highIssues report + mediumIssues report + lowIssues report
   = totalIssues report)%nat ∧
  sum_list (issueCount <$> categoryAudits (categories report)) = totalIssues report ∧
  Forall statusOfScore (categoryAudits (categories report)) ∧
  (0 ≤ overallScore report ≤ 100)%Z ∧
  (∀ i categoryName,
     severity i = Critical →
     status (calculateCategoryScore [i] categoryName) = Good).
Proof.
  intros Hrun. unfold runFullAudit in Hrun.
  destruct (getCompanyName conn) as [[|c0 cs]|]; try done.
  injection Hrun as <-. simpl.
  split; [done|]. split; [apply countSeverity_total|].
  split; [rewrite !length_app; lia|].
  split.
  { unfold categoryAudits; simpl.
    repeat (apply Forall_cons; split; [apply calculateCategoryScore_status|]).
    constructor. }
  split; [unfold overallScoreOf; lia|].
  intros i categoryName Hi. unfold calculateCategoryScore, countSeverity. simpl.
  rewrite Hi. done.
Qed.

Lemma report_counts_agree_witness :
  ∃ report,
    runFullAudit (snapshotOf [plainLedger "Output CGST" "Duties & Taxes"])
      = Success report ∧
    totalIssues report = length (issues report) ∧
    (criticalIssues report + highIssues report + mediumIssues report + lowIssues report
     = totalIssues report)%nat.
Proof.
  eexists. split; [reflexivity|].
  destruct (report_counts_agree
              (snapshotOf [plainLedger "Output CGST" "Duties & Taxes"]) _ eq_refl)
    as (Htotal & Hsev & _).
  split; [exact Htotal | exact Hsev].
Defined.

End ReportCounts.
(** ** Bank charges *)

Section BankChargesFacts.
Import BankBook BankCharges.
Context (localDate : string → option TallyConnection.LocalDate).

Lemma foldl_addAmount (keyOf : BankCharge → string) charges :
  ∀ totals key,
    let result :=
      foldl (λ m charge, addAmount m (keyOf charge) (chargeAmount charge)) totals charges in
    match chargesUnder keyOf key charges with
    | [] => result !! key = totals !! key
    | filed =>
        ∃ total, result !! key = Some total ∧
                 (total == default 0%Q (totals !! key) + sumQ (chargeAmount <$> filed))%Q
    end.
Proof.
  induction charges as [|c rest IH]; intros totals key; cbv zeta; [done|].
  simpl. unfold chargesUnder in *. simpl.
  specialize (IH (addAmount totals (keyOf c) (chargeAmount c)) key). cbv zeta in IH.
  destruct (String.eqb_spec (keyOf c) key) as [Hkey|Hne].
  - rewrite Hkey in *. assert (Hnew : ∃ v, addAmount totals key (chargeAmount c) !! key = Some v ∧
                        (v == default 0%Q (totals !! key) + chargeAmount c)%Q).
    { eexists. split; [apply lookup_insert_eq|].
      unfold numOr. destruct (Qeqb _ 0) eqn:Hz; [|reflexivity].
      apply Qeqb_spec in Hz. rewrite Hz. reflexivity. }
    destruct Hnew as (v & Hv & Hveq).
    destruct (List.filter _ rest) as [|f filed].
    + exists v. rewrite IH. split; [done|]. rewrite Hveq. simpl. ring.
    + destruct IH as (total & Htotal & Heq). exists total. split; [done|].
      rewrite Heq, Hv. simpl. rewrite Hveq. simpl. ring.
  - assert (Hold : addAmount totals (keyOf c) (chargeAmount c) !! key = totals !! key)
      by (apply lookup_insert_ne; done).
    rewrite Hold in IH. exact IH.
Qed.

Lemma grouped keyOf charges :
  groupedBy keyOf charges
    (foldl (λ m charge, addAmount m (keyOf charge) (chargeAmount charge)) ∅ charges).
Proof.
  intros key. pose proof (foldl_addAmount keyOf charges ∅ key) as H. cbv zeta in H.
  destruct (chargesUnder keyOf key charges) as [|f filed].
  - rewrite H. apply lookup_empty.
  - destruct H as (total & Htotal & Heq). exists total. split; [done|].
    rewrite Heq, lookup_empty. simpl. ring.
Qed.

(** X22. The analysis of bank charges lists, for every voucher that has
    an entry on the bank ledger, its entries on a ledger whose name
    contains bank charge, bank commission, bank interest, processing fee
    or service charge, each with the absolute amount.  The total is the
    sum of the amounts listed; the totals by charge type and by month hold
    exactly the types and months that occur, each with the sum of the
    amounts filed under it. *)
Theorem bank_charges_grouped bankLedgerName vouchers r :
  getBankChargesAnalysis localDate bankLedgerName (Success vouchers) = Success r →
  transactions r = vouchers ≫= chargesOf bankLedgerName ∧
  (∀ voucher, hasBankAccount bankLedgerName voucher = false →
              chargesOf bankLedgerName voucher = []) ∧
  Forall (λ charge, (0 <= chargeAmount charge)%Q ∧
                    isChargeLedger
                      (Js.toLowerCase (extractString (chargeType charge))) = true)
         (transactions r) ∧
  (totalCharges r == sumQ (chargeAmount <$> transactions r))%Q ∧
  groupedBy (λ charge, ConfigAudit.toStr (chargeType charge)) (transactions r)
            (byChargeType r) ∧
  groupedBy (λ charge, monthKey localDate (chargeDate charge)) (transactions r)
            (monthWise r).
Proof.
  intros Hrun. injection Hrun as <-. simpl.
  split; [done|]. split.
  { intros voucher Hno. unfold chargesOf. by rewrite Hno. }
  split.
  { apply Forall_forall. intros charge Hin.
    apply list_elem_of_bind in Hin as (voucher & Hin & _).
    unfold chargesOf in Hin. destruct (hasBankAccount _ _); [|by apply elem_of_nil in Hin].
    apply list_elem_of_fmap in Hin as (entry & -> & Hentry). simpl.
    apply list_elem_of_In, filter_In in Hentry as [_ Hentry].
    split; [apply Qabs_nonneg | exact Hentry]. }
  split; [apply sumOf_sumQ|].
  split; apply grouped.
Qed.

End BankChargesFacts.

Lemma bank_charges_grouped_witness :
  ∃ r,
    BankCharges.getBankChargesAnalysis fifthOfApril "hdfc bank" (Success [chargeVoucher])
      = Success r ∧
    BankCharges.chargeDate <$> BankCharges.transactions r = ["2024-04-05"] ∧
    (BankCharges.totalCharges r
     == sumQ (BankCharges.chargeAmount <$> BankCharges.transactions r))%Q ∧
    BankCharges.monthWise r !! "2024-04" = Some (0 + 50)%Q.
Proof.
  eexists. split; [reflexivity|].
  split; [reflexivity|].
  split; [|reflexivity].
  exact (proj1 (proj2 (proj2 (proj2
           (bank_charges_grouped fifthOfApril "hdfc bank" [chargeVoucher] _ eq_refl))))).
Defined.
(** ** The statement of a ledger *)

Section LedgerStatementFacts.
Import LedgerStatement.
Context (localeCompare : string → string → Z).







End LedgerStatementFacts.

(** ** The summaries of a group and of the stock *)

Section SummaryFacts.

Lemma foldl_groupStep groupName ledgers : ∀ st,
  let st' := foldl (GroupSummary.groupStep groupName) st ledgers in
  GroupSummary.groupLedgers st'
  = GroupSummary.groupLedgers st ++ (groupRow <$> List.filter (inGroup groupName) ledgers) ∧
  (GroupSummary.sTotalOpening st'
   == GroupSummary.sTotalOpening st
      + sumQ (FinancialReports.OPENINGBALANCE <$> List.filter (inGroup groupName) ledgers))%Q ∧
  (GroupSummary.sTotalClosing st'
   == GroupSummary.sTotalClosing st
      + sumQ (FinancialReports.CLOSINGBALANCE <$> List.filter (inGroup groupName) ledgers))%Q.
Proof.
  unfold fmap.
  induction ledgers as [|l ledgers IH]; intros st; cbv zeta.
  - simpl. rewrite app_nil_r. split; [done|]. split; ring.
  - simpl. destruct (IH (GroupSummary.groupStep groupName st l)) as (Hl & Ho & Hc).
    rewrite Hl, Ho, Hc. unfold GroupSummary.groupStep.
    fold (inGroup groupName l).
    destruct (inGroup groupName l); simpl.
    + rewrite <- app_assoc. split; [done|]. split; ring.
    + split; [done|]. split; ring.
Qed.

(** X24. [getGroupSummary] lists the ledgers whose parent is the group,
    the case of letters apart, in the order of the reply, and no ledger of
    a group below it; the two totals are the sums of their opening and
    closing balances and the count is their number.  A group that no
    ledger names as its parent gives an empty summary, not an error. *)
Theorem group_summary_totals groupName ledgers :
  ∃ r,
    GroupSummary.getGroupSummary groupName (Success ledgers) = Success r ∧
    GroupSummary.ledgers r = groupRow <$> List.filter (inGroup groupName) ledgers ∧
    (GroupSummary.totalOpening r
     == sumQ (GroupSummary.openingBalance <$> GroupSummary.ledgers r))%Q ∧
    (GroupSummary.totalClosing r
     == sumQ (GroupSummary.closingBalance <$> GroupSummary.ledgers r))%Q ∧
    GroupSummary.ledgerCount r = length (List.filter (inGroup groupName) ledgers) ∧
    (Forall (λ ledger, inGroup groupName ledger = false) ledgers →
     GroupSummary.ledgers r = [] ∧ GroupSummary.ledgerCount r = 0%nat ∧
     GroupSummary.totalOpening r = 0%Q ∧ GroupSummary.totalClosing r = 0%Q).
Proof.
  eexists. split; [reflexivity|]. simpl.
  destruct (foldl_groupStep groupName ledgers
              {| GroupSummary.groupLedgers := []; GroupSummary.sTotalOpening := 0;
                 GroupSummary.sTotalClosing := 0 |}) as (Hl & Ho & Hc).
  simpl in Hl, Ho, Hc. rewrite Hl.
  split; [done|].
  split; [rewrite Ho, <- list_fmap_compose; apply Qplus_0_l|].
  split; [rewrite Hc, <- list_fmap_compose; apply Qplus_0_l|].
  split; [by rewrite length_fmap|].
  intros Hnone. clear Hl Ho Hc.
  assert (Hsame : ∀ st, foldl (GroupSummary.groupStep groupName) st ledgers = st).
  { induction Hnone as [|l ledgers Hl _ IH]; intros st; simpl; [done|].
    rewrite IH. unfold GroupSummary.groupStep. unfold inGroup in Hl. by rewrite Hl. }
  replace (List.filter (inGroup groupName) ledgers) with (@nil FinancialReports.Ledger).
  - by rewrite Hsame.
  - clear Hsame. induction Hnone as [|l ledgers Hl _ IH]; simpl; [done|]. by rewrite Hl.
Qed.

Lemma foldl_stockStep items : ∀ st,
  let st' := foldl StockSummary.stockStep st items in
  length (StockSummary.stockSummary st')
  = (length (StockSummary.stockSummary st) + length items)%nat ∧
  (StockSummary.openingValue <$> StockSummary.stockSummary st'
   = (StockSummary.openingValue <$> StockSummary.stockSummary st)
     ++ (StockSummary.OPENINGVALUE <$> items)) ∧
  (StockSummary.closingValue <$> StockSummary.stockSummary st'
   = (StockSummary.closingValue <$> StockSummary.stockSummary st)
     ++ (StockSummary.CLOSINGVALUE <$> items)) ∧
  (StockSummary.sTotalOpeningValue st'
   == StockSummary.sTotalOpeningValue st + sumQ (StockSummary.OPENINGVALUE <$> items))%Q ∧
  (StockSummary.sTotalClosingValue st'
   == StockSummary.sTotalClosingValue st + sumQ (StockSummary.CLOSINGVALUE <$> items))%Q.
Proof.
  unfold fmap.
  induction items as [|i items IH]; intros st; cbv zeta.
  - simpl. rewrite !app_nil_r. repeat split; (lia || ring).
  - simpl. destruct (IH (StockSummary.stockStep st i)) as (Hn & Ho & Hc & Hto & Htc).
    rewrite Hn, Ho, Hc, Hto, Htc. simpl.
    change (list_fmap ?A ?B ?f) with (@fmap list _ A B f).
    rewrite length_app, !fmap_app, <- !app_assoc. simpl.
    repeat split; (lia || ring).
Qed.

(** X25. [getStockSummary] fails with the error of its first request,
    whatever the reply to the second.  When the first request succeeds
    and the request for the stock items fails, it reports success with no
    item and totals of zero.  When both succeed there is one row for each
    stock item, the totals are the sums of the opening and of the closing
    values of the rows, and the change in stock is the sum of closing less
    opening value over the items. *)
Theorem stock_summary_totals {A} (data : A) error stockResponse :
  StockSummary.getStockSummary (@Failure A error) stockResponse = Failure error ∧
  (∀ stockError,
     ∃ r, StockSummary.getStockSummary (Success data) (Failure stockError) = Success r ∧
          StockSummary.items r = [] ∧
          StockSummary.itemCount (StockSummary.summary r) = 0%nat ∧
          StockSummary.totalOpeningValue (StockSummary.summary r) = 0%Q ∧
          StockSummary.totalClosingValue (StockSummary.summary r) = 0%Q) ∧
  (∀ items,
     ∃ r, StockSummary.getStockSummary (Success data) (Success items) = Success r ∧
          length (StockSummary.items r) = length items ∧
          StockSummary.itemCount (StockSummary.summary r) = length items ∧
          (StockSummary.totalOpeningValue (StockSummary.summary r)
           == sumQ (StockSummary.openingValue <$> StockSummary.items r))%Q ∧
          (StockSummary.totalClosingValue (StockSummary.summary r)
           == sumQ (StockSummary.closingValue <$> StockSummary.items r))%Q ∧
          (StockSummary.changeInStock (StockSummary.summary r)
           == sumQ ((λ item, StockSummary.CLOSINGVALUE item - StockSummary.OPENINGVALUE item)
                    <$> items))%Q).
Proof.
  split; [done|]. split.
  { intros stockError. eexists. split; [reflexivity|]. done. }
  intros items. eexists. split; [reflexivity|]. simpl.
  destruct (foldl_stockStep items
              {| StockSummary.stockSummary := []; StockSummary.sTotalOpeningValue := 0;
                 StockSummary.sTotalClosingValue := 0 |}) as (Hn & Ho & Hc & Hto & Htc).
  simpl in Hn, Ho, Hc, Hto, Htc.
  split; [done|]. split; [done|].
  split; [rewrite Ho, Hto; ring|]. split; [rewrite Hc, Htc; ring|].
  rewrite Hto, Htc. clear.
  unfold fmap. induction items as [|i items IH]; simpl; [ring|].
  rewrite <- IH. ring.
Qed.

End SummaryFacts.
(** ** Edit distance and similar names *)

Section EditDistanceFacts.
Context {C : Type} `{EqDecision C}.
Implicit Types s t xs ys : list C.

Lemma levRec_upper xs : ∀ ys, levRec xs ys ≤ Nat.max (length xs) (length ys).
Proof.
  induction xs as [|x xs IHx]; intros ys; [simpl; lia|].
  induction ys as [|y ys IHy]; [simpl; lia|].
  rewrite levRec_cons. pose proof (IHx ys). simpl length.
  case_bool_decide; lia.
Qed.

Lemma levRec_lower xs : ∀ ys,
  length xs ≤ length ys + levRec xs ys ∧ length ys ≤ length xs + levRec xs ys.
Proof.
  induction xs as [|x xs IHx]; intros ys; [simpl; lia|].
  induction ys as [|y ys IHy]; [simpl; lia|].
  rewrite levRec_cons. pose proof (IHx ys). pose proof (IHx (y :: ys)) as Hd.
  simpl length in *.
  case_bool_decide; lia.
Qed.

Lemma levRec_refl xs : levRec xs xs = 0.
Proof.
  induction xs as [|x xs IH]; [done|].
  rewrite levRec_cons. by rewrite bool_decide_eq_true_2.
Qed.

Lemma levRec_zero xs : ∀ ys, levRec xs ys = 0 → xs = ys.
Proof.
  induction xs as [|x xs IHx]; intros ys.
  - destruct ys; [done|]. simpl. lia.
  - induction ys as [|y ys IHy]; [simpl; lia|].
    rewrite levRec_cons. case_bool_decide as Hxy; [|lia].
    intros Hz. subst y. f_equal. by apply IHx.
Qed.

Lemma levRec_prefix l xs ys : levRec (l ++ xs) (l ++ ys) = levRec xs ys.
Proof.
  induction l as [|c l IH]; [done|].
  simpl app. rewrite levRec_cons. by rewrite bool_decide_eq_true_2.
Qed.

Lemma levRec_substitution (a b : C) l : a ≠ b → levRec (a :: l) (b :: l) = 1.
Proof.
  intros Hab. rewrite levRec_cons, bool_decide_eq_false_2 by done.
  rewrite levRec_refl. lia.
Qed.

Lemma similarity_threshold (d n : nat) :
  0 < n → Qgtb (similarity d n) (8 # 10) = true ↔ 5 * d < n.
Proof.
  intros Hn. rewrite Qgtb_spec. unfold similarity.
  destruct n as [|n]; [lia|].
  unfold Qlt, Qminus, Qplus, Qopp, Qdiv, Qmult, Qinv, inject_Z. simpl.
  lia.
Qed.

Lemma edit_distance_lower s1 s2 :
  length s1 ≤ length s2 + levenshteinDistance s1 s2 ∧
  length s2 ≤ length s1 + levenshteinDistance s1 s2.
Proof.
  rewrite levenshteinDistance_spec.
  pose proof (levRec_lower (rev s1) (rev s2)) as Hlow.
  by rewrite !length_rev in Hlow.
Qed.

(** X26. [levenshteinDistance] lies between the difference of the two
    lengths and the longer length, and it is zero exactly when the two
    strings are equal. *)
Theorem edit_distance_bounds s1 s2 :
  levenshteinDistance s1 s2 ≤ Nat.max (length s1) (length s2) ∧
  Nat.max (length s1) (length s2) - Nat.min (length s1) (length s2)
  ≤ levenshteinDistance s1 s2 ∧
  (levenshteinDistance s1 s2 = 0 ↔ s1 = s2).
Proof.
  rewrite levenshteinDistance_spec.
  pose proof (levRec_upper (rev s1) (rev s2)) as Hup.
  pose proof (levRec_lower (rev s1) (rev s2)) as Hlow.
  rewrite !length_rev in Hup, Hlow.
  split; [done|]. split; [lia|]. split.
  - intros Hz. apply levRec_zero in Hz.
    rewrite <- (rev_involutive s1), <- (rev_involutive s2). by rewrite Hz.
  - intros ->. apply levRec_refl.
Qed.

(** X27. What the duplicate rule makes of typing errors.  Two names of
    six or more characters that differ in exactly one character are
    similar.  Two similar names of which neither contains the other differ
    in length by less than a fifth of the longer, which has six or more
    characters.  A name of up to three characters is similar to no name. *)
Theorem one_substitution_is_similar :
  (∀ s t (a b : C),
     a ≠ b → 6 ≤ length (s ++ a :: t) →
     isSimilarName (s ++ a :: t) (s ++ b :: t) = true) ∧
  (∀ s1 s2,
     isSimilarName s1 s2 = true →
     includes s1 s2 = false → includes s2 s1 = false →
     6 ≤ Nat.max (length s1) (length s2) ∧
     5 * (Nat.max (length s1) (length s2) - Nat.min (length s1) (length s2))
     < Nat.max (length s1) (length s2)) ∧
  (∀ s1 s2, length s1 ≤ 3 → isSimilarName s1 s2 = false ∧ isSimilarName s2 s1 = false).
Proof.
  assert (Hfar : ∀ s1 s2,
            isSimilarName s1 s2 = true →
            includes s1 s2 = false → includes s2 s1 = false →
            6 ≤ Nat.max (length s1) (length s2) ∧
            5 * levenshteinDistance s1 s2 < Nat.max (length s1) (length s2)).
  { intros s1 s2 Hsim H12 H21. unfold isSimilarName in Hsim.
    case_bool_decide; [done|]. rewrite H12, H21 in Hsim. simpl in Hsim.
    apply andb_true_iff in Hsim as [Hq Hlen]. apply bool_decide_eq_true in Hlen.
    apply similarity_threshold in Hq; lia. }
  assert (Hshort : ∀ s1 s2, length s1 ≤ 3 → isSimilarName s1 s2 = false).
  { intros s1 s2 Hlen. destruct (isSimilarName s1 s2) eqn:Hsim; [|done]. exfalso.
    destruct (includes s1 s2 || includes s2 s1) eqn:Hinc.
    - unfold isSimilarName in Hsim. case_bool_decide; [done|].
      rewrite Hinc in Hsim. apply andb_true_iff in Hsim as [Hl _].
      apply bool_decide_eq_true in Hl. lia.
    - apply orb_false_iff in Hinc as [H12 H21].
      destruct (Hfar s1 s2 Hsim H12 H21) as [Hmax Hd].
      destruct (edit_distance_lower s1 s2). lia. }
  split; [|split].
  - intros s t a b Hab Hlen.
    assert (Hlens : length (s ++ b :: t) = length (s ++ a :: t))
      by (rewrite !length_app; done).
    assert (Hne : s ++ a :: t ≠ s ++ b :: t)
      by (intros Heq; apply app_inv_head in Heq; congruence).
    assert (Hnot : ∀ u v : list C, length u = length v → u ≠ v → includes u v = false).
    { intros u v Huv Hne'. apply includes_false. intros (pre & suf & ->).
      rewrite !length_app in Huv.
      destruct pre; [|simpl in Huv; lia]. destruct suf; [|simpl in Huv; lia].
      simpl in Hne'. by rewrite app_nil_r in Hne'. }
    unfold isSimilarName. rewrite bool_decide_eq_false_2 by done.
    rewrite (Hnot _ _ (eq_sym Hlens) Hne), (Hnot _ _ Hlens (not_eq_sym Hne)). simpl.
    rewrite Hlens, Nat.max_id.
    apply andb_true_iff. split; [|apply bool_decide_eq_true; lia].
    apply similarity_threshold; [lia|].
    rewrite levenshteinDistance_spec, !rev_app_distr. simpl.
    rewrite <- !app_assoc, levRec_prefix. simpl app.
    rewrite levRec_substitution by done. lia.
  - intros s1 s2 Hsim H12 H21. destruct (Hfar s1 s2 Hsim H12 H21) as [Hmax Hd].
    split; [done|]. destruct (edit_distance_lower s1 s2). lia.
  - intros s1 s2 Hlen. split; [by apply Hshort|].
    rewrite isSimilarName_sym. by apply Hshort.
Qed.

End EditDistanceFacts.

Lemma one_substitution_is_similar_witness :
  isSimilarName (Js.units "sharma traders") (Js.units "sharma tradars") = true.
Proof.
  apply (proj1 one_substitution_is_similar (Js.units "sharma trad") (Js.units "rs")
           "e"%char "a"%char); [done | simpl; lia].
Defined.
